(** * Notification dispatch and scheduling engine of dheem04/snds

    A shallow embedding of the BullMQ worker processor, the cron scheduler
    sweeps, the notify / campaign / template-send route handlers and the
    authentication middleware, over an explicit model of the Prisma tables
    (prisma/schema.prisma) and of the job queue.

    The repository holds two generations of the worker and of the notify
    route: the first ones (backend/src/worker/notificationWorker.ts,
    backend/src/routes/notify.ts; modules [Basic] and [BasicRoute] below) and
    the campaign-aware ones (src/unnamed/part_009, src/unnamed/part_004; top
    level).

    Conventions.
    - A Prisma table is the list of its rows, oldest first; primary keys come
      from a per-table counter that only grows (SERIAL columns).
    - [DateTime] values are epoch milliseconds in [Z].
    - [Json] columns are kept as opaque text.
    - Every awaited call to the store, the queue or a channel sender may
      reject.  Whether it does is an input of the model (an "environment"
      record per handler), never a choice made by the model. *)

From Stdlib Require Import ZArith List Ascii String Bool Lia DecimalString.
Import ListNotations.
Open Scope string_scope.
Open Scope Z_scope.

(** ** JavaScript helpers *)

Definition Time := Z.

(** Truthiness of an optional integer ([if (campaignId)], [userId ? .. : ..]):
    [undefined], [null] and [0] are falsy. *)
Definition truthyZ (o : option Z) : bool :=
  match o with
  | Some z => negb (z =? 0)
  | None => false
  end.

(** Template literal interpolation of a number. *)
Definition show_Z (z : Z) : string := NilZero.string_of_int (Z.to_int z).

(** ** Data model (prisma/schema.prisma) *)

Record NotificationLog := {
  log_userId : option Z;
  log_to : string;
  log_channel : string;
  log_message : string;
  log_subject : option string;
  log_templateId : option Z;
  log_campaignId : option Z;
  log_status : string;
  log_error : option string;
  log_attempt : Z;
  log_metadata : option string;
  log_deliveredAt : option Time;
  log_createdAt : Time
}.

Record ScheduledNotification := {
  sn_id : Z;
  sn_userId : option Z;
  sn_to : string;
  sn_channel : string;
  sn_message : string;
  sn_subject : option string;
  sn_templateId : option Z;
  sn_campaignId : option Z;
  sn_sendAt : Time;
  sn_status : string;
  sn_metadata : option string;
  sn_createdAt : Time
}.

Record NotificationTemplate := {
  t_id : Z;
  t_userId : Z;
  t_name : string;
  t_channel : string;
  t_subject : option string;
  t_content : string;
  t_isActive : bool
}.

Record NotificationCampaign := {
  c_id : Z;
  c_userId : Z;
  c_name : string;
  c_templateId : option Z;
  c_channel : string;
  c_recipients : list string;
  c_status : string;
  c_startedAt : option Time;
  c_completedAt : option Time;
  c_totalRecipients : Z;
  c_successCount : Z;
  c_failureCount : Z
}.

(** ** Jobs (bullmq) *)

(** [job.data] as the enqueue sites build it. *)
Record JobData := {
  jd_userId : option Z;
  jd_to : string;
  jd_channel : string;
  jd_message : string;
  jd_subject : option string;
  jd_templateId : option Z;
  jd_campaignId : option Z;
  jd_metadata : option string
}.

Record Backoff := {
  bo_type : string;
  bo_delay : Z
}.

Record JobOpts := {
  attempts : Z;
  backoff : Backoff
}.

(** What [notificationQueue.add(name, data, opts)] stores. *)
Record QueuedJob := {
  q_name : string;
  q_data : JobData;
  q_opts : JobOpts
}.

(** A job as handed to the processor. *)
Record Job := {
  data : JobData;
  opts : JobOpts;
  attemptsMade : Z
}.

(** The retry options literal repeated at every enqueue site:
    [{ attempts: 3, backoff: { type: "exponential", delay: 10000 } }]. *)
Definition retry_opts : JobOpts :=
  {| attempts := 3; backoff := {| bo_type := "exponential"; bo_delay := 10000 |} |}.

(** ** Channel senders *)

Inductive SendCall :=
| SendEmail (to message : string) (subject : option string)
| SendSMS (to message : string)
| SendInApp (target message : string).

(** ** The world the handlers act on *)

Record World := {
  campaigns : list NotificationCampaign;    (* table NotificationCampaign *)
  scheduled : list ScheduledNotification;   (* table ScheduledNotification *)
  logs : list NotificationLog;              (* table NotificationLog *)
  templates : list NotificationTemplate;    (* table NotificationTemplate *)
  queue : list QueuedJob;                   (* jobs added to the queue, in order of addition *)
  sent : list SendCall;                     (* channel sender invocations, in order *)
  nextScheduledId : Z                       (* the SERIAL counter of ScheduledNotification *)
}.

Definition with_campaigns (cs : list NotificationCampaign) (w : World) : World :=
  {| campaigns := cs; scheduled := scheduled w; logs := logs w;
     templates := templates w; queue := queue w; sent := sent w;
     nextScheduledId := nextScheduledId w |}.

Definition with_scheduled (ss : list ScheduledNotification) (w : World) : World :=
  {| campaigns := campaigns w; scheduled := ss; logs := logs w;
     templates := templates w; queue := queue w; sent := sent w;
     nextScheduledId := nextScheduledId w |}.

Definition with_logs (ls : list NotificationLog) (w : World) : World :=
  {| campaigns := campaigns w; scheduled := scheduled w; logs := ls;
     templates := templates w; queue := queue w; sent := sent w;
     nextScheduledId := nextScheduledId w |}.

Definition with_queue (q : list QueuedJob) (w : World) : World :=
  {| campaigns := campaigns w; scheduled := scheduled w; logs := logs w;
     templates := templates w; queue := q; sent := sent w;
     nextScheduledId := nextScheduledId w |}.

Definition with_sent (s : list SendCall) (w : World) : World :=
  {| campaigns := campaigns w; scheduled := scheduled w; logs := logs w;
     templates := templates w; queue := queue w; sent := s;
     nextScheduledId := nextScheduledId w |}.

Definition with_nextScheduledId (n : Z) (w : World) : World :=
  {| campaigns := campaigns w; scheduled := scheduled w; logs := logs w;
     templates := templates w; queue := queue w; sent := sent w;
     nextScheduledId := n |}.

(** ** Effects: state that survives a thrown error

    An awaited call either resolves to a value or rejects with an error
    message; either way the writes made so far stay (nothing here runs in a
    transaction). *)

Inductive Result (A : Type) :=
| Val (a : A)
| Exn (msg : string).
Arguments Val {A} a.
Arguments Exn {A} msg.

Definition M (S A : Type) := S -> Result A * S.

Definition ret {S A} (a : A) : M S A := fun s => (Val a, s).

Definition throw {S A} (msg : string) : M S A := fun s => (Exn msg, s).

Definition bind {S A B} (m : M S A) (k : A -> M S B) : M S B :=
  fun s =>
    match m s with
    | (Val a, s') => k a s'
    | (Exn e, s') => (Exn e, s')
    end.

(** [try { body } catch (err) { handler(err.message) }] *)
Definition try_catch {S A} (body : M S A) (handler : string -> M S A) : M S A :=
  fun s =>
    match body s with
    | (Val a, s') => (Val a, s')
    | (Exn e, s') => handler e s'
    end.

(** [try { body } finally { fin }]: [fin] always runs; when it throws, its
    error replaces the outcome of [body]. *)
Definition try_finally {S A} (body : M S A) (fin : M S unit) : M S A :=
  fun s =>
    match body s with
    | (r, s') =>
        match fin s' with
        | (Val _, s'') => (r, s'')
        | (Exn e, s'') => (Exn e, s'')
        end
    end.

(** [Promise.all([first, rest])] of two promises already started: both run
    to their end, and the first rejection is the outcome. *)
Definition both {S A B} (first : M S A) (rest : M S B) : M S (A * B) :=
  fun s =>
    match first s with
    | (r1, s') =>
        match rest s' with
        | (r2, s'') =>
            (match r1, r2 with
             | Val a, Val b => Val (a, b)
             | Exn e, _ => Exn e
             | Val _, Exn e => Exn e
             end, s'')
        end
    end.

Definition get {S} : M S S := fun s => (Val s, s).
Definition modify {S} (f : S -> S) : M S unit := fun s => (Val tt, f s).

(** An awaited call whose rejection is decided by the environment. *)
Definition may_reject {S} (err : option string) : M S unit :=
  match err with
  | Some e => throw e
  | None => ret tt
  end.

Declare Scope js_scope.
Delimit Scope js_scope with js.
Notation "x <- m ;; k" := (bind m (fun x => k))
  (at level 61, m at next level, right associativity) : js_scope.
Notation "m ;; k" := (bind m (fun _ => k))
  (at level 61, right associativity) : js_scope.
Open Scope js_scope.

(** ** Store primitives (Prisma client) *)

Definition prismaNotFound : string := "Record to update not found.".

Definition inc_success (c : NotificationCampaign) : NotificationCampaign :=
  {| c_id := c_id c; c_userId := c_userId c; c_name := c_name c;
     c_templateId := c_templateId c; c_channel := c_channel c;
     c_recipients := c_recipients c; c_status := c_status c;
     c_startedAt := c_startedAt c; c_completedAt := c_completedAt c;
     c_totalRecipients := c_totalRecipients c;
     c_successCount := c_successCount c + 1;
     c_failureCount := c_failureCount c |}.

Definition inc_failure (c : NotificationCampaign) : NotificationCampaign :=
  {| c_id := c_id c; c_userId := c_userId c; c_name := c_name c;
     c_templateId := c_templateId c; c_channel := c_channel c;
     c_recipients := c_recipients c; c_status := c_status c;
     c_startedAt := c_startedAt c; c_completedAt := c_completedAt c;
     c_totalRecipients := c_totalRecipients c;
     c_successCount := c_successCount c;
     c_failureCount := c_failureCount c + 1 |}.

Definition set_running (now : Time) (c : NotificationCampaign) : NotificationCampaign :=
  {| c_id := c_id c; c_userId := c_userId c; c_name := c_name c;
     c_templateId := c_templateId c; c_channel := c_channel c;
     c_recipients := c_recipients c; c_status := "running";
     c_startedAt := Some now; c_completedAt := c_completedAt c;
     c_totalRecipients := c_totalRecipients c;
     c_successCount := c_successCount c;
     c_failureCount := c_failureCount c |}.

Definition set_completed (now : Time) (c : NotificationCampaign) : NotificationCampaign :=
  {| c_id := c_id c; c_userId := c_userId c; c_name := c_name c;
     c_templateId := c_templateId c; c_channel := c_channel c;
     c_recipients := c_recipients c; c_status := "completed";
     c_startedAt := c_startedAt c; c_completedAt := Some now;
     c_totalRecipients := c_totalRecipients c;
     c_successCount := c_successCount c;
     c_failureCount := c_failureCount c |}.

Definition find_campaign (id : Z) (cs : list NotificationCampaign)
  : option NotificationCampaign :=
  find (fun c => c_id c =? id) cs.

(** Row update by primary key. *)
Definition update_campaign_row (id : Z) (f : NotificationCampaign -> NotificationCampaign)
  (cs : list NotificationCampaign) : list NotificationCampaign :=
  map (fun c => if c_id c =? id then f c else c) cs.

(** [prisma.notificationCampaign.update({ where: { id }, data })]: rejects
    when the store is unreachable ([err]) or when no row has that id. *)
Definition campaign_update (err : option string) (id : Z)
  (f : NotificationCampaign -> NotificationCampaign) : M World unit :=
  may_reject err ;;
  w <- get ;;
  match find_campaign id (campaigns w) with
  | None => throw prismaNotFound
  | Some _ => modify (fun w => with_campaigns (update_campaign_row id f (campaigns w)) w)
  end.

(** A nullable foreign key is satisfied when it is null or names a row
    (prisma/migrations/.../migration.sql). *)
Definition template_known (w : World) (templateId : option Z) : bool :=
  match templateId with
  | Some id => existsb (fun t => t_id t =? id) (templates w)
  | None => true
  end.

Definition campaign_known (w : World) (campaignId : option Z) : bool :=
  match campaignId with
  | Some id => existsb (fun c => c_id c =? id) (campaigns w)
  | None => true
  end.

Definition refs_known (w : World) (templateId campaignId : option Z) : bool :=
  template_known w templateId && campaign_known w campaignId.

(** [prisma.notificationLog.create({ data })]: refused when the store is
    unreachable ([err]) or when [templateId] or [campaignId] names no row
    (NotificationLog_templateId_fkey, NotificationLog_campaignId_fkey);
    [userId], when set, is the id of the user who submitted the job. *)
Definition log_create (err : option string) (entry : NotificationLog) : M World unit :=
  may_reject err ;;
  w <- get ;;
  if refs_known w (log_templateId entry) (log_campaignId entry)
  then modify (fun w => with_logs (logs w ++ [entry]) w)
  else throw "Foreign key constraint failed: NotificationLog".

(** A channel sender call: the invocation is observable whether or not the
    provider accepts the message. *)
Definition call_sender (err : option string) (c : SendCall) : M World unit :=
  modify (fun w => with_sent (sent w ++ [c]) w) ;;
  may_reject err.

(** [notificationQueue.add(name, data, opts)] *)
Definition queue_add (err : option string) (name : string) (d : JobData) (o : JobOpts)
  : M World unit :=
  may_reject err ;;
  modify (fun w => with_queue (queue w ++ [{| q_name := name; q_data := d; q_opts := o |}]) w).

(** ** The worker processor (campaign-aware worker, src/unnamed/part_009) *)

(** What one processing attempt meets outside the process. *)
Record AttemptEnv := {
  now : Time;                            (* what [new Date()] returns *)
  sender_error : option string;          (* the channel sender rejects *)
  success_update_error : option string;  (* the store rejects the successCount update *)
  failure_update_error : option string;  (* the store rejects the failureCount update *)
  log_create_error : option string;      (* the store rejects the log insert *)
  db_now : Time                          (* the store's [now()] at the log insert *)
}.

(** The [let] variables of the processor, next to the world. *)
Record Frame := {
  fw : World;
  status : string;
  error : option string;
  deliveredAt : option Time
}.

Definition init_frame (w : World) : Frame :=
  {| fw := w; status := "success"; error := None; deliveredAt := None |}.

Definition set_fw (w : World) (f : Frame) : Frame :=
  {| fw := w; status := status f; error := error f; deliveredAt := deliveredAt f |}.

Definition set_status (s : string) (f : Frame) : Frame :=
  {| fw := fw f; status := s; error := error f; deliveredAt := deliveredAt f |}.

Definition set_error (e : option string) (f : Frame) : Frame :=
  {| fw := fw f; status := status f; error := e; deliveredAt := deliveredAt f |}.

Definition set_deliveredAt (t : option Time) (f : Frame) : Frame :=
  {| fw := fw f; status := status f; error := error f; deliveredAt := t |}.

(** A store, queue or sender call made from inside the processor. *)
Definition lift {A} (m : M World A) : M Frame A :=
  fun f =>
    match m (fw f) with
    | (r, w') => (r, set_fw w' f)
    end.

(** [if (campaignId) { ... }] *)
Definition when_campaign {S} (campaignId : option Z) (k : Z -> M S unit) : M S unit :=
  match campaignId with
  | Some id => if truthyZ (Some id) then k id else ret tt
  | None => ret tt
  end.

(** The channel [if]/[else if] chain of the [try] block. *)
Definition dispatch (env : AttemptEnv) (d : JobData) : M World unit :=
  if String.eqb (jd_channel d) "email" then
    call_sender (sender_error env) (SendEmail (jd_to d) (jd_message d) (jd_subject d))
  else if String.eqb (jd_channel d) "sms" then
    call_sender (sender_error env) (SendSMS (jd_to d) (jd_message d))
  else if String.eqb (jd_channel d) "in-app" then
    let targetId :=
      match jd_userId d with
      | Some u => if truthyZ (Some u) then "user_" ++ show_Z u else jd_to d
      | None => jd_to d
      end in
    call_sender (sender_error env) (SendInApp targetId (jd_message d))
  else
    throw ("Unknown channel: " ++ jd_channel d).

Definition log_entry (env : AttemptEnv) (job : Job) (f : Frame) : NotificationLog :=
  let d := data job in
  {| log_userId := jd_userId d;
     log_to := jd_to d;
     log_channel := jd_channel d;
     log_message := jd_message d;
     log_subject := jd_subject d;
     log_templateId := jd_templateId d;
     log_campaignId := jd_campaignId d;
     log_status := status f;
     log_error := error f;
     log_attempt := attemptsMade job + 1;
     log_metadata := jd_metadata d;
     log_deliveredAt := deliveredAt f;
     log_createdAt := db_now env |}.

Definition processor (env : AttemptEnv) (job : Job) : M Frame unit :=
  let d := data job in
  try_finally
    (try_catch
       (lift (dispatch env d) ;;
        modify (set_deliveredAt (Some (now env))) ;;
        when_campaign (jd_campaignId d) (fun id =>
          lift (campaign_update (success_update_error env) id inc_success)))
       (fun err =>
          modify (set_status "failed") ;;
          modify (set_error (Some err)) ;;
          when_campaign (jd_campaignId d) (fun id =>
            lift (campaign_update (failure_update_error env) id inc_failure)) ;;
          throw err))
    (try_catch
       (f <- get ;;
        lift (log_create (log_create_error env) (log_entry env job f)))
       (fun _logError => ret tt)).

(** One processing attempt on a world: does the returned promise resolve or
    reject, and what is the world afterwards. *)
Definition run_processor (env : AttemptEnv) (job : Job) (w : World) : Result unit * World :=
  match processor env job (init_frame w) with
  | (r, f) => (r, fw f)
  end.

(** ** The first worker (src/backend/src/worker/notificationWorker.ts) *)

Module Basic.

Definition dispatch (env : AttemptEnv) (d : JobData) : M World unit :=
  if String.eqb (jd_channel d) "email" then
    call_sender (sender_error env) (SendEmail (jd_to d) (jd_message d) None)
  else if String.eqb (jd_channel d) "sms" then
    call_sender (sender_error env) (SendSMS (jd_to d) (jd_message d))
  else if String.eqb (jd_channel d) "in-app" then
    call_sender (sender_error env) (SendInApp (jd_to d) (jd_message d))
  else
    throw "Unknown channel".

(** Only [to, channel, message, status, error] are given to [create]; the
    other columns take their schema defaults ([attempt Int @default(1)],
    [createdAt @default(now())], nullable columns null). *)
Definition log_entry (env : AttemptEnv) (job : Job) (f : Frame) : NotificationLog :=
  let d := data job in
  {| log_userId := None;
     log_to := jd_to d;
     log_channel := jd_channel d;
     log_message := jd_message d;
     log_subject := None;
     log_templateId := None;
     log_campaignId := None;
     log_status := status f;
     log_error := error f;
     log_attempt := 1;
     log_metadata := None;
     log_deliveredAt := None;
     log_createdAt := db_now env |}.

Definition processor (env : AttemptEnv) (job : Job) : M Frame unit :=
  let d := data job in
  try_finally
    (try_catch
       (lift (dispatch env d))
       (fun err =>
          modify (set_status "failed") ;;
          modify (set_error (Some err)) ;;
          throw err))
    (f <- get ;;
     lift (log_create (log_create_error env) (log_entry env job f))).

Definition run_processor (env : AttemptEnv) (job : Job) (w : World)
  : Result unit * World :=
  match processor env job (init_frame w) with
  | (r, f) => (r, fw f)
  end.

End Basic.

(** ** The queue's retry mechanism *)

Inductive JobFate :=
| Completed
| Failed (reason : string).

Definition next_attempt (job : Job) : Job :=
  {| data := data job; opts := opts job; attemptsMade := attemptsMade job + 1 |}.

(** Modelled from the spec: bullmq's handling of a processor outcome is a
    dependency outside src/.  Following the Job Queue contract ("on failure
    ... redelivered according to retry policy, until attempts exhausted, after
    which the job is dropped", maximum attempt count [opts.attempts]) and the
    worker's own comment ("throw err; // This triggers BullMQ to retry"): a
    resolved processor completes the job; a rejected one counts one attempt
    made and the job is handed to the processor again while attempts remain.
    [remaining] is the number of redeliveries still allowed; [envs k] is what
    the attempt made with [attemptsMade = k] meets.  Backoff delays are time
    only and do not appear. *)
Fixpoint attempt_loop (proc : AttemptEnv -> Job -> World -> Result unit * World)
  (remaining : nat) (envs : Z -> AttemptEnv) (job : Job) (w : World)
  : JobFate * World :=
  match proc (envs (attemptsMade job)) job w with
  | (Val _, w') => (Completed, w')
  | (Exn e, w') =>
      match remaining with
      | O => (Failed e, w')
      | S r => attempt_loop proc r envs (next_attempt job) w'
      end
  end.

(** A queued job taken by a worker and driven to its terminal outcome. *)
Definition run_job (proc : AttemptEnv -> Job -> World -> Result unit * World)
  (envs : Z -> AttemptEnv) (q : QueuedJob) (w : World) : JobFate * World :=
  attempt_loop proc (Z.to_nat (attempts (q_opts q) - 1)) envs
    {| data := q_data q; opts := q_opts q; attemptsMade := 0 |} w.

(** The workers drain a list of queued jobs; [envs i] serves the i-th job. *)
Fixpoint run_jobs (proc : AttemptEnv -> Job -> World -> Result unit * World)
  (envs : nat -> Z -> AttemptEnv) (i : nat) (qs : list QueuedJob) (w : World) : World :=
  match qs with
  | [] => w
  | q :: rest => run_jobs proc envs (S i) rest (snd (run_job proc (envs i) q w))
  end.

(** ** Scheduler (src/backend/src/scheduler/scheduler.ts) *)

Definition set_sn_status (s : string) (n : ScheduledNotification) : ScheduledNotification :=
  {| sn_id := sn_id n; sn_userId := sn_userId n; sn_to := sn_to n;
     sn_channel := sn_channel n; sn_message := sn_message n;
     sn_subject := sn_subject n; sn_templateId := sn_templateId n;
     sn_campaignId := sn_campaignId n; sn_sendAt := sn_sendAt n;
     sn_status := s; sn_metadata := sn_metadata n;
     sn_createdAt := sn_createdAt n |}.

Definition update_scheduled_row (id : Z) (f : ScheduledNotification -> ScheduledNotification)
  (ss : list ScheduledNotification) : list ScheduledNotification :=
  map (fun n => if sn_id n =? id then f n else n) ss.

(** [prisma.scheduledNotification.update({ where: { id }, data: { status } })] *)
Definition scheduled_update (err : option string) (id : Z) (st : string) : M World unit :=
  may_reject err ;;
  w <- get ;;
  match find (fun n => sn_id n =? id) (scheduled w) with
  | None => throw prismaNotFound
  | Some _ =>
      modify (fun w => with_scheduled (update_scheduled_row id (set_sn_status st) (scheduled w)) w)
  end.

(** What one run of the every-minute callback meets. *)
Record SweepEnv := {
  sweep_now : Time;
  find_error : option string;              (* [findMany] rejects *)
  add_error : Z -> option string;          (* [notificationQueue.add] rejects, per record id *)
  mark_queued_error : Z -> option string;  (* the update to "queued" rejects *)
  mark_failed_error : Z -> option string   (* the update to "failed" rejects *)
}.

(** The [where] clause [{ sendAt: { lte: now }, status: "pending" }]. *)
Definition is_due (now : Time) (n : ScheduledNotification) : bool :=
  (sn_sendAt n <=? now) && String.eqb (sn_status n) "pending".

(** The rows [findMany] returns.  The query has no [orderBy]: the rows are
    taken here in table order, which the store does not promise. *)
Definition dueNotifications (now : Time) (ss : list ScheduledNotification)
  : list ScheduledNotification :=
  filter (is_due now) ss.

(** The job data copied from a due record. *)
Definition job_of_scheduled (notif : ScheduledNotification) : JobData :=
  {| jd_userId := sn_userId notif;
     jd_to := sn_to notif;
     jd_channel := sn_channel notif;
     jd_message := sn_message notif;
     jd_subject := sn_subject notif;
     jd_templateId := sn_templateId notif;
     jd_campaignId := sn_campaignId notif;
     jd_metadata := sn_metadata notif |}.

(** The body of [for (const notif of dueNotifications)]. *)
Definition promote_one (env : SweepEnv) (notif : ScheduledNotification) : M World unit :=
  try_catch
    (queue_add (add_error env (sn_id notif)) "send" (job_of_scheduled notif) retry_opts ;;
     scheduled_update (mark_queued_error env (sn_id notif)) (sn_id notif) "queued")
    (fun _error =>
       scheduled_update (mark_failed_error env (sn_id notif)) (sn_id notif) "failed").

Fixpoint promote_each (env : SweepEnv) (due : list ScheduledNotification) : M World unit :=
  match due with
  | [] => ret tt
  | notif :: rest => promote_one env notif ;; promote_each env rest
  end.

(** The callback registered with [cron.schedule("* * * * *", ...)]. *)
Definition promotion_sweep (env : SweepEnv) : M World unit :=
  try_catch
    (may_reject (find_error env) ;;
     w <- get ;;
     promote_each env (dueNotifications (sweep_now env) (scheduled w)))
    (fun _error => ret tt).

(** What one run of the every-five-minutes callback meets. *)
Record CompletionEnv := {
  completion_now : Time;
  running_find_error : option string;     (* [findMany] rejects *)
  complete_error : Z -> option string     (* the update to "completed" rejects, per campaign id *)
}.

(** [_count.scheduledNotifications] with
    [where: { status: { in: ["pending", "queued"] } }]. *)
Definition pendingCount (c : NotificationCampaign) (ss : list ScheduledNotification) : Z :=
  Z.of_nat (List.length (filter
    (fun n =>
       match sn_campaignId n with
       | Some id => (id =? c_id c) && (String.eqb (sn_status n) "pending"
                                       || String.eqb (sn_status n) "queued")
       | None => false
       end) ss)).

Definition campaign_update_completed (err : option string) (id : Z) (now : Time)
  : M World unit :=
  campaign_update err id (set_completed now).

(** The loop over the [runningCampaigns] snapshot; each row carries the count
    taken by the same query. *)
Fixpoint complete_each (env : CompletionEnv)
  (running : list (NotificationCampaign * Z)) : M World unit :=
  match running with
  | [] => ret tt
  | (campaign, pending) :: rest =>
      let totalSent := c_successCount campaign + c_failureCount campaign in
      (if (pending =? 0) && (totalSent >=? c_totalRecipients campaign) then
         campaign_update_completed (complete_error env (c_id campaign)) (c_id campaign)
           (completion_now env)
       else ret tt) ;;
      complete_each env rest
  end.

(** The rows of [findMany({ where: { status: "running" }, include: { _count } })],
    in table order (the query has no [orderBy]). *)
Definition runningCampaigns (w : World) : list (NotificationCampaign * Z) :=
  map (fun c => (c, pendingCount c (scheduled w)))
      (filter (fun c => String.eqb (c_status c) "running") (campaigns w)).

(** The callback registered with [cron.schedule("*/5 * * * *", ...)]. *)
Definition completion_sweep (env : CompletionEnv) : M World unit :=
  try_catch
    (may_reject (running_find_error env) ;;
     w <- get ;;
     complete_each env (runningCampaigns w))
    (fun _error => ret tt).

(** What one run of the daily callback meets; [thirtyDaysAgo] is the date the
    callback computes with [setDate(getDate() - 30)]. *)
Record CleanupEnv := {
  thirtyDaysAgo : Time;
  logs_delete_error : option string;
  scheduled_delete_error : option string
}.

Definition status_in (st : string) (l : list string) : bool :=
  existsb (String.eqb st) l.

(** The callback registered with [cron.schedule("0 2 * * *", ...)]. *)
Definition cleanup_sweep (env : CleanupEnv) : M World unit :=
  try_catch
    (may_reject (logs_delete_error env) ;;
     modify (fun w => with_logs
       (filter (fun l => negb ((log_createdAt l <? thirtyDaysAgo env)
                               && status_in (log_status l) ["success"; "failed"]))
               (logs w)) w) ;;
     may_reject (scheduled_delete_error env) ;;
     modify (fun w => with_scheduled
       (filter (fun n => negb ((sn_createdAt n <? thirtyDaysAgo env)
                               && status_in (sn_status n) ["sent"; "failed"; "cancelled"]))
               (scheduled w)) w))
    (fun _error => ret tt).

(** ** HTTP layer: requests and responses

    A handler below is what runs after the rate limiter and the
    authentication middleware let the request through; [userId] is
    [req.user!.id]. *)

(** The [sendAt] body field when present.  [isISO8601()] and [new Date] do
    not accept the same texts: the validator also lets through week dates and
    ordinal dates ("2020-W01-1", "2020-001"), for which [new Date(sendAt)] is
    an Invalid Date.
    - [IsoDate raw t]: [raw] passes the validator and [new Date(raw)] is the
      instant [t];
    - [IsoNoDate raw]: [raw] passes the validator and [new Date(raw)] is an
      Invalid Date;
    - [NotIso raw]: [raw] fails the validator. *)
Inductive SendAt :=
| IsoDate (raw : string) (t : Time)
| IsoNoDate (raw : string)
| NotIso (raw : string).

Inductive Body :=
| JErrors                                                   (* { errors: [...] } *)
| JError (msg : string)                                     (* { error } *)
| JMessage (msg : string)                                   (* { message } *)
| JScheduled (sendAt : SendAt) (id : option Z)              (* { status: "scheduled", sendAt, id } *)
| JQueued                                                   (* { status: "queued" } *)
| JBulkScheduled (sendAt : SendAt) (count : Z) (ids : list Z)
| JBulkQueued (count : Z)
| JStarted (recipientsQueued : Z)
| JTemplateScheduled (sendAt : SendAt) (templateUsed : string)
| JTemplateQueued (templateUsed : string).

Record Response := {
  code : Z;
  body : Body
}.

Definition respond (c : Z) (b : Body) : Response := {| code := c; body := b |}.

(** What one request meets: the clock, and whether the store and the queue
    answer during the request. *)
Record RouteEnv := {
  req_now : Time;
  store_error : option string;
  queue_error : option string
}.

(** [isIn(["email", "sms", "in-app"])] *)
Definition known_channel (channel : string) : bool :=
  status_in channel ["email"; "sms"; "in-app"].

(** [isString().notEmpty()] on a field read as text (missing reads as empty). *)
Definition notEmpty (s : string) : bool := negb (String.eqb s "").

(** [optional().isISO8601()] *)
Definition optional_iso (sendAt : option SendAt) : bool :=
  match sendAt with
  | None => true
  | Some (IsoDate raw _) => notEmpty raw      (* the empty string is no ISO 8601 date *)
  | Some (IsoNoDate raw) => notEmpty raw
  | Some (NotIso _) => false
  end.

(** [prisma.scheduledNotification.create({ data })]: the row gets the next
    id, [status @default("pending")] and [createdAt @default(now())].  The
    insert is refused when [templateId] names no template
    (ScheduledNotification_templateId_fkey), after it has drawn its id from
    the sequence; [userId] is the id of the authenticated user, whose row
    exists. *)
Definition scheduled_create (env : RouteEnv) (userId : option Z) (to channel message : string)
  (subject : option string) (templateId : option Z) (sendAt : Time)
  (metadata : option string) : M World ScheduledNotification :=
  may_reject (store_error env) ;;
  w <- get ;;
  let row :=
    {| sn_id := nextScheduledId w; sn_userId := userId; sn_to := to;
       sn_channel := channel; sn_message := message; sn_subject := subject;
       sn_templateId := templateId; sn_campaignId := None; sn_sendAt := sendAt;
       sn_status := "pending"; sn_metadata := metadata;
       sn_createdAt := req_now env |} in
  if template_known w templateId then
    modify (fun w => with_nextScheduledId (nextScheduledId w + 1)
                       (with_scheduled (scheduled w ++ [row]) w)) ;;
    ret row
  else
    modify (fun w => with_nextScheduledId (nextScheduledId w + 1) w) ;;
    throw "Foreign key constraint failed: ScheduledNotification_templateId_fkey".

(** [new Date(sendAt)] handed to the store: the client rejects an Invalid
    Date before anything is written. *)
Definition date_of (sendAt : SendAt) : M World Time :=
  match sendAt with
  | IsoDate _ t => ret t
  | IsoNoDate _ => throw "Invalid Date"
  | NotIso _ => throw "Invalid Date"
  end.

Definition raw_of (sendAt : SendAt) : string :=
  match sendAt with
  | IsoDate raw _ => raw
  | IsoNoDate raw => raw
  | NotIso raw => raw
  end.

(** [if (sendAt)]: a string is truthy unless empty; [Some s] when the branch
    is taken. *)
Definition truthy_sendAt (sendAt : option SendAt) : option SendAt :=
  match sendAt with
  | Some s => if notEmpty (raw_of s) then Some s else None
  | None => None
  end.

(** [channel === 'email' ? subject : null] *)
Definition subject_for (channel : string) (subject : option string) : option string :=
  if String.eqb channel "email" then subject else None.

(** The "Validate template if provided" block; [Some r] is an early response. *)
Definition check_template (env : RouteEnv) (userId : Z) (templateId : option Z)
  (channel : string) (notFound : string) : M World (option Response) :=
  match templateId with
  | Some id =>
      if truthyZ (Some id) then
        may_reject (store_error env) ;;
        w <- get ;;
        match find (fun t => (t_id t =? id) && (t_userId t =? userId) && t_isActive t)
                   (templates w) with
        | None => ret (Some (respond 400 (JError notFound)))
        | Some template =>
            if negb (String.eqb (t_channel template) channel)
            then ret (Some (respond 400 (JError "Template channel mismatch")))
            else ret None
        end
      else ret None
  | None => ret None
  end.

Definition internal_error : Response := respond 500 (JError "Internal server error").

(** *** Notify routes (src/unnamed/part_004)

    Body fields are read at the type their validator demands: [to],
    [channel] and [message] as text (a missing field reads as empty and
    fails validation like the empty string), [templateId] as an integer,
    [subject] and [metadata] as optional text.  The validators
    [optional().isString()], [optional().isInt()] and [optional().isObject()]
    then always pass and do not appear. *)

Record NotifyBody := {
  b_to : string;
  b_channel : string;
  b_message : string;
  b_subject : option string;
  b_sendAt : option SendAt;
  b_templateId : option Z;
  b_metadata : option string
}.

Definition notify_valid (b : NotifyBody) : bool :=
  notEmpty (b_to b) && known_channel (b_channel b) && notEmpty (b_message b)
  && optional_iso (b_sendAt b).

(** [router.post("/", ...)] *)
Definition post_notify (env : RouteEnv) (userId : Z) (b : NotifyBody) : M World Response :=
  if negb (notify_valid b) then ret (respond 400 JErrors)
  else
    try_catch
      (early <- check_template env userId (b_templateId b) (b_channel b)
                  "Invalid template or template not found" ;;
       match early with
       | Some r => ret r
       | None =>
           match truthy_sendAt (b_sendAt b) with
           | Some sendAt =>
               t <- date_of sendAt ;;
               scheduled <- scheduled_create env (Some userId) (b_to b) (b_channel b)
                              (b_message b) (subject_for (b_channel b) (b_subject b))
                              (b_templateId b) t (b_metadata b) ;;
               ret (respond 202 (JScheduled sendAt (Some (sn_id scheduled))))
           | None =>
               queue_add (queue_error env) "send"
                 {| jd_userId := Some userId; jd_to := b_to b; jd_channel := b_channel b;
                    jd_message := b_message b;
                    jd_subject := subject_for (b_channel b) (b_subject b);
                    jd_templateId := b_templateId b; jd_campaignId := None;
                    jd_metadata := b_metadata b |} retry_opts ;;
               ret (respond 202 JQueued)
           end
       end)
      (fun _error => ret internal_error).

Record BulkBody := {
  bb_recipients : option (list string);   (* [None]: missing or not an array *)
  bb_channel : string;
  bb_message : string;
  bb_subject : option string;
  bb_templateId : option Z;
  bb_sendAt : option SendAt
}.

(** [isArray({ min: 1, max: 100 })] *)
Definition isArray_1_100 (recipients : option (list string)) : bool :=
  match recipients with
  | Some l => (1 <=? Z.of_nat (List.length l)) && (Z.of_nat (List.length l) <=? 100)
  | None => false
  end.

Definition bulk_valid (b : BulkBody) : bool :=
  isArray_1_100 (bb_recipients b) && known_channel (bb_channel b)
  && notEmpty (bb_message b) && optional_iso (bb_sendAt b).

Definition recipients_of (b : BulkBody) : list string :=
  match bb_recipients b with
  | Some l => l
  | None => []
  end.

(** [Promise.all(recipients.map(to => prisma.scheduledNotification.create(...)))]:
    every insert is issued, also after one was refused. *)
Fixpoint create_each (env : RouteEnv) (userId : Z) (b : BulkBody) (t : Time)
  (recipients : list string) : M World (list ScheduledNotification) :=
  match recipients with
  | [] => ret []
  | to :: rest =>
      created <- both (scheduled_create env (Some userId) to (bb_channel b) (bb_message b)
                         (subject_for (bb_channel b) (bb_subject b)) (bb_templateId b) t
                         None)
                      (create_each env userId b t rest) ;;
      ret (fst created :: snd created)
  end.

(** [recipients.map(to => notificationQueue.add(...))] *)
Fixpoint add_each (env : RouteEnv) (userId : Z) (b : BulkBody)
  (recipients : list string) : M World unit :=
  match recipients with
  | [] => ret tt
  | to :: rest =>
      queue_add (queue_error env) "send"
        {| jd_userId := Some userId; jd_to := to; jd_channel := bb_channel b;
           jd_message := bb_message b;
           jd_subject := subject_for (bb_channel b) (bb_subject b);
           jd_templateId := bb_templateId b; jd_campaignId := None;
           jd_metadata := None |} retry_opts ;;
      add_each env userId b rest
  end.

(** [router.post("/bulk", ...)] *)
Definition post_notify_bulk (env : RouteEnv) (userId : Z) (b : BulkBody) : M World Response :=
  if negb (bulk_valid b) then ret (respond 400 JErrors)
  else
    try_catch
      (early <- check_template env userId (bb_templateId b) (bb_channel b)
                  "Invalid template or template not found" ;;
       match early with
       | Some r => ret r
       | None =>
           match truthy_sendAt (bb_sendAt b) with
           | Some sendAt =>
               t <- date_of sendAt ;;
               ns <- create_each env userId b t (recipients_of b) ;;
               ret (respond 202 (JBulkScheduled sendAt (Z.of_nat (List.length ns))
                                   (map sn_id ns)))
           | None =>
               add_each env userId b (recipients_of b) ;;
               ret (respond 202 (JBulkQueued (Z.of_nat (List.length (recipients_of b)))))
           end
       end)
      (fun _error => ret internal_error).

(** [router.delete("/scheduled/:id", ...)]; [notificationId] is
    [parseInt(req.params.id)]. *)
Definition delete_scheduled (env : RouteEnv) (userId : Z) (notificationId : Z)
  : M World Response :=
  try_catch
    (may_reject (store_error env) ;;
     w <- get ;;
     match find (fun n => (sn_id n =? notificationId)
                          && match sn_userId n with
                             | Some u => u =? userId
                             | None => false
                             end
                          && String.eqb (sn_status n) "pending") (scheduled w) with
     | None =>
         ret (respond 404 (JError "Scheduled notification not found or cannot be cancelled"))
     | Some _ =>
         scheduled_update (store_error env) notificationId "cancelled" ;;
         ret (respond 200 (JMessage "Scheduled notification cancelled successfully"))
     end)
    (fun _error => ret internal_error).

(** *** Campaign start (src/unnamed/part_005) *)

(** The loop [for (const recipient of recipients)] of the start handler. *)
Fixpoint queue_recipients (env : RouteEnv) (userId : Z) (campaign : NotificationCampaign)
  (template : option NotificationTemplate) (recipients : list string) : M World unit :=
  match recipients with
  | [] => ret tt
  | recipient :: rest =>
      match template with
      | None => throw "Cannot read properties of null"
      | Some tpl =>
          queue_add (queue_error env) "send"
            {| jd_userId := Some userId; jd_to := recipient;
               jd_channel := c_channel campaign; jd_message := t_content tpl;
               jd_subject := t_subject tpl; jd_templateId := c_templateId campaign;
               jd_campaignId := Some (c_id campaign); jd_metadata := None |} retry_opts
      end ;;
      queue_recipients env userId campaign template rest
  end.

(** [router.post('/:id/start', ...)] *)
Definition post_campaign_start (env : RouteEnv) (userId : Z) (campaignId : Z)
  : M World Response :=
  try_catch
    (may_reject (store_error env) ;;
     w <- get ;;
     match find (fun c => (c_id c =? campaignId) && (c_userId c =? userId)) (campaigns w) with
     | None => ret (respond 404 (JError "Campaign not found"))
     | Some campaign =>
         if negb (String.eqb (c_status campaign) "draft")
            && negb (String.eqb (c_status campaign) "scheduled")
         then ret (respond 400 (JError "Campaign cannot be started in current status"))
         else if negb (truthyZ (c_templateId campaign))
         then ret (respond 400 (JError "Campaign requires a template to start"))
         else
           let template :=
             match c_templateId campaign with
             | Some tid => find (fun t => t_id t =? tid) (templates w)
             | None => None
             end in
           campaign_update (store_error env) campaignId (set_running (req_now env)) ;;
           queue_recipients env userId campaign template (c_recipients campaign) ;;
           ret (respond 200 (JStarted (Z.of_nat (List.length (c_recipients campaign)))))
     end)
    (fun _error => ret internal_error).

(** *** Template send (the templates routes, second file inside
    src/backend/src/services/healthService.ts)

    [render] is what the loop over [variables] does to a template text
    (replacing each placeholder); [templateId] is [parseInt(req.params.id)]. *)

(** [router.post('/:id/send', ...)] *)
Definition post_template_send (env : RouteEnv) (userId templateId : Z) (to : string)
  (sendAt : option SendAt) (render : string -> string) : M World Response :=
  if negb (notEmpty to && optional_iso sendAt) then ret (respond 400 JErrors)
  else
    try_catch
      (may_reject (store_error env) ;;
       w <- get ;;
       match find (fun t => (t_id t =? templateId) && (t_userId t =? userId) && t_isActive t)
                  (templates w) with
       | None => ret (respond 404 (JError "Template not found or inactive"))
       | Some template =>
           let processedContent := render (t_content template) in
           let processedSubject :=
             match t_subject template with
             | Some s => if notEmpty s then Some (render s) else Some s
             | None => None
             end in
           match truthy_sendAt sendAt with
           | Some s =>
               t <- date_of s ;;
               scheduled_create env (Some userId) to (t_channel template) processedContent
                 processedSubject (Some templateId) t None ;;
               ret (respond 202 (JTemplateScheduled s (t_name template)))
           | None =>
               queue_add (queue_error env) "send"
                 {| jd_userId := Some userId; jd_to := to;
                    jd_channel := t_channel template; jd_message := processedContent;
                    jd_subject := processedSubject; jd_templateId := Some templateId;
                    jd_campaignId := None; jd_metadata := None |} retry_opts ;;
               ret (respond 202 (JTemplateQueued (t_name template)))
           end
       end)
      (fun _error => ret internal_error).

(** *** The first notify route (src/backend/src/routes/notify.ts)

    No authentication and no [try]/[catch]: a rejected store or queue call
    leaves the request without a response ([Exn]). *)

Module BasicRoute.

Record NotifyBody := {
  b_to : string;
  b_channel : string;
  b_message : string;
  b_sendAt : option SendAt
}.

Definition notify_valid (b : NotifyBody) : bool :=
  notEmpty (b_to b) && known_channel (b_channel b) && notEmpty (b_message b)
  && optional_iso (b_sendAt b).

Definition post_notify (env : RouteEnv) (b : NotifyBody) : M World Response :=
  if negb (notify_valid b) then ret (respond 400 JErrors)
  else
    match truthy_sendAt (b_sendAt b) with
    | Some sendAt =>
        t <- date_of sendAt ;;
        scheduled_create env None (b_to b) (b_channel b) (b_message b) None None t None ;;
        ret (respond 202 (JScheduled sendAt None))
    | None =>
        queue_add (queue_error env) "send"
          {| jd_userId := None; jd_to := b_to b; jd_channel := b_channel b;
             jd_message := b_message b; jd_subject := None; jd_templateId := None;
             jd_campaignId := None; jd_metadata := None |} retry_opts ;;
        ret (respond 202 JQueued)
    end.

End BasicRoute.

(** ** Executions

    Anything the modelled handlers can do to the world, one handler run at a
    time.  They include every handler under src/ that writes the
    ScheduledNotification table.  Handlers that interleave at their awaits
    are covered by [run_steps] further down. *)

Inductive Event :=
| EvNotify (env : RouteEnv) (userId : Z) (b : NotifyBody)
| EvNotifyBulk (env : RouteEnv) (userId : Z) (b : BulkBody)
| EvNotifyBasic (env : RouteEnv) (b : BasicRoute.NotifyBody)
| EvCancel (env : RouteEnv) (userId : Z) (notificationId : Z)
| EvCampaignStart (env : RouteEnv) (userId : Z) (campaignId : Z)
| EvTemplateSend (env : RouteEnv) (userId templateId : Z) (to : string)
    (sendAt : option SendAt) (render : string -> string)
| EvPromotion (env : SweepEnv)
| EvCompletion (env : CompletionEnv)
| EvCleanup (env : CleanupEnv)
| EvAttempt (env : AttemptEnv) (job : Job)
| EvAttemptBasic (env : AttemptEnv) (job : Job).

Definition step (e : Event) (w : World) : World :=
  match e with
  | EvNotify env u b => snd (post_notify env u b w)
  | EvNotifyBulk env u b => snd (post_notify_bulk env u b w)
  | EvNotifyBasic env b => snd (BasicRoute.post_notify env b w)
  | EvCancel env u id => snd (delete_scheduled env u id w)
  | EvCampaignStart env u id => snd (post_campaign_start env u id w)
  | EvTemplateSend env u tid to sendAt render =>
      snd (post_template_send env u tid to sendAt render w)
  | EvPromotion env => snd (promotion_sweep env w)
  | EvCompletion env => snd (completion_sweep env w)
  | EvCleanup env => snd (cleanup_sweep env w)
  | EvAttempt env job => snd (run_processor env job w)
  | EvAttemptBasic env job => snd (Basic.run_processor env job w)
  end.

Definition run_events (es : list Event) (w : World) : World :=
  fold_left (fun w e => step e w) es w.

(** The ids of the records a promotion sweep would select. *)
Definition due_ids (now : Time) (w : World) : list Z :=
  map sn_id (dueNotifications now (scheduled w)).

(** Primary keys are unique and below the table's counter. *)
Definition scheduled_keys_ok (w : World) : Prop :=
  NoDup (map sn_id (scheduled w)) /\
  forall n, In n (scheduled w) -> sn_id n < nextScheduledId w.

Definition campaign_keys_ok (w : World) : Prop :=
  NoDup (map c_id (campaigns w)).

(** The store answers every call of one promotion sweep (the queue may not). *)
Definition sweep_store_up (env : SweepEnv) : Prop :=
  find_error env = None /\
  (forall id, mark_queued_error env id = None) /\
  (forall id, mark_failed_error env id = None).

Definition completion_store_up (env : CompletionEnv) : Prop :=
  running_find_error env = None /\ forall id, complete_error env id = None.

(** Whether the queue accepts the job of a record. *)
Definition add_accepted (env : SweepEnv) (n : ScheduledNotification) : bool :=
  match add_error env (sn_id n) with
  | None => true
  | Some _ => false
  end.

(** The condition of the completion sweep's [if]. *)
Definition completion_due (w : World) (c : NotificationCampaign) : bool :=
  String.eqb (c_status c) "running"
  && (pendingCount c (scheduled w) =? 0)
  && (c_successCount c + c_failureCount c >=? c_totalRecipients c).

(** ** Concrete inputs used by the examples below *)

Definition empty_world : World :=
  {| campaigns := []; scheduled := []; logs := []; templates := [];
     queue := []; sent := []; nextScheduledId := 1 |}.

Definition welcome_template : NotificationTemplate :=
  {| t_id := 5; t_userId := 7; t_name := "welcome"; t_channel := "email";
     t_subject := Some "Welcome"; t_content := "hi"; t_isActive := true |}.

(** A draft campaign with a single recipient, owned by user 7. *)
Definition solo_campaign : NotificationCampaign :=
  {| c_id := 1; c_userId := 7; c_name := "promo"; c_templateId := Some 5;
     c_channel := "email"; c_recipients := ["a@x.com"]; c_status := "draft";
     c_startedAt := None; c_completedAt := None; c_totalRecipients := 1;
     c_successCount := 0; c_failureCount := 0 |}.

Definition solo_world : World :=
  {| campaigns := [solo_campaign]; scheduled := []; logs := [];
     templates := [welcome_template]; queue := []; sent := [];
     nextScheduledId := 1 |}.

Definition calm : RouteEnv :=
  {| req_now := 1767225600000; store_error := None; queue_error := None |}.

(** Every outside call of the attempt succeeds. *)
Definition all_up (k : Z) : AttemptEnv :=
  {| now := 1767225700000 + k; sender_error := None; success_update_error := None;
     failure_update_error := None; log_create_error := None;
     db_now := 1767225700001 + k |}.

(** The channel sender rejects; the store is up. *)
Definition sender_down (k : Z) : AttemptEnv :=
  {| now := 1767225700000 + k; sender_error := Some "SMTP connection refused";
     success_update_error := None; failure_update_error := None;
     log_create_error := None; db_now := 1767225700001 + k |}.

(** The store rejects the log insert of the first attempt only. *)
Definition log_down_once (k : Z) : AttemptEnv :=
  {| now := 1767225700000 + k; sender_error := None; success_update_error := None;
     failure_update_error := None;
     log_create_error := if k =? 0 then Some "Connection terminated" else None;
     db_now := 1767225700001 + k |}.

Definition email_data : JobData :=
  {| jd_userId := None; jd_to := "a@x.com"; jd_channel := "email"; jd_message := "hi";
     jd_subject := None; jd_templateId := None; jd_campaignId := None;
     jd_metadata := None |}.

(** The job the notify routes enqueue for
    [{ to: "a@x.com", channel: "email", message: "hi" }]. *)
Definition email_job : QueuedJob :=
  {| q_name := "send"; q_data := email_data; q_opts := retry_opts |}.

(** The same job with the unsupported channel "fax". *)
Definition fax_job : QueuedJob :=
  {| q_name := "send";
     q_data := {| jd_userId := None; jd_to := "a@x.com"; jd_channel := "fax";
                  jd_message := "hi"; jd_subject := None; jd_templateId := None;
                  jd_campaignId := None; jd_metadata := None |};
     q_opts := retry_opts |}.

(** A first attempt of a job of campaign 42. *)
Definition campaign42_job : Job :=
  {| data := {| jd_userId := Some 7; jd_to := "a@x.com"; jd_channel := "email";
                jd_message := "hi"; jd_subject := Some "Welcome";
                jd_templateId := Some 5; jd_campaignId := Some 42;
                jd_metadata := None |};
     opts := retry_opts; attemptsMade := 0 |}.

(** The sender accepts the message, then the store rejects the counter update. *)
Definition counter_down : AttemptEnv :=
  {| now := 1767225700000; sender_error := None;
     success_update_error := Some "Connection terminated";
     failure_update_error := None; log_create_error := None;
     db_now := 1767225700001 |}.

(** A submission whose [sendAt] lies six years before the request. *)
Definition past_submission : NotifyBody :=
  {| b_to := "a@x.com"; b_channel := "email"; b_message := "hi"; b_subject := None;
     b_sendAt := Some (IsoDate "2020-01-01T00:00:00.000Z" 1577836800000);
     b_templateId := None; b_metadata := None |}.

(** The rows after the loop has handled the records whose ids are [ids]. *)
Definition rows_after (env : SweepEnv) (ids : list Z) (rows : list ScheduledNotification)
  : list ScheduledNotification :=
  map (fun m => if existsb (Z.eqb (sn_id m)) ids
                then set_sn_status (if add_accepted env m then "queued" else "failed") m
                else m) rows.

(** Three scheduled records at 12:00:00.000 on 2026-01-01: one due, one for
    the next day, one due whose job the queue will refuse. *)
Definition due_record : ScheduledNotification :=
  {| sn_id := 1; sn_userId := Some 7; sn_to := "a@x.com"; sn_channel := "email";
     sn_message := "hi"; sn_subject := None; sn_templateId := None;
     sn_campaignId := None; sn_sendAt := 1767225000000; sn_status := "pending";
     sn_metadata := None; sn_createdAt := 1767000000000 |}.

Definition future_record : ScheduledNotification :=
  {| sn_id := 2; sn_userId := Some 7; sn_to := "b@x.com"; sn_channel := "sms";
     sn_message := "hi"; sn_subject := None; sn_templateId := None;
     sn_campaignId := None; sn_sendAt := 1767312000000; sn_status := "pending";
     sn_metadata := None; sn_createdAt := 1767000000000 |}.

Definition unlucky_record : ScheduledNotification :=
  {| sn_id := 3; sn_userId := Some 8; sn_to := "c@x.com"; sn_channel := "in-app";
     sn_message := "hi"; sn_subject := None; sn_templateId := None;
     sn_campaignId := None; sn_sendAt := 1767225000000; sn_status := "pending";
     sn_metadata := None; sn_createdAt := 1767000000000 |}.

Definition scheduled_world : World :=
  {| campaigns := []; scheduled := [due_record; future_record; unlucky_record];
     logs := []; templates := []; queue := []; sent := []; nextScheduledId := 4 |}.

(** The store answers; the queue refuses the job of record 3. *)
Definition noon_sweep : SweepEnv :=
  {| sweep_now := 1767225600000; find_error := None;
     add_error := fun id => if id =? 3 then Some "Redis connection lost" else None;
     mark_queued_error := fun _ => None; mark_failed_error := fun _ => None |}.

(** The condition of the completion sweep's [if] on a snapshot row. *)
Definition ready (row : NotificationCampaign * Z) : bool :=
  (snd row =? 0)
  && (c_successCount (fst row) + c_failureCount (fst row) >=? c_totalRecipients (fst row)).

(** The campaign rows after the loop has completed the campaigns [ids]. *)
Definition campaigns_after (now : Time) (ids : list Z) (rows : list NotificationCampaign)
  : list NotificationCampaign :=
  map (fun c => if existsb (Z.eqb (c_id c)) ids then set_completed now c else c) rows.

(** A running campaign whose only recipient has been counted, one with a
    recipient still scheduled, and one whose counters have not caught up. *)
Definition counted_campaign : NotificationCampaign :=
  {| c_id := 1; c_userId := 7; c_name := "promo"; c_templateId := Some 5;
     c_channel := "email"; c_recipients := ["a@x.com"]; c_status := "running";
     c_startedAt := Some 1767225000000; c_completedAt := None; c_totalRecipients := 1;
     c_successCount := 1; c_failureCount := 0 |}.

Definition waiting_campaign : NotificationCampaign :=
  {| c_id := 2; c_userId := 7; c_name := "news"; c_templateId := Some 5;
     c_channel := "email"; c_recipients := ["b@x.com"]; c_status := "running";
     c_startedAt := Some 1767225000000; c_completedAt := None; c_totalRecipients := 1;
     c_successCount := 1; c_failureCount := 0 |}.

Definition lagging_campaign : NotificationCampaign :=
  {| c_id := 3; c_userId := 7; c_name := "sale"; c_templateId := Some 5;
     c_channel := "email"; c_recipients := ["c@x.com"; "d@x.com"]; c_status := "running";
     c_startedAt := Some 1767225000000; c_completedAt := None; c_totalRecipients := 2;
     c_successCount := 1; c_failureCount := 0 |}.

Definition campaigns_world : World :=
  {| campaigns := [counted_campaign; waiting_campaign; lagging_campaign];
     scheduled :=
       [{| sn_id := 1; sn_userId := Some 7; sn_to := "b@x.com"; sn_channel := "email";
           sn_message := "hi"; sn_subject := None; sn_templateId := Some 5;
           sn_campaignId := Some 2; sn_sendAt := 1767225000000; sn_status := "queued";
           sn_metadata := None; sn_createdAt := 1767000000000 |}];
     logs := []; templates := [welcome_template]; queue := []; sent := [];
     nextScheduledId := 2 |}.

Definition noon_completion : CompletionEnv :=
  {| completion_now := 1767225600000; running_find_error := None;
     complete_error := fun _ => None |}.

(** A bulk request with an empty recipients array. *)
Definition empty_bulk : BulkBody :=
  {| bb_recipients := Some []; bb_channel := "email"; bb_message := "hi";
     bb_subject := None; bb_templateId := None; bb_sendAt := None |}.

(** A bulk request with 101 recipients. *)
Definition oversized_bulk : BulkBody :=
  {| bb_recipients := Some (repeat "a@x.com" 101); bb_channel := "email";
     bb_message := "hi"; bb_subject := None; bb_templateId := None;
     bb_sendAt := Some (IsoDate "2026-02-01T00:00:00.000Z" 1769904000000) |}.

(** The same submission as [past_submission], to the first notify route. *)
Definition past_submission_basic : BasicRoute.NotifyBody :=
  {| BasicRoute.b_to := "a@x.com"; BasicRoute.b_channel := "email";
     BasicRoute.b_message := "hi";
     BasicRoute.b_sendAt := Some (IsoDate "2020-01-01T00:00:00.000Z" 1577836800000) |}.

(** What the processor's [let] variables hold when the [finally] block runs
    after a failure with message [msg] before any delivery. *)
Definition failed_frame (w : World) (msg : string) : Frame :=
  {| fw := w; status := "failed"; error := Some msg; deliveredAt := None |}.

(** The same environment with another answer to the log insert. *)
Definition with_log_error (e : option string) (env : AttemptEnv) : AttemptEnv :=
  {| now := now env; sender_error := sender_error env;
     success_update_error := success_update_error env;
     failure_update_error := failure_update_error env;
     log_create_error := e; db_now := db_now env |}.

(** The sender rejects the first attempt and accepts the second. *)
Definition flaky (k : Z) : AttemptEnv :=
  if k =? 0 then sender_down k else all_up k.

(** [solo_campaign] started: running, its one job in the queue. *)
Definition solo_started : World := snd (post_campaign_start calm 7 1 solo_world).

(** Campaign 42, running, one recipient not yet counted. *)
Definition campaign42_world : World :=
  {| campaigns :=
       [{| c_id := 42; c_userId := 7; c_name := "launch"; c_templateId := Some 5;
           c_channel := "email"; c_recipients := ["a@x.com"]; c_status := "running";
           c_startedAt := Some 1767225000000; c_completedAt := None;
           c_totalRecipients := 1; c_successCount := 0; c_failureCount := 0 |}];
     scheduled := []; logs := []; templates := [welcome_template]; queue := [];
     sent := []; nextScheduledId := 1 |}.

(** A draft campaign with two recipients, in a world of its own. *)
Definition duo_world : World :=
  {| campaigns :=
       [{| c_id := 1; c_userId := 7; c_name := "promo"; c_templateId := Some 5;
           c_channel := "email"; c_recipients := ["a@x.com"; "b@x.com"];
           c_status := "draft"; c_startedAt := None; c_completedAt := None;
           c_totalRecipients := 2; c_successCount := 0; c_failureCount := 0 |}];
     scheduled := []; logs := []; templates := [welcome_template]; queue := [];
     sent := []; nextScheduledId := 1 |}.

(** [duo_world] after the campaign was started and the job of its first
    recipient has failed on all its attempts; the job of the second recipient
    is still waiting in the queue. *)
Definition duo_half_done : World :=
  let started := snd (post_campaign_start calm 7 1 duo_world) in
  match queue started with
  | first :: _ => snd (run_job run_processor sender_down first started)
  | [] => started
  end.

(** A bulk request with two recipients and no [sendAt]. *)
Definition pair_bulk : BulkBody :=
  {| bb_recipients := Some ["a@x.com"; "b@x.com"]; bb_channel := "email";
     bb_message := "hi"; bb_subject := None; bb_templateId := None;
     bb_sendAt := None |}.

(** The scenario submission: no [sendAt]. *)
Definition plain_submission : NotifyBody :=
  {| b_to := "a@x.com"; b_channel := "email"; b_message := "hi"; b_subject := None;
     b_sendAt := None; b_templateId := None; b_metadata := None |}.

(** [scheduled_world] after the noon sweep: record 1 is queued. *)
Definition swept_world : World := snd (promotion_sweep noon_sweep scheduled_world).

(** ** More of the campaign routes (src/unnamed/part_005) *)

Definition set_paused (c : NotificationCampaign) : NotificationCampaign :=
  {| c_id := c_id c; c_userId := c_userId c; c_name := c_name c;
     c_templateId := c_templateId c; c_channel := c_channel c;
     c_recipients := c_recipients c; c_status := "paused";
     c_startedAt := c_startedAt c; c_completedAt := c_completedAt c;
     c_totalRecipients := c_totalRecipients c;
     c_successCount := c_successCount c;
     c_failureCount := c_failureCount c |}.

(** [router.post('/:id/pause', ...)] *)
Definition post_campaign_pause (env : RouteEnv) (userId : Z) (campaignId : Z)
  : M World Response :=
  try_catch
    (may_reject (store_error env) ;;
     w <- get ;;
     match find (fun c => (c_id c =? campaignId) && (c_userId c =? userId)) (campaigns w) with
     | None => ret (respond 404 (JError "Campaign not found"))
     | Some campaign =>
         if negb (String.eqb (c_status campaign) "running")
         then ret (respond 400 (JError "Only running campaigns can be paused"))
         else
           campaign_update (store_error env) campaignId set_paused ;;
           ret (respond 200 (JMessage "Campaign paused successfully"))
     end)
    (fun _error => ret internal_error).

(** The foreign keys of NotificationLog.campaignId and
    ScheduledNotification.campaignId are declared ON DELETE SET NULL
    (prisma/migrations/.../migration.sql). *)
Definition unlink_log (id : Z) (l : NotificationLog) : NotificationLog :=
  {| log_userId := log_userId l; log_to := log_to l; log_channel := log_channel l;
     log_message := log_message l; log_subject := log_subject l;
     log_templateId := log_templateId l;
     log_campaignId := match log_campaignId l with
                       | Some c => if c =? id then None else Some c
                       | None => None
                       end;
     log_status := log_status l; log_error := log_error l;
     log_attempt := log_attempt l; log_metadata := log_metadata l;
     log_deliveredAt := log_deliveredAt l; log_createdAt := log_createdAt l |}.

Definition unlink_scheduled (id : Z) (n : ScheduledNotification) : ScheduledNotification :=
  {| sn_id := sn_id n; sn_userId := sn_userId n; sn_to := sn_to n;
     sn_channel := sn_channel n; sn_message := sn_message n;
     sn_subject := sn_subject n; sn_templateId := sn_templateId n;
     sn_campaignId := match sn_campaignId n with
                      | Some c => if c =? id then None else Some c
                      | None => None
                      end;
     sn_sendAt := sn_sendAt n; sn_status := sn_status n;
     sn_metadata := sn_metadata n; sn_createdAt := sn_createdAt n |}.

(** [prisma.notificationCampaign.delete({ where: { id } })] *)
Definition campaign_delete (err : option string) (id : Z) : M World unit :=
  may_reject err ;;
  w <- get ;;
  match find_campaign id (campaigns w) with
  | None => throw "Record to delete does not exist."
  | Some _ =>
      modify (fun w =>
        with_logs (map (unlink_log id) (logs w))
          (with_scheduled (map (unlink_scheduled id) (scheduled w))
             (with_campaigns (filter (fun c => negb (c_id c =? id)) (campaigns w)) w)))
  end.

(** [router.delete('/:id', ...)] *)
Definition delete_campaign (env : RouteEnv) (userId : Z) (campaignId : Z)
  : M World Response :=
  try_catch
    (may_reject (store_error env) ;;
     w <- get ;;
     match find (fun c => (c_id c =? campaignId) && (c_userId c =? userId)) (campaigns w) with
     | None => ret (respond 404 (JError "Campaign not found"))
     | Some campaign =>
         if negb (String.eqb (c_status campaign) "draft")
         then ret (respond 400 (JError "Only draft campaigns can be deleted"))
         else
           campaign_delete (store_error env) campaignId ;;
           ret (respond 200 (JMessage "Campaign deleted successfully"))
     end)
    (fun _error => ret internal_error).

(** ** Executions, with the campaign routes above *)

Inductive Action :=
| ActEvent (e : Event)
| ActPause (env : RouteEnv) (userId : Z) (campaignId : Z)
| ActDeleteCampaign (env : RouteEnv) (userId : Z) (campaignId : Z).

Definition act (a : Action) (w : World) : World :=
  match a with
  | ActEvent e => step e w
  | ActPause env u id => snd (post_campaign_pause env u id w)
  | ActDeleteCampaign env u id => snd (delete_campaign env u id w)
  end.

Definition run_actions (acts : list Action) (w : World) : World :=
  fold_left (fun w a => act a w) acts w.

(** A computation that respects a relation [R] between the world before and
    the world after. *)
Definition Keeps {S A} (R : World -> World -> Prop) (proj : S -> World) (m : M S A) : Prop :=
  forall s, R (proj s) (proj (snd (m s))).

(** The statuses a handler ever gives a scheduled notification. *)
Definition written_status (st : string) : bool :=
  status_in st ["pending"; "queued"; "failed"; "cancelled"].

(** A scheduled notification as the handlers leave them: tied to no
    campaign, in one of the four statuses that are ever written. *)
Definition plain_record (n : ScheduledNotification) : Prop :=
  sn_campaignId n = None /\ written_status (sn_status n) = true.

(** Primary keys of both tables stay well-formed from [w] to [w']. *)
Definition keys_kept (w w' : World) : Prop :=
  (scheduled_keys_ok w -> scheduled_keys_ok w')
  /\ (campaign_keys_ok w -> campaign_keys_ok w').

(** Scheduled notifications stay as [plain_record] describes. *)
Definition plain_kept (w w' : World) : Prop :=
  (forall m, In m (scheduled w) -> plain_record m) ->
  (forall m, In m (scheduled w') -> plain_record m).

(** A short history: a scheduled submission, a sweep, a cancel, a campaign
    started, paused and (vainly) deleted, a worker attempt, the cleanup. *)
Definition busy_day : list Action :=
  [ ActEvent (EvNotify calm 7 past_submission);
    ActEvent (EvPromotion noon_sweep);
    ActEvent (EvCancel calm 7 2);
    ActEvent (EvCampaignStart calm 7 1);
    ActPause calm 7 1;
    ActDeleteCampaign calm 7 1;
    ActEvent (EvAttempt (all_up 0) campaign42_job);
    ActEvent (EvCleanup {| thirtyDaysAgo := 1767225600000; logs_delete_error := None;
                           scheduled_delete_error := None |}) ].

(** [scheduled_world] with the draft [solo_campaign] and its template. *)
Definition mixed_world : World :=
  {| campaigns := [solo_campaign]; scheduled := scheduled scheduled_world; logs := [];
     templates := [welcome_template]; queue := []; sent := []; nextScheduledId := 4 |}.

(** What a promotion sweep over the records [ids] may have done to a row. *)
Definition touched_by_sweep (ids : list Z) (m m' : ScheduledNotification) : Prop :=
  m' = m \/
  (In (sn_id m) ids /\
   (m' = set_sn_status "queued" m \/ m' = set_sn_status "failed" m)).

(** What a completion sweep choosing the campaigns [ids] may have done to a
    row. *)
Definition touched_by_completion (now : Time) (ids : list Z)
  (c c' : NotificationCampaign) : Prop :=
  c' = c \/ (In (c_id c) ids /\ c' = set_completed now c).

(** The job a promotion sweep adds for a record. *)
Definition promoted_job (n : ScheduledNotification) : QueuedJob :=
  {| q_name := "send"; q_data := job_of_scheduled n; q_opts := retry_opts |}.

(** The store refuses every write of the sweep; reads and the queue work. *)
Definition writes_down (now : Time) : SweepEnv :=
  {| sweep_now := now; find_error := None; add_error := fun _ => None;
     mark_queued_error := fun _ => Some "Connection terminated";
     mark_failed_error := fun _ => Some "Connection terminated" |}.

(** Everything answers. *)
Definition healthy_sweep (now : Time) : SweepEnv :=
  {| sweep_now := now; find_error := None; add_error := fun _ => None;
     mark_queued_error := fun _ => None; mark_failed_error := fun _ => None |}.

(** The queue takes the job, the update to "queued" is refused, the update
    to "failed" goes through. *)
Definition queued_write_down (now : Time) : SweepEnv :=
  {| sweep_now := now; find_error := None; add_error := fun _ => None;
     mark_queued_error := fun _ => Some "Connection terminated";
     mark_failed_error := fun _ => None |}.

(** A store with an old delivered log, an old pending log, a recent failed
    log, and old scheduled records in every status. *)
Definition old_log (st : string) (created : Time) : NotificationLog :=
  {| log_userId := Some 7; log_to := "a@x.com"; log_channel := "email";
     log_message := "hi"; log_subject := None; log_templateId := None;
     log_campaignId := None; log_status := st; log_error := None; log_attempt := 1;
     log_metadata := None; log_deliveredAt := None; log_createdAt := created |}.

Definition old_record (id : Z) (st : string) (created : Time) : ScheduledNotification :=
  {| sn_id := id; sn_userId := Some 7; sn_to := "a@x.com"; sn_channel := "email";
     sn_message := "hi"; sn_subject := None; sn_templateId := None;
     sn_campaignId := None; sn_sendAt := created; sn_status := st;
     sn_metadata := None; sn_createdAt := created |}.

Definition attic_world : World :=
  {| campaigns := [];
     scheduled := [old_record 1 "pending" 1000; old_record 2 "queued" 1000;
                   old_record 3 "cancelled" 1000; old_record 4 "failed" 1000;
                   old_record 5 "failed" 1767225600000];
     logs := [old_log "success" 1000; old_log "pending" 1000;
              old_log "failed" 1767225600000];
     templates := []; queue := []; sent := []; nextScheduledId := 6 |}.

Definition spring_cleaning : CleanupEnv :=
  {| thirtyDaysAgo := 1764633600000; logs_delete_error := None;
     scheduled_delete_error := None |}.

(** An environment in which the queue refuses everything; used to name the
    rows a sweep marks failed. *)
Definition refusing (env : SweepEnv) : SweepEnv :=
  {| sweep_now := sweep_now env; find_error := find_error env;
     add_error := fun _ => Some "refused";
     mark_queued_error := mark_queued_error env;
     mark_failed_error := mark_failed_error env |}.

(** Only the scheduled table and the queue may differ. *)
Definition same_outside_sweep (w w' : World) : Prop :=
  campaigns w' = campaigns w /\ logs w' = logs w /\ templates w' = templates w
  /\ sent w' = sent w /\ nextScheduledId w' = nextScheduledId w.

(** Only the campaign table may differ. *)
Definition same_outside_completion (w w' : World) : Prop :=
  scheduled w' = scheduled w /\ logs w' = logs w /\ templates w' = templates w
  /\ queue w' = queue w /\ sent w' = sent w
  /\ nextScheduledId w' = nextScheduledId w.

(** The store refuses the update of every campaign but the first. *)
Definition first_only : CompletionEnv :=
  {| completion_now := 1767225600000; running_find_error := None;
     complete_error := fun id => if id =? 1 then None else Some "Connection terminated" |}.

(** ** Starting a campaign (src/unnamed/part_005) *)

(** The job the start handler adds for one recipient. *)
Definition campaign_job (userId : Z) (campaign : NotificationCampaign)
  (tpl : NotificationTemplate) (recipient : string) : QueuedJob :=
  {| q_name := "send";
     q_data := {| jd_userId := Some userId; jd_to := recipient;
                  jd_channel := c_channel campaign; jd_message := t_content tpl;
                  jd_subject := t_subject tpl; jd_templateId := c_templateId campaign;
                  jd_campaignId := Some (c_id campaign); jd_metadata := None |};
     q_opts := retry_opts |}.

(** [campaign.status] is one of the two the start handler lets through. *)
Definition startable (c : NotificationCampaign) : bool :=
  String.eqb (c_status c) "draft" || String.eqb (c_status c) "scheduled".


(** The queue is down during the request; the store answers. *)
Definition queue_down : RouteEnv :=
  {| req_now := 1767225600000; store_error := None;
     queue_error := Some "Connection is closed." |}.


(** The status code of a handler's outcome, when it responded. *)
Definition code_of (r : Result Response) : option Z :=
  match r with
  | Val resp => Some (code resp)
  | Exn _ => None
  end.

(** ** One attempt of the worker, seen from outside (src/unnamed/part_009) *)

(** The sender invocation the channel chain makes for a job, if any. *)
Definition sender_call (d : JobData) : option SendCall :=
  if String.eqb (jd_channel d) "email" then
    Some (SendEmail (jd_to d) (jd_message d) (jd_subject d))
  else if String.eqb (jd_channel d) "sms" then
    Some (SendSMS (jd_to d) (jd_message d))
  else if String.eqb (jd_channel d) "in-app" then
    Some (SendInApp
            match jd_userId d with
            | Some u => if truthyZ (Some u) then "user_" ++ show_Z u else jd_to d
            | None => jd_to d
            end
            (jd_message d))
  else None.


(** ** Bulk submission (src/unnamed/part_004) *)

(** The job the bulk handler adds for one recipient. *)
Definition bulk_job (userId : Z) (b : BulkBody) (to : string) : QueuedJob :=
  {| q_name := "send";
     q_data := {| jd_userId := Some userId; jd_to := to; jd_channel := bb_channel b;
                  jd_message := bb_message b;
                  jd_subject := subject_for (bb_channel b) (bb_subject b);
                  jd_templateId := bb_templateId b; jd_campaignId := None;
                  jd_metadata := None |};
     q_opts := retry_opts |}.

(** What the bulk handler stores for recipient [to] under the id [id]: a
    pending record of the caller for the instant [t]. *)
Definition bulk_record_for (userId : Z) (b : BulkBody) (t : Time) (rows : list ScheduledNotification)
  (id : Z) (to : string) : Prop :=
  exists row,
    In row rows /\ sn_id row = id /\ sn_to row = to /\ sn_userId row = Some userId
    /\ sn_channel row = bb_channel b /\ sn_message row = bb_message b
    /\ sn_subject row = subject_for (bb_channel b) (bb_subject b)
    /\ sn_templateId row = bb_templateId b /\ sn_campaignId row = None
    /\ sn_sendAt row = t /\ sn_status row = "pending".

(** [pair_bulk] to be sent on New Year's Day 2027. *)
Definition pair_bulk_later : BulkBody :=
  {| bb_recipients := bb_recipients pair_bulk; bb_channel := bb_channel pair_bulk;
     bb_message := bb_message pair_bulk; bb_subject := bb_subject pair_bulk;
     bb_templateId := bb_templateId pair_bulk;
     bb_sendAt := Some (IsoDate "2027-01-01T00:00:00.000Z" 1798761600000) |}.

(** ** A scheduled submission and its promotion *)

(** The same request body without [sendAt]. *)
Definition send_now (b : NotifyBody) : NotifyBody :=
  {| b_to := b_to b; b_channel := b_channel b; b_message := b_message b;
     b_subject := b_subject b; b_sendAt := None; b_templateId := b_templateId b;
     b_metadata := b_metadata b |}.

(** ** The life cycle of a campaign *)





(** A paused campaign next to a completed one, a running one and a draft. *)
Definition paused_campaign : NotificationCampaign :=
  {| c_id := 4; c_userId := 7; c_name := "spring"; c_templateId := Some 5;
     c_channel := "email"; c_recipients := ["a@x.com"]; c_status := "paused";
     c_startedAt := Some 1767000000000; c_completedAt := None; c_totalRecipients := 1;
     c_successCount := 0; c_failureCount := 0 |}.

Definition shelf_world : World :=
  {| campaigns := [solo_campaign; paused_campaign]; scheduled := []; logs := [];
     templates := [welcome_template]; queue := []; sent := []; nextScheduledId := 1 |}.


(** ** Templates named by a submission *)

(** [tpl] is the caller's own active template [tid]. *)
Definition own_active_template (w : World) (userId tid : Z) (tpl : NotificationTemplate)
  : Prop :=
  In tpl (templates w) /\ t_id tpl = tid /\ t_userId tpl = userId /\ t_isActive tpl = true.

(** A submission by e-mail that names template 5. *)
Definition templated_submission : NotifyBody :=
  {| b_to := "a@x.com"; b_channel := "email"; b_message := "hi"; b_subject := None;
     b_sendAt := None; b_templateId := Some 5; b_metadata := None |}.

Definition templated_bulk : BulkBody :=
  {| bb_recipients := Some ["a@x.com"; "b@x.com"]; bb_channel := "email";
     bb_message := "hi"; bb_subject := None; bb_templateId := Some 5;
     bb_sendAt := None |}.

(** ** Authentication middleware (src/backend/src/middleware/auth.ts and
    [authenticate] in src/unnamed/part_004)

    The middleware reads two request headers and the User table and either
    hands the request on ([next()]) with [req.user] set, or answers itself. *)

Record User := {
  u_id : Z;
  u_email : string;
  u_name : string;
  u_role : string;
  u_isActive : bool;
  u_apiKey : option string
}.

(** [select: { id: true, email: true, role: true, name: true, isActive: true }] *)
Record AuthUser := {
  au_id : Z;
  au_email : string;
  au_role : string;
  au_name : string;
  au_isActive : bool
}.

Definition select_user (u : User) : AuthUser :=
  {| au_id := u_id u; au_email := u_email u; au_role := u_role u;
     au_name := u_name u; au_isActive := u_isActive u |}.

(** [req.headers['authorization']] and [req.headers['x-api-key']]; [None]
    when the header is absent. *)
Record Headers := {
  h_authorization : option string;
  h_x_api_key : option string
}.

(** What one request meets: [jwt.verify(token, JWT_SECRET)] throws ([None])
    or returns the payload, whose [userId] is the number the login and
    register routes signed; [prisma.user.findUnique] may reject. *)
Record AuthEnv := {
  jwt_verify : string -> option Z;
  users_error : option string
}.

Inductive AuthOutcome :=
| Next (user : option AuthUser)          (* [next()], with [req.user] as given *)
| Reply (c : Z) (msg : string).          (* [res.status(c).json({ error: msg })] *)

(** [s.split(' ')] *)
Fixpoint split_space (s : string) : list string :=
  match s with
  | EmptyString => [EmptyString]
  | String c rest =>
      if Ascii.eqb c " "%char then EmptyString :: split_space rest
      else
        match split_space rest with
        | piece :: pieces => String c piece :: pieces
        | [] => [String c EmptyString]
        end
  end.

(** A header value as a condition: absent and empty are falsy. *)
Definition truthy_header (h : option string) : option string :=
  match h with
  | Some s => if notEmpty s then Some s else None
  | None => None
  end.

(** [authHeader && authHeader.split(' ')[1]], when truthy. *)
Definition token_of (authHeader : option string) : option string :=
  match truthy_header authHeader with
  | Some h => truthy_header (nth_error (split_space h) 1)
  | None => None
  end.

(** [findUnique({ where: { id } })] and [findUnique({ where: { apiKey } })] *)
Definition user_by_id (id : Z) (users : list User) : option User :=
  find (fun u => u_id u =? id) users.

Definition user_by_apiKey (key : string) (users : list User) : option User :=
  find (fun u => match u_apiKey u with
                 | Some k => String.eqb k key
                 | None => false
                 end) users.

Definition authenticateToken (env : AuthEnv) (users : list User) (req : Headers)
  : AuthOutcome :=
  match token_of (h_authorization req) with
  | None => Reply 401 "Access token required"
  | Some token =>
      match jwt_verify env token, users_error env with
      | Some userId, None =>
          match user_by_id userId users with
          | Some user =>
              if u_isActive user then Next (Some (select_user user))
              else Reply 401 "Invalid or inactive user"
          | None => Reply 401 "Invalid or inactive user"
          end
      | _, _ => Reply 403 "Invalid token"     (* the [catch] block *)
      end
  end.

Definition authenticateApiKey (env : AuthEnv) (users : list User) (req : Headers)
  : AuthOutcome :=
  match truthy_header (h_x_api_key req) with
  | None => Reply 401 "API key required"
  | Some apiKey =>
      match users_error env with
      | Some _ => Reply 500 "Authentication error"
      | None =>
          match user_by_apiKey apiKey users with
          | Some user =>
              if u_isActive user then Next (Some (select_user user))
              else Reply 401 "Invalid API key"
          | None => Reply 401 "Invalid API key"
          end
      end
  end.

(** The middleware of the notify routes: JWT or API key. *)
Definition authenticate (env : AuthEnv) (users : list User) (req : Headers) : AuthOutcome :=
  match truthy_header (h_authorization req) with
  | Some _ => authenticateToken env users req
  | None =>
      match truthy_header (h_x_api_key req) with
      | Some _ => authenticateApiKey env users req
      | None =>
          Reply 401
            "Authentication required. Provide either Authorization header or x-api-key header."
      end
  end.


(** Two users: an active one holding an API key, and a deactivated one. *)
Definition ada : User :=
  {| u_id := 7; u_email := "ada@x.com"; u_name := "Ada"; u_role := "USER";
     u_isActive := true; u_apiKey := Some "key-7" |}.

Definition bob : User :=
  {| u_id := 8; u_email := "bob@x.com"; u_name := "Bob"; u_role := "USER";
     u_isActive := false; u_apiKey := Some "key-8" |}.

(** Only the token "good" verifies, for user 7; the store answers. *)
Definition one_good_token : AuthEnv :=
  {| jwt_verify := fun t => if String.eqb t "good" then Some 7 else None;
     users_error := None |}.

(** ** The two workers on the jobs of the first route *)

(** The job data the first notify route enqueues for a request body. *)
Definition basic_job_data (b : BasicRoute.NotifyBody) : JobData :=
  {| jd_userId := None; jd_to := BasicRoute.b_to b; jd_channel := BasicRoute.b_channel b;
     jd_message := BasicRoute.b_message b; jd_subject := None; jd_templateId := None;
     jd_campaignId := None; jd_metadata := None |}.

(** A log entry with the two columns the first worker never sets put back
    to their defaults. *)
Definition without_attempt_and_delivery (e : NotificationLog) : NotificationLog :=
  {| log_userId := log_userId e; log_to := log_to e; log_channel := log_channel e;
     log_message := log_message e; log_subject := log_subject e;
     log_templateId := log_templateId e; log_campaignId := log_campaignId e;
     log_status := log_status e; log_error := log_error e; log_attempt := 1;
     log_metadata := log_metadata e; log_deliveredAt := None;
     log_createdAt := log_createdAt e |}.

(** A request to the first route, sent at once. *)
Definition plain_submission_basic : BasicRoute.NotifyBody :=
  {| BasicRoute.b_to := "a@x.com"; BasicRoute.b_channel := "in-app";
     BasicRoute.b_message := "hi"; BasicRoute.b_sendAt := None |}.

(** ** A campaign from start to completion *)






(** Whether the store takes the log insert of an attempt: it answers, and
    the template and the campaign of the job exist. *)
Definition log_accepted (env : AttemptEnv) (job : Job) (w : World) : bool :=
  match log_create_error env with
  | None => refs_known w (jd_templateId (data job)) (jd_campaignId (data job))
  | Some _ => false
  end.

(** ** Interleaved executions

    The handlers are async functions on one event loop: at every [await] of
    one handler another may run, and node-cron starts the every-minute
    callback again whether or not its previous run has returned.  What
    reaches the store, the queue and the senders is one call at a time, so
    an interleaved execution is a sequence of such calls, each with the
    arguments some handler passes.  A status update of a scheduled
    notification writes "queued", "failed" or "cancelled": no handler passes
    another status. *)

Inductive Written := WQueued | WFailed | WCancelled.

Definition written_text (s : Written) : string :=
  match s with
  | WQueued => "queued"
  | WFailed => "failed"
  | WCancelled => "cancelled"
  end.

Inductive Call :=
| CallCampaignUpdate (err : option string) (id : Z)
    (f : NotificationCampaign -> NotificationCampaign)
| CallCampaignDelete (err : option string) (id : Z)
| CallLogCreate (err : option string) (entry : NotificationLog)
| CallSender (err : option string) (c : SendCall)
| CallQueueAdd (err : option string) (name : string) (d : JobData) (o : JobOpts)
| CallScheduledUpdate (err : option string) (id : Z) (st : Written)
| CallScheduledCreate (env : RouteEnv) (userId : option Z) (to channel message : string)
    (subject : option string) (templateId : option Z) (sendAt : Time)
    (metadata : option string)
| CallDeleteLogs (cutoff : Time)
| CallDeleteScheduled (cutoff : Time).

Definition run_call (c : Call) (w : World) : World :=
  match c with
  | CallCampaignUpdate err id f => snd (campaign_update err id f w)
  | CallCampaignDelete err id => snd (campaign_delete err id w)
  | CallLogCreate err entry => snd (log_create err entry w)
  | CallSender err c => snd (call_sender err c w)
  | CallQueueAdd err name d o => snd (queue_add err name d o w)
  | CallScheduledUpdate err id st => snd (scheduled_update err id (written_text st) w)
  | CallScheduledCreate env u to ch msg subj tid t md =>
      snd (scheduled_create env u to ch msg subj tid t md w)
  | CallDeleteLogs cutoff =>
      with_logs
        (filter (fun l => negb ((log_createdAt l <? cutoff)
                                && status_in (log_status l) ["success"; "failed"]))
                (logs w)) w
  | CallDeleteScheduled cutoff =>
      with_scheduled
        (filter (fun n => negb ((sn_createdAt n <? cutoff)
                                && status_in (sn_status n) ["sent"; "failed"; "cancelled"]))
                (scheduled w)) w
  end.

(** A step of an execution: a handler run from its first to its last call,
    or one call of a handler that is under way. *)
Inductive Step :=
| Whole (a : Action)
| Single (c : Call).

Definition run_step (s : Step) (w : World) : World :=
  match s with
  | Whole a => act a w
  | Single c => run_call c w
  end.

Definition run_steps (steps : list Step) (w : World) : World :=
  fold_left (fun w s => run_step s w) steps w.

(** One pending record, due at noon, and the job the sweep is to add for it. *)
Definition lone_world : World :=
  {| campaigns := []; scheduled := [due_record]; logs := []; templates := []; queue := [];
     sent := []; nextScheduledId := 2 |}.

Definition due_job : QueuedJob :=
  {| q_name := "send";
     q_data := {| jd_userId := Some 7; jd_to := "a@x.com"; jd_channel := "email";
                  jd_message := "hi"; jd_subject := None; jd_templateId := None;
                  jd_campaignId := None; jd_metadata := None |};
     q_opts := {| attempts := 3;
                  backoff := {| bo_type := "exponential"; bo_delay := 10000 |} |} |}.

(** * Properties *)

(** ** The scheduled table only moves forward

    [sched_stable w w']: going from [w] to [w'], no existing record returns
    to "pending" and every new record gets an id at or above the counter. *)

Definition sched_stable (w w' : World) : Prop :=
  nextScheduledId w <= nextScheduledId w' /\
  forall m, In m (scheduled w') ->
    (exists m0, In m0 (scheduled w) /\ sn_id m0 = sn_id m /\
                (sn_status m = "pending" -> sn_status m0 = "pending"))
    \/ (nextScheduledId w <= sn_id m < nextScheduledId w').

(** A computation that keeps the scheduled table moving forward, whatever
    state [S] it runs in. *)
Definition Preserves {S A} (proj : S -> World) (m : M S A) : Prop :=
  forall s, sched_stable (proj s) (proj (snd (m s))).

Lemma sched_stable_refl w : sched_stable w w.
Proof.
  split; [lia|]. intros m Hm. left. exists m. auto.
Qed.

Lemma sched_stable_trans w1 w2 w3 :
  sched_stable w1 w2 -> sched_stable w2 w3 -> sched_stable w1 w3.
Proof.
  intros [H1 H1'] [H2 H2']. split; [lia|].
  intros m Hm. destruct (H2' m Hm) as [(m0 & Hin & Hid & Hst) | Hnew].
  - destruct (H1' m0 Hin) as [(m00 & Hin0 & Hid0 & Hst0) | Hnew0].
    + left. exists m00. repeat split; auto; congruence.
    + right. rewrite <- Hid. lia.
  - right. lia.
Qed.

Lemma sched_stable_same w w' :
  scheduled w' = scheduled w -> nextScheduledId w' = nextScheduledId w ->
  sched_stable w w'.
Proof.
  intros Hs Hn. split; [lia|]. intros m Hm. left. exists m.
  rewrite Hs in Hm. auto.
Qed.

Section Combinators.
Context {S : Type} (proj : S -> World).

Lemma pres_ret {A} (a : A) : Preserves proj (ret a).
Proof. intros s. apply sched_stable_refl. Qed.

Lemma pres_throw {A} e : Preserves proj (@throw S A e).
Proof. intros s. apply sched_stable_refl. Qed.

Lemma pres_get : Preserves proj (@get S).
Proof. intros s. apply sched_stable_refl. Qed.

Lemma pres_may_reject e : Preserves proj (@may_reject S e).
Proof. intros s. destruct e; apply sched_stable_refl. Qed.

Lemma pres_modify (f : S -> S) :
  (forall s, sched_stable (proj s) (proj (f s))) -> Preserves proj (modify f).
Proof. intros H s. apply H. Qed.

Lemma pres_bind {A B} (m : M S A) (k : A -> M S B) :
  Preserves proj m -> (forall a, Preserves proj (k a)) -> Preserves proj (bind m k).
Proof.
  intros Hm Hk s. unfold bind. specialize (Hm s).
  destruct (m s) as [[a|e] s']; cbn in *; auto.
  eapply sched_stable_trans; [exact Hm | apply Hk].
Qed.

Lemma pres_both {A B} (m : M S A) (k : M S B) :
  Preserves proj m -> Preserves proj k -> Preserves proj (both m k).
Proof.
  intros Hm Hk s. unfold both. specialize (Hm s).
  destruct (m s) as [r1 s']. specialize (Hk s'). destruct (k s') as [r2 s''].
  cbn in *. eapply sched_stable_trans; [exact Hm | exact Hk].
Qed.

Lemma pres_try_catch {A} (m : M S A) (h : string -> M S A) :
  Preserves proj m -> (forall e, Preserves proj (h e)) -> Preserves proj (try_catch m h).
Proof.
  intros Hm Hh s. unfold try_catch. specialize (Hm s).
  destruct (m s) as [[a|e] s']; cbn in *; auto.
  eapply sched_stable_trans; [exact Hm | apply Hh].
Qed.

Lemma pres_try_finally {A} (m : M S A) (fin : M S unit) :
  Preserves proj m -> Preserves proj fin -> Preserves proj (try_finally m fin).
Proof.
  intros Hm Hf s. unfold try_finally. specialize (Hm s).
  destruct (m s) as [r s']. specialize (Hf s').
  destruct (fin s') as [[u|e] s'']; cbn in *;
    eapply sched_stable_trans; eauto.
Qed.
End Combinators.

Lemma pres_lift {A} (m : M World A) :
  Preserves (fun w => w) m -> Preserves fw (lift m).
Proof.
  intros Hm f. unfold lift. specialize (Hm (fw f)).
  destruct (m (fw f)) as [r w']. exact Hm.
Qed.

(** *** Store, queue and sender calls *)

Lemma pres_campaign_update err id f :
  Preserves (fun w => w) (campaign_update err id f).
Proof.
  unfold campaign_update. apply pres_bind; [apply pres_may_reject|]. intros _.
  apply pres_bind; [apply pres_get|]. intros w0.
  destruct (find_campaign id (campaigns w0)); [|apply pres_throw].
  apply pres_modify. intros w. apply sched_stable_same; reflexivity.
Qed.

Lemma pres_log_create err entry : Preserves (fun w => w) (log_create err entry).
Proof.
  unfold log_create. apply pres_bind; [apply pres_may_reject|]. intros _.
  apply pres_bind; [apply pres_get|]. intros w0.
  destruct (refs_known _ _ _); [|apply pres_throw].
  apply pres_modify. intros w. apply sched_stable_same; reflexivity.
Qed.

Lemma pres_call_sender err c : Preserves (fun w => w) (call_sender err c).
Proof.
  unfold call_sender. apply pres_bind; [|intros; apply pres_may_reject].
  apply pres_modify. intros w. apply sched_stable_same; reflexivity.
Qed.

Lemma pres_queue_add err name d o : Preserves (fun w => w) (queue_add err name d o).
Proof.
  unfold queue_add. apply pres_bind; [apply pres_may_reject|]. intros _.
  apply pres_modify. intros w. apply sched_stable_same; reflexivity.
Qed.

Lemma update_scheduled_row_stable id st w :
  st <> "pending" ->
  sched_stable w (with_scheduled (update_scheduled_row id (set_sn_status st) (scheduled w)) w).
Proof.
  intros Hst. split; [cbn; lia|]. cbn. intros m Hm. left.
  unfold update_scheduled_row in Hm. apply in_map_iff in Hm.
  destruct Hm as (m0 & Hm0 & Hin). exists m0. split; [exact Hin|].
  destruct (sn_id m0 =? id); subst m; cbn; auto.
  split; [reflexivity|]. intros Hp. congruence.
Qed.

Lemma pres_scheduled_update err id st :
  st <> "pending" -> Preserves (fun w => w) (scheduled_update err id st).
Proof.
  intros Hst. unfold scheduled_update.
  apply pres_bind; [apply pres_may_reject|]. intros _.
  apply pres_bind; [apply pres_get|]. intros w0.
  destruct (find _ (scheduled w0)); [|apply pres_throw].
  apply pres_modify. intros w. apply update_scheduled_row_stable. exact Hst.
Qed.

Lemma pres_scheduled_create env u to ch msg subj tid t md :
  Preserves (fun w => w) (scheduled_create env u to ch msg subj tid t md).
Proof.
  intros w. unfold scheduled_create, bind, may_reject, get, modify, ret, throw.
  destruct (store_error env); cbn; [apply sched_stable_refl|].
  destruct (template_known w tid); cbn.
  - split; [cbn; lia|]. cbn. intros m Hm.
    apply in_app_iff in Hm. destruct Hm as [Hm | [Hm | []]].
    + left. exists m. auto.
    + right. subst m. cbn. lia.
  - split; [cbn; lia|]. cbn. intros m Hm. left. exists m. auto.
Qed.

(** *** Handlers *)

Ltac pres_step :=
  first
    [ apply pres_ret | apply pres_throw | apply pres_get | apply pres_may_reject
    | apply pres_campaign_update | apply pres_log_create | apply pres_call_sender
    | apply pres_queue_add | apply pres_scheduled_create
    | apply pres_scheduled_update; discriminate
    | apply pres_lift
    | apply pres_bind; [|intro]
    | apply pres_both
    | apply pres_try_catch; [|intro]
    | apply pres_try_finally
    | match goal with
      | |- Preserves _ (match ?x with _ => _ end) => destruct x
      | |- Preserves _ (if ?b then _ else _) => destruct b
      end ].

Ltac pres := repeat pres_step.

Lemma pres_check_template env u tid ch msg :
  Preserves (fun w => w) (check_template env u tid ch msg).
Proof. unfold check_template. pres. Qed.

Lemma pres_date_of s : Preserves (fun w => w) (date_of s).
Proof. unfold date_of. pres. Qed.

Lemma pres_create_each env u b t l :
  Preserves (fun w => w) (create_each env u b t l).
Proof. induction l; cbn [create_each]; pres. exact IHl. Qed.

Lemma pres_add_each env u b l : Preserves (fun w => w) (add_each env u b l).
Proof. induction l; cbn [add_each]; pres. exact IHl. Qed.

Lemma pres_queue_recipients env u c tpl l :
  Preserves (fun w => w) (queue_recipients env u c tpl l).
Proof. induction l; cbn [queue_recipients]; pres; exact IHl. Qed.

Lemma pres_promote_each env l : Preserves (fun w => w) (promote_each env l).
Proof. induction l; cbn [promote_each]; [pres|]. unfold promote_one. pres. exact IHl. Qed.

Lemma pres_complete_each env l : Preserves (fun w => w) (complete_each env l).
Proof.
  induction l as [|[c p] l IH]; cbn [complete_each]; [pres|].
  unfold campaign_update_completed. pres; exact IH.
Qed.

Lemma pres_post_notify env u b : Preserves (fun w => w) (post_notify env u b).
Proof.
  unfold post_notify. pres; try apply pres_check_template; try apply pres_date_of.
Qed.

Lemma pres_post_notify_bulk env u b : Preserves (fun w => w) (post_notify_bulk env u b).
Proof.
  unfold post_notify_bulk.
  pres; try apply pres_check_template; try apply pres_date_of;
    try apply pres_create_each; try apply pres_add_each.
Qed.

Lemma pres_post_notify_basic env b : Preserves (fun w => w) (BasicRoute.post_notify env b).
Proof. unfold BasicRoute.post_notify. pres; apply pres_date_of. Qed.

Lemma pres_delete_scheduled env u id : Preserves (fun w => w) (delete_scheduled env u id).
Proof. unfold delete_scheduled. pres. Qed.

Lemma pres_post_campaign_start env u id :
  Preserves (fun w => w) (post_campaign_start env u id).
Proof. unfold post_campaign_start. pres; apply pres_queue_recipients. Qed.

Lemma pres_post_template_send env u tid to sendAt render :
  Preserves (fun w => w) (post_template_send env u tid to sendAt render).
Proof. unfold post_template_send. pres; apply pres_date_of. Qed.

Lemma pres_promotion_sweep env : Preserves (fun w => w) (promotion_sweep env).
Proof. unfold promotion_sweep. pres. apply pres_promote_each. Qed.

Lemma pres_completion_sweep env : Preserves (fun w => w) (completion_sweep env).
Proof. unfold completion_sweep. pres. apply pres_complete_each. Qed.

Lemma pres_cleanup_sweep env : Preserves (fun w => w) (cleanup_sweep env).
Proof.
  unfold cleanup_sweep. pres.
  all: apply pres_modify; intros w; split; [cbn; lia|]; cbn; intros m Hm.
  all: left; exists m; try apply filter_In in Hm; tauto.
Qed.

Lemma pres_when_campaign {S} (proj : S -> World) o (k : Z -> M S unit) :
  (forall id, Preserves proj (k id)) -> Preserves proj (when_campaign o k).
Proof. intros Hk. unfold when_campaign. pres. apply Hk. Qed.

Lemma pres_frame_modify (g : Frame -> Frame) :
  (forall f, fw (g f) = fw f) -> Preserves fw (modify g).
Proof.
  intros Hg. apply pres_modify. intros f. rewrite Hg. apply sched_stable_refl.
Qed.

Lemma pres_dispatch env d : Preserves (fun w => w) (dispatch env d).
Proof. unfold dispatch. pres. Qed.

Lemma pres_dispatch_basic env d : Preserves (fun w => w) (Basic.dispatch env d).
Proof. unfold Basic.dispatch. pres. Qed.

Lemma pres_processor env job : Preserves fw (processor env job).
Proof.
  unfold processor.
  repeat first
    [ apply pres_frame_modify; reflexivity
    | apply pres_when_campaign; intro
    | apply pres_dispatch
    | pres_step ].
Qed.

Lemma pres_processor_basic env job : Preserves fw (Basic.processor env job).
Proof.
  unfold Basic.processor.
  repeat first
    [ apply pres_frame_modify; reflexivity
    | apply pres_dispatch_basic
    | pres_step ].
Qed.

Lemma step_stable e w : sched_stable w (step e w).
Proof.
  destruct e; cbn [step].
  - apply (pres_post_notify env userId b w).
  - apply (pres_post_notify_bulk env userId b w).
  - apply (pres_post_notify_basic env b w).
  - apply (pres_delete_scheduled env userId notificationId w).
  - apply (pres_post_campaign_start env userId campaignId w).
  - apply (pres_post_template_send env userId templateId to sendAt render w).
  - apply (pres_promotion_sweep env w).
  - apply (pres_completion_sweep env w).
  - apply (pres_cleanup_sweep env w).
  - unfold run_processor. pose proof (pres_processor env job (init_frame w)) as H.
    destruct (processor env job (init_frame w)). exact H.
  - unfold Basic.run_processor.
    pose proof (pres_processor_basic env job (init_frame w)) as H.
    destruct (Basic.processor env job (init_frame w)). exact H.
Qed.

Lemma run_events_stable es : forall w, sched_stable w (run_events es w).
Proof.
  induction es as [|e es IH]; intros w; cbn.
  - apply sched_stable_refl.
  - eapply sched_stable_trans; [apply step_stable | apply IH].
Qed.

(** Records that have left "pending" are never due again, whatever happens
    in between. *)
Lemma never_due_again (ids : list Z) (w : World) :
  (forall m, In m (scheduled w) -> In (sn_id m) ids -> sn_status m <> "pending") ->
  (forall id, In id ids -> id < nextScheduledId w) ->
  forall es now id, In id ids -> ~ In id (due_ids now (run_events es w)).
Proof.
  intros Hleft Hbelow es now id Hid Hdue.
  unfold due_ids in Hdue. apply in_map_iff in Hdue.
  destruct Hdue as (m & Hm & Hin). unfold dueNotifications in Hin.
  apply filter_In in Hin. destruct Hin as [Hin Hd].
  unfold is_due in Hd. apply andb_true_iff in Hd. destruct Hd as [_ Hp].
  apply String.eqb_eq in Hp.
  destruct (run_events_stable es w) as [_ Hst].
  destruct (Hst m Hin) as [(m0 & Hin0 & Hid0 & Hp0) | Hnew].
  - apply (Hleft m0 Hin0); [congruence | auto].
  - specialize (Hbelow id Hid). lia.
Qed.

(** ** Promotion sweep *)

Lemma set_sn_status_id st n : sn_id (set_sn_status st n) = sn_id n.
Proof. reflexivity. Qed.

Lemma update_scheduled_row_ids id f rows :
  (forall n, sn_id (f n) = sn_id n) ->
  map sn_id (update_scheduled_row id f rows) = map sn_id rows.
Proof.
  intros Hf. unfold update_scheduled_row. rewrite map_map.
  apply map_ext. intros n. destruct (sn_id n =? id); auto.
Qed.

Lemma find_by_id_some id rows :
  In id (map sn_id rows) -> find (fun n => sn_id n =? id) rows <> None.
Proof.
  intros Hin Hnone. apply in_map_iff in Hin. destruct Hin as (n & Hid & Hn).
  apply (find_none _ _ Hnone) in Hn. cbn in Hn. lia.
Qed.

Lemma same_key_same_row {A} (key : A -> Z) (rows : list A) a b :
  NoDup (map key rows) -> In a rows -> In b rows -> key a = key b -> a = b.
Proof.
  induction rows as [|r rows IH]; intros Hnd Ha Hb Hk; [contradiction|].
  cbn in Hnd. inversion Hnd as [|? ? Hnotin Hnd']; subst.
  destruct Ha as [Ha|Ha], Hb as [Hb|Hb]; subst; auto.
  - exfalso. apply Hnotin. rewrite Hk. apply in_map. exact Hb.
  - exfalso. apply Hnotin. rewrite <- Hk. apply in_map. exact Ha.
Qed.

(** One iteration of the loop when the store answers. *)
Lemma promote_one_up env n w :
  mark_queued_error env (sn_id n) = None ->
  mark_failed_error env (sn_id n) = None ->
  In (sn_id n) (map sn_id (scheduled w)) ->
  promote_one env n w =
    (Val tt,
     with_scheduled
       (update_scheduled_row (sn_id n)
          (set_sn_status (if add_accepted env n then "queued" else "failed"))
          (scheduled w))
       (if add_accepted env n
        then with_queue (queue w ++ [{| q_name := "send"; q_data := job_of_scheduled n;
                                        q_opts := retry_opts |}]) w
        else w)).
Proof.
  intros Hq Hf Hin. apply find_by_id_some in Hin.
  unfold promote_one, try_catch, bind, queue_add, scheduled_update, add_accepted,
    may_reject, get, modify, ret, throw.
  rewrite Hq, Hf.
  destruct (add_error env (sn_id n)); cbn;
    destruct (find (fun n0 => sn_id n0 =? sn_id n) (scheduled w));
    cbn; solve [reflexivity | congruence].
Qed.

Lemma rows_after_cons env n ids rows :
  rows_after env ids
    (update_scheduled_row (sn_id n)
       (set_sn_status (if add_accepted env n then "queued" else "failed")) rows)
  = rows_after env (sn_id n :: ids) rows.
Proof.
  unfold rows_after, update_scheduled_row. rewrite map_map. apply map_ext.
  intros m. cbn [existsb]. destruct (Z.eqb_spec (sn_id m) (sn_id n)) as [Heq|Hne].
  - cbn [orb]. unfold add_accepted. cbn [set_sn_status sn_id]. rewrite Heq.
    destruct (existsb _ ids); reflexivity.
  - cbn [orb]. reflexivity.
Qed.

Lemma promote_each_up env : forall l w,
  (forall id, mark_queued_error env id = None) ->
  (forall id, mark_failed_error env id = None) ->
  incl (map sn_id l) (map sn_id (scheduled w)) ->
  promote_each env l w =
    (Val tt,
     with_scheduled (rows_after env (map sn_id l) (scheduled w))
       (with_queue
          (queue w ++ map (fun n => {| q_name := "send"; q_data := job_of_scheduled n;
                                       q_opts := retry_opts |})
                          (filter (add_accepted env) l)) w)).
Proof.
  induction l as [|n l IH]; intros w Hq Hf Hincl.
  - cbn. unfold ret, rows_after. cbn. rewrite app_nil_r, map_id.
    destruct w; reflexivity.
  - cbn [promote_each]. unfold bind at 1.
    rewrite promote_one_up; auto; [|apply Hincl; left; reflexivity].
    rewrite IH; auto.
    + f_equal. cbn [scheduled with_scheduled queue with_queue map filter].
      rewrite rows_after_cons.
      destruct (add_accepted env n); cbn; [rewrite <- app_assoc|]; reflexivity.
    + cbn [scheduled with_scheduled].
      rewrite update_scheduled_row_ids by reflexivity.
      intros id Hid. apply Hincl. right. exact Hid.
Qed.

Lemma rows_after_due env now rows :
  NoDup (map sn_id rows) ->
  rows_after env (map sn_id (dueNotifications now rows)) rows =
  map (fun n => if is_due now n
                then set_sn_status (if add_accepted env n then "queued" else "failed") n
                else n) rows.
Proof.
  intros Hnd. unfold rows_after. apply map_ext_in. intros m Hm.
  destruct (is_due now m) eqn:Hd.
  - assert (H : existsb (Z.eqb (sn_id m)) (map sn_id (dueNotifications now rows)) = true).
    { apply existsb_exists. exists (sn_id m). split; [|lia].
      apply in_map. apply filter_In. auto. }
    rewrite H. reflexivity.
  - destruct (existsb _ _) eqn:He; [|reflexivity].
    apply existsb_exists in He. destruct He as (id & Hin & Heq).
    apply in_map_iff in Hin. destruct Hin as (n & Hid & Hn).
    apply filter_In in Hn. destruct Hn as [Hn Hdn].
    assert (n = m) by (apply (same_key_same_row sn_id rows); auto; lia).
    subst n. congruence.
Qed.

Lemma is_due_iff now n :
  is_due now n = true <-> sn_status n = "pending" /\ sn_sendAt n <= now.
Proof.
  unfold is_due. rewrite andb_true_iff, String.eqb_eq, Z.leb_le. tauto.
Qed.

Lemma promotion_sweep_up env w :
  sweep_store_up env ->
  NoDup (map sn_id (scheduled w)) ->
  promotion_sweep env w =
    (Val tt,
     with_scheduled
       (map (fun n => if is_due (sweep_now env) n
                      then set_sn_status (if add_accepted env n then "queued" else "failed") n
                      else n) (scheduled w))
       (with_queue
          (queue w ++ map (fun n => {| q_name := "send"; q_data := job_of_scheduled n;
                                       q_opts := retry_opts |})
                          (filter (add_accepted env)
                                  (dueNotifications (sweep_now env) (scheduled w)))) w)).
Proof.
  intros (Hfind & Hq & Hf) Hnd.
  unfold promotion_sweep, try_catch, bind at 1, may_reject. rewrite Hfind.
  unfold ret at 1, bind at 1, get.
  rewrite promote_each_up; auto.
  - rewrite rows_after_due by exact Hnd. reflexivity.
  - intros id Hid. apply in_map_iff in Hid. destruct Hid as (n & Hid & Hn).
    apply filter_In in Hn. subst id. apply in_map. tauto.
Qed.

(** When the store answers every call of a sweep and no other handler
    writes while it runs: the sweep selects exactly the pending records whose
    sendAt is at or before now; for each of them it adds a job with the
    record's fields, 3 attempts and exponential backoff of 10 s, and moves
    the record from pending to queued, or to failed when the queue refuses
    the job; and a record it selected is not selected again by a later
    sweep, whatever handlers run in between.  (Primary keys unique; the
    query taken to return the rows in table order.) *)
Theorem promotion_sweep_promotes_due_once (env : SweepEnv) (w : World) :
  sweep_store_up env ->
  scheduled_keys_ok w ->
  let due := dueNotifications (sweep_now env) (scheduled w) in
  let w' := snd (promotion_sweep env w) in
  (forall n, In n due <->
             In n (scheduled w) /\ sn_status n = "pending" /\ sn_sendAt n <= sweep_now env)
  /\ promotion_sweep env w =
       (Val tt,
        with_scheduled
          (map (fun n => if is_due (sweep_now env) n
                         then set_sn_status
                                (if add_accepted env n then "queued" else "failed") n
                         else n) (scheduled w))
          (with_queue
             (queue w ++
              map (fun n =>
                     {| q_name := "send";
                        q_data := {| jd_userId := sn_userId n; jd_to := sn_to n;
                                     jd_channel := sn_channel n;
                                     jd_message := sn_message n;
                                     jd_subject := sn_subject n;
                                     jd_templateId := sn_templateId n;
                                     jd_campaignId := sn_campaignId n;
                                     jd_metadata := sn_metadata n |};
                        q_opts := {| attempts := 3;
                                     backoff := {| bo_type := "exponential";
                                                   bo_delay := 10000 |} |} |})
                  (filter (add_accepted env) due)) w))
  /\ (forall es now id, In id (map sn_id due) -> ~ In id (due_ids now (run_events es w'))).
Proof.
  intros Hup [Hnd Hbelow] due w'.
  pose proof (promotion_sweep_up env w Hup Hnd) as Hsweep.
  split; [|split].
  - intros n. unfold due, dueNotifications. rewrite filter_In, is_due_iff. tauto.
  - exact Hsweep.
  - subst w'. rewrite Hsweep. cbn [snd]. apply never_due_again.
    + cbn [scheduled with_scheduled]. intros m Hm Hid.
      apply in_map_iff in Hm. destruct Hm as (m0 & Hm & Hin0).
      apply in_map_iff in Hid. destruct Hid as (n & Hid & Hn).
      apply filter_In in Hn. destruct Hn as [Hn Hdn].
      assert (Hsame : sn_id m0 = sn_id m)
        by (subst m; destruct (is_due (sweep_now env) m0); reflexivity).
      assert (n = m0) by (apply (same_key_same_row sn_id (scheduled w)); auto; congruence).
      subst n. rewrite Hdn in Hm. subst m.
      destruct (add_accepted env m0); cbn; discriminate.
    + intros id Hid. cbn. apply in_map_iff in Hid. destruct Hid as (n & Hid & Hn).
      apply filter_In in Hn. subst id. apply Hbelow. tauto.
Qed.

Lemma promotion_sweep_promotes_due_once_witness :
  sweep_store_up noon_sweep /\ scheduled_keys_ok scheduled_world /\
  map sn_status (scheduled (snd (promotion_sweep noon_sweep scheduled_world)))
    = ["queued"; "pending"; "failed"] /\
  forall es now, ~ In 1 (due_ids now
                    (run_events es (snd (promotion_sweep noon_sweep scheduled_world)))).
Proof.
  assert (Hup : sweep_store_up noon_sweep) by (repeat split; reflexivity).
  assert (Hkeys : scheduled_keys_ok scheduled_world).
  { split.
    - cbn. repeat constructor; cbn; intuition discriminate.
    - cbn. intros n [H|[H|[H|[]]]]; subst n; cbn; lia. }
  split; [exact Hup|]. split; [exact Hkeys|].
  destruct (promotion_sweep_promotes_due_once noon_sweep scheduled_world Hup Hkeys)
    as (_ & _ & Hnever).
  split; [reflexivity|].
  intros es now. apply Hnever. cbn. left. reflexivity.
Defined.

(** C6 (failing input): one pending record, due; the queue takes its job.
    - The store refuses the update to "queued": the [catch] block, written
      for a refused enqueue, marks the record failed although its job is in
      the queue.
    - The store refuses both updates: the record stays pending with its job
      in the queue, and the next sweep adds the job a second time.
    - Two sweeps overlap, the second reading the table before the first has
      written: both add the job, though every call is answered. *)
Theorem enqueued_record_is_failed_or_promoted_twice :
  dueNotifications 1767225600000 (scheduled lone_world) = [due_record]
  /\ fst (promotion_sweep (queued_write_down 1767225600000) lone_world) = Val tt
  /\ queue (snd (promotion_sweep (queued_write_down 1767225600000) lone_world)) = [due_job]
  /\ scheduled (snd (promotion_sweep (queued_write_down 1767225600000) lone_world))
     = [set_sn_status "failed" due_record]
  /\ promotion_sweep (writes_down 1767225600000) lone_world
     = (Val tt, with_queue [due_job] lone_world)
  /\ promotion_sweep (healthy_sweep 1767225660000) (with_queue [due_job] lone_world)
     = (Val tt,
        with_scheduled [set_sn_status "queued" due_record]
          (with_queue [due_job; due_job] lone_world))
  /\ (let first := healthy_sweep 1767225600000 in
      let second := healthy_sweep 1767225660000 in
      let read1 := dueNotifications (sweep_now first) (scheduled lone_world) in
      let read2 := dueNotifications (sweep_now second) (scheduled lone_world) in
      promote_each second read2 (snd (promote_each first read1 lone_world))
      = (Val tt,
         with_scheduled [set_sn_status "queued" due_record]
           (with_queue [due_job; due_job] lone_world))).
Proof. repeat split; reflexivity. Qed.

(** ** Campaign completion sweep *)

Lemma update_campaign_row_ids id f rows :
  (forall c, c_id (f c) = c_id c) ->
  map c_id (update_campaign_row id f rows) = map c_id rows.
Proof.
  intros Hf. unfold update_campaign_row. rewrite map_map.
  apply map_ext. intros c. destruct (c_id c =? id); auto.
Qed.

Lemma find_campaign_some id rows :
  In id (map c_id rows) -> find_campaign id rows <> None.
Proof.
  intros Hin Hnone. apply in_map_iff in Hin. destruct Hin as (c & Hid & Hc).
  apply (find_none _ _ Hnone) in Hc. cbn in Hc. lia.
Qed.

Lemma find_campaign_map f rows c :
  (forall x, c_id (f x) = c_id x) ->
  NoDup (map c_id rows) -> In c rows ->
  find_campaign (c_id c) (map f rows) = Some (f c).
Proof.
  intros Hf. induction rows as [|r rows IH]; intros Hnd Hin; [contradiction|].
  cbn in Hnd. inversion Hnd as [|? ? Hnotin Hnd']; subst.
  unfold find_campaign. cbn [map find]. rewrite Hf.
  destruct (Z.eqb_spec (c_id r) (c_id c)) as [Heq|Hne].
  - destruct Hin as [Hin|Hin]; [subst; reflexivity|].
    exfalso. apply Hnotin. rewrite Heq. apply in_map. exact Hin.
  - destruct Hin as [Hin|Hin]; [congruence|]. apply IH; auto.
Qed.

Lemma campaigns_after_cons now id ids rows :
  campaigns_after now ids (update_campaign_row id (set_completed now) rows)
  = campaigns_after now (id :: ids) rows.
Proof.
  unfold campaigns_after, update_campaign_row. rewrite map_map. apply map_ext.
  intros c. cbn [existsb]. destruct (Z.eqb_spec (c_id c) id) as [Heq|Hne]; cbn [orb].
  - cbn [set_completed c_id]. destruct (existsb _ ids); reflexivity.
  - reflexivity.
Qed.

Lemma complete_each_up env : forall l w,
  (forall id, complete_error env id = None) ->
  incl (map (fun row => c_id (fst row)) l) (map c_id (campaigns w)) ->
  complete_each env l w =
    (Val tt,
     with_campaigns
       (campaigns_after (completion_now env)
          (map (fun row => c_id (fst row)) (filter ready l)) (campaigns w)) w).
Proof.
  induction l as [|[c p] l IH]; intros w Hup Hincl.
  - cbn. unfold ret, campaigns_after. cbn. rewrite map_id. destruct w; reflexivity.
  - cbn [complete_each filter]. unfold ready at 1. cbn [fst snd].
    destruct ((p =? 0) && (c_successCount c + c_failureCount c >=? c_totalRecipients c)).
    + unfold bind at 1, campaign_update_completed, campaign_update, bind at 1,
        may_reject. rewrite Hup. unfold ret at 1, bind at 1, get.
      destruct (find_campaign (c_id c) (campaigns w)) eqn:Hfind.
      2:{ exfalso. revert Hfind. apply find_campaign_some. apply Hincl. left. reflexivity. }
      unfold modify. rewrite IH; auto.
      * cbn [campaigns with_campaigns map fst]. rewrite campaigns_after_cons.
        reflexivity.
      * cbn [campaigns with_campaigns].
        rewrite update_campaign_row_ids by reflexivity.
        intros id Hid. apply Hincl. right. exact Hid.
    + unfold bind at 1, ret at 1. rewrite IH; auto.
      intros id Hid. apply Hincl. right. exact Hid.
Qed.

Lemma completion_sweep_up env w :
  completion_store_up env ->
  campaign_keys_ok w ->
  completion_sweep env w =
    (Val tt,
     with_campaigns
       (map (fun c => if completion_due w c then set_completed (completion_now env) c else c)
            (campaigns w)) w).
Proof.
  intros [Hfind Hup] Hnd.
  unfold completion_sweep, try_catch, bind at 1, may_reject. rewrite Hfind.
  unfold ret at 1, bind at 1, get.
  rewrite complete_each_up; auto.
  - f_equal. f_equal. unfold campaigns_after. apply map_ext_in. intros c Hc.
    destruct (completion_due w c) eqn:Hd.
    + assert (H : existsb (Z.eqb (c_id c))
                    (map (fun row => c_id (fst row)) (filter ready (runningCampaigns w)))
                  = true).
      { apply existsb_exists. exists (c_id c). split; [|lia].
        apply in_map_iff. exists (c, pendingCount c (scheduled w)). split; [reflexivity|].
        unfold completion_due in Hd. apply andb_true_iff in Hd. destruct Hd as [Hd Hr].
        apply andb_true_iff in Hd. destruct Hd as [Hrun Hp].
        apply filter_In. split.
        - unfold runningCampaigns. apply in_map_iff. exists c. split; [reflexivity|].
          apply filter_In. auto.
        - unfold ready. cbn [fst snd]. rewrite Hp, Hr. reflexivity. }
      rewrite H. reflexivity.
    + destruct (existsb _ _) eqn:He; [|reflexivity].
      apply existsb_exists in He. destruct He as (id & Hin & Heq).
      apply in_map_iff in Hin. destruct Hin as ([c0 p0] & Hid & Hrow).
      apply filter_In in Hrow. destruct Hrow as [Hrow Hready].
      unfold runningCampaigns in Hrow. apply in_map_iff in Hrow.
      destruct Hrow as (c1 & Hc1 & Hin1). inversion Hc1; subst c0 p0. clear Hc1.
      apply filter_In in Hin1. destruct Hin1 as [Hin1 Hrun].
      cbn [fst] in Hid.
      assert (c1 = c) by (apply (same_key_same_row c_id (campaigns w)); auto; lia).
      subst c1. unfold ready in Hready. cbn [fst snd] in Hready.
      unfold completion_due in Hd. rewrite Hrun in Hd. cbn [andb] in Hd. congruence.
  - unfold runningCampaigns. rewrite map_map. cbn [fst].
    intros id Hid. apply in_map_iff in Hid. destruct Hid as (c & Hid & Hc).
    apply filter_In in Hc. subst id. apply in_map. tauto.
Qed.

(** C7: the completion sweep moves a running campaign to completed and
    stamps completedAt if and only if none of its scheduled notifications is
    pending or queued and successCount + failureCount has reached
    totalRecipients; a campaign with a pending or queued scheduled
    notification is left as it was, and so is every campaign that is not
    running.  (Store calls of the sweep answered, primary keys unique.) *)
Theorem completion_sweep_completes_iff (env : CompletionEnv) (w : World) :
  completion_store_up env ->
  campaign_keys_ok w ->
  let w' := snd (completion_sweep env w) in
  (forall c, In c (campaigns w) -> c_status c = "running" ->
     exists c', find_campaign (c_id c) (campaigns w') = Some c' /\
       ((c_status c' = "completed" /\ c_completedAt c' = Some (completion_now env))
        <-> (pendingCount c (scheduled w) = 0 /\
             c_successCount c + c_failureCount c >= c_totalRecipients c)) /\
       (c_status c' = "completed" -> c' = set_completed (completion_now env) c) /\
       (c_status c' <> "completed" -> c' = c) /\
       (pendingCount c (scheduled w) <> 0 -> c' = c))
  /\ (forall c, In c (campaigns w) -> c_status c <> "running" ->
        find_campaign (c_id c) (campaigns w') = Some c)
  /\ scheduled w' = scheduled w /\ logs w' = logs w /\ queue w' = queue w.
Proof.
  intros Hup Hnd w'. subst w'. rewrite (completion_sweep_up env w Hup Hnd). cbn [snd].
  cbn [campaigns scheduled logs queue with_campaigns].
  split; [|split; [|auto]].
  - intros c Hc Hrun.
    rewrite (find_campaign_map _ (campaigns w) c); auto;
      [|intros x; destruct (completion_due w x); reflexivity].
    eexists. split; [reflexivity|].
    unfold completion_due. rewrite Hrun. cbn [String.eqb andb].
    replace (("running" =? "running")%string) with true by reflexivity. cbn [andb].
    destruct (Z.eqb_spec (pendingCount c (scheduled w)) 0) as [Hp|Hp]; cbn [andb];
      [destruct (Z.geb_spec (c_successCount c + c_failureCount c) (c_totalRecipients c))|];
      repeat match goal with
             | |- _ /\ _ => split
             | |- _ <-> _ => split
             | |- _ -> _ => intro
             | H : _ /\ _ |- _ => destruct H
             end;
      cbn in *; solve [reflexivity | lia | congruence].
  - intros c Hc Hrun.
    rewrite (find_campaign_map _ (campaigns w) c); auto;
      [|intros x; destruct (completion_due w x); reflexivity].
    unfold completion_due. destruct (String.eqb_spec (c_status c) "running"); [contradiction|].
    reflexivity.
Qed.

Lemma completion_sweep_completes_iff_witness :
  completion_store_up noon_completion /\ campaign_keys_ok campaigns_world /\
  (exists c',
     find_campaign 1 (campaigns (snd (completion_sweep noon_completion campaigns_world)))
       = Some c'
     /\ c' = set_completed 1767225600000 counted_campaign)
  /\ find_campaign 2 (campaigns (snd (completion_sweep noon_completion campaigns_world)))
       = Some waiting_campaign.
Proof.
  assert (Hup : completion_store_up noon_completion) by (split; reflexivity).
  assert (Hkeys : campaign_keys_ok campaigns_world).
  { unfold campaign_keys_ok. cbn. repeat constructor; cbn; intuition discriminate. }
  split; [exact Hup|]. split; [exact Hkeys|].
  destruct (completion_sweep_completes_iff noon_completion campaigns_world Hup Hkeys)
    as (Hrunning & _).
  split.
  - destruct (Hrunning counted_campaign (or_introl eq_refl) eq_refl)
      as (c' & Hfind & Hiff & Hdone & _).
    exists c'. split; [exact Hfind|]. apply Hdone. apply Hiff.
    split; [reflexivity | cbn; lia].
  - destruct (Hrunning waiting_campaign (or_intror (or_introl eq_refl)) eq_refl)
      as (c' & Hfind & _ & _ & _ & Hwait).
    rewrite (Hwait ltac:(discriminate)) in Hfind. exact Hfind.
Defined.

(** ** Cancelling a scheduled notification *)

Lemma pres_campaign_delete err id : Preserves (fun w => w) (campaign_delete err id).
Proof.
  unfold campaign_delete. apply pres_bind; [apply pres_may_reject|]. intros _.
  apply pres_bind; [apply pres_get|]. intros w0.
  destruct (find_campaign id (campaigns w0)); [|apply pres_throw].
  apply pres_modify. intros w. split; [cbn; lia|]. cbn. intros m Hm.
  apply in_map_iff in Hm. destruct Hm as (m0 & <- & Hin). left. exists m0. auto.
Qed.

Lemma act_stable a w : sched_stable w (act a w).
Proof.
  destruct a; cbn [act].
  - apply step_stable.
  - assert (H : Preserves (fun w => w) (post_campaign_pause env userId campaignId))
      by (unfold post_campaign_pause; pres).
    apply H.
  - assert (H : Preserves (fun w => w) (delete_campaign env userId campaignId)).
    { unfold delete_campaign. apply pres_try_catch; [|intro; pres].
      apply pres_bind; [pres|]. intros _. apply pres_bind; [pres|]. intros w0.
      destruct (find _ (campaigns w0)); [|pres].
      destruct (negb _); [pres|].
      apply pres_bind; [apply pres_campaign_delete | intro; pres]. }
    apply H.
Qed.

Lemma call_stable c w : sched_stable w (run_call c w).
Proof.
  destruct c; cbn [run_call].
  - apply (pres_campaign_update err id f w).
  - apply (pres_campaign_delete err id w).
  - apply (pres_log_create err entry w).
  - apply (pres_call_sender err c w).
  - apply (pres_queue_add err name d o w).
  - apply (pres_scheduled_update err id (written_text st)); destruct st; discriminate.
  - apply (pres_scheduled_create env userId to channel message subject templateId sendAt
             metadata w).
  - apply sched_stable_same; reflexivity.
  - split; [cbn; lia|]. cbn. intros m Hm. apply filter_In in Hm. left. exists m. tauto.
Qed.

Lemma run_steps_stable steps : forall w, sched_stable w (run_steps steps w).
Proof.
  induction steps as [|s steps IH]; intros w; cbn.
  - apply sched_stable_refl.
  - eapply sched_stable_trans; [|apply IH].
    destruct s; [apply act_stable | apply call_stable].
Qed.

(** A record that has left "pending" is returned by no later query of a
    promotion sweep, whatever handlers and single calls come in between. *)
Lemma never_selected_again id w :
  (forall m, In m (scheduled w) -> sn_id m = id -> sn_status m <> "pending") ->
  id < nextScheduledId w ->
  forall steps now, ~ In id (due_ids now (run_steps steps w)).
Proof.
  intros Hleft Hbelow steps now Hdue.
  unfold due_ids in Hdue. apply in_map_iff in Hdue.
  destruct Hdue as (m & Hm & Hin). unfold dueNotifications in Hin.
  apply filter_In in Hin. destruct Hin as [Hin Hd].
  apply is_due_iff in Hd. destruct Hd as [Hp _].
  destruct (run_steps_stable steps w) as [_ Hst].
  destruct (Hst m Hin) as [(m0 & Hin0 & Hid0 & Hp0) | Hnew].
  - apply (Hleft m0 Hin0); [congruence | auto].
  - lia.
Qed.

Lemma delete_scheduled_up env userId id w :
  store_error env = None ->
  delete_scheduled env userId id w =
    match find (fun n => (sn_id n =? id)
                         && match sn_userId n with
                            | Some u => u =? userId
                            | None => false
                            end
                         && String.eqb (sn_status n) "pending") (scheduled w) with
    | Some _ =>
        (Val (respond 200 (JMessage "Scheduled notification cancelled successfully")),
         with_scheduled (update_scheduled_row id (set_sn_status "cancelled") (scheduled w)) w)
    | None =>
        (Val (respond 404
                (JError "Scheduled notification not found or cannot be cancelled")), w)
    end.
Proof.
  intros Hstore. unfold delete_scheduled, try_catch, bind at 1, may_reject. rewrite Hstore.
  unfold ret at 1, bind at 1, get.
  destruct (find _ (scheduled w)) as [n|] eqn:Hfind; [|reflexivity].
  apply find_some in Hfind. destruct Hfind as [Hin Hcond].
  rewrite !andb_true_iff in Hcond. destruct Hcond as [[Hid _] _]. apply Z.eqb_eq in Hid.
  unfold bind, scheduled_update, may_reject, bind, get, ret, modify.
  destruct (find (fun n0 => sn_id n0 =? id) (scheduled w)) eqn:Hf; [reflexivity|].
  exfalso. revert Hf. apply find_by_id_some. rewrite <- Hid. apply in_map. exact Hin.
Qed.

(** C8 (counterexample): record 3 is pending, but it belongs to user 8: the
    cancel request of user 7 is answered 404 and the record stays pending.
    And a cancellation that is answered 200 does not stop a sweep that has
    read the table before it: [snapshot] is what that sweep's query returned,
    the owner then cancels record 1, and the sweep's loop, going on, adds the
    job of record 1 to the queue and writes "queued" over "cancelled".
    Likewise when a whole sweep runs between the two store calls of the
    request: [findFirst] has found record 1 pending, the sweep promotes it,
    and the update, by id alone, writes "cancelled" over "queued". *)
Lemma pending_record_is_not_cancelled_or_still_promoted :
  In unlucky_record (scheduled scheduled_world)
  /\ sn_status unlucky_record = "pending"
  /\ delete_scheduled calm 7 3 scheduled_world
     = (Val (respond 404
               (JError "Scheduled notification not found or cannot be cancelled")),
        scheduled_world)
  /\ (let snapshot := dueNotifications (sweep_now noon_sweep) (scheduled scheduled_world) in
      let cancelled := snd (delete_scheduled calm 7 1 scheduled_world) in
      let after := snd (promote_each noon_sweep snapshot cancelled) in
      fst (delete_scheduled calm 7 1 scheduled_world)
      = Val (respond 200 (JMessage "Scheduled notification cancelled successfully"))
      /\ map sn_status (scheduled cancelled) = ["cancelled"; "pending"; "pending"]
      /\ map sn_status (scheduled after) = ["queued"; "pending"; "failed"]
      /\ map (fun j => jd_to (q_data j)) (queue after) = ["a@x.com"])
  /\ (let swept := snd (promotion_sweep noon_sweep scheduled_world) in
      let after := snd (scheduled_update (store_error calm) 1 "cancelled" swept) in
      find (fun n => (sn_id n =? 1)
                     && match sn_userId n with
                        | Some u => u =? 7
                        | None => false
                        end
                     && String.eqb (sn_status n) "pending") (scheduled scheduled_world)
      = Some due_record
      /\ map sn_status (scheduled swept) = ["queued"; "pending"; "failed"]
      /\ fst (scheduled_update (store_error calm) 1 "cancelled" swept) = Val tt
      /\ map sn_status (scheduled after) = ["cancelled"; "pending"; "failed"]
      /\ map (fun j => jd_to (q_data j)) (queue after) = ["a@x.com"]).
Proof.
  split; [right; right; left; reflexivity|]. split; [reflexivity|].
  split; [reflexivity|]. cbv zeta. repeat split; reflexivity.
Qed.

(** C8 (amended): a cancel request succeeds (200) exactly when the record
    with that id is pending and belongs to the caller; the record then
    becomes cancelled, nothing else changes, and no query of a promotion
    sweep made from then on returns it, whatever handlers run and whatever
    single calls of handlers under way arrive in the meantime.  Any other
    request - the record is queued or in another status than pending,
    belongs to another user or to none, or does not exist - is answered with
    an error (404) and changes nothing.  (Store answers, primary keys unique,
    no other write between the two store calls of the request.) *)
Theorem cancel_succeeds_iff_pending (env : RouteEnv) (userId id : Z) (w : World) :
  store_error env = None ->
  scheduled_keys_ok w ->
  let r := fst (delete_scheduled env userId id w) in
  let w' := snd (delete_scheduled env userId id w) in
  let ok := Val (respond 200 (JMessage "Scheduled notification cancelled successfully")) in
  (r = ok <-> exists n, In n (scheduled w) /\ sn_id n = id
                        /\ sn_userId n = Some userId /\ sn_status n = "pending")
  /\ (r = ok ->
        w' = with_scheduled
               (map (fun m => if sn_id m =? id then set_sn_status "cancelled" m else m)
                    (scheduled w)) w
        /\ (exists n, In n (scheduled w) /\ sn_id n = id
                      /\ In (set_sn_status "cancelled" n) (scheduled w'))
        /\ forall steps now, ~ In id (due_ids now (run_steps steps w')))
  /\ (r <> ok ->
        r = Val (respond 404
                   (JError "Scheduled notification not found or cannot be cancelled"))
        /\ w' = w).
Proof.
  intros Hstore [Hnd Hbelow] r w' ok. subst r w' ok.
  rewrite (delete_scheduled_up env userId id w Hstore).
  destruct (find _ (scheduled w)) as [n|] eqn:Hfind; cbn [fst snd].
  - apply find_some in Hfind. destruct Hfind as [Hin Hcond].
    rewrite !andb_true_iff in Hcond. destruct Hcond as [[Hid Hown] Hp].
    apply Z.eqb_eq in Hid. apply String.eqb_eq in Hp.
    assert (Hmine : sn_userId n = Some userId).
    { destruct (sn_userId n) as [u|]; [|discriminate].
      apply Z.eqb_eq in Hown. congruence. }
    split; [split; [intros _; exists n; auto | reflexivity]|].
    split; [|intros H; contradiction H; reflexivity].
    intros _. split; [reflexivity|]. split.
    + exists n. split; [exact Hin|]. split; [exact Hid|].
      cbn [scheduled with_scheduled]. unfold update_scheduled_row.
      apply in_map_iff. exists n. rewrite Hid, Z.eqb_refl. auto.
    + apply never_selected_again.
      * cbn [scheduled with_scheduled]. unfold update_scheduled_row.
        intros m Hm Hmid. apply in_map_iff in Hm. destruct Hm as (m0 & Hm & _).
        destruct (Z.eqb_spec (sn_id m0) id) as [Heq|Hne]; subst m.
        -- cbn. discriminate.
        -- contradiction.
      * cbn [nextScheduledId with_scheduled]. rewrite <- Hid. apply Hbelow. exact Hin.
  - split; [split; [discriminate|]|].
    + intros (n & Hin & Hid & Hmine & Hp).
      apply (find_none _ _ Hfind) in Hin. rewrite Hid, Z.eqb_refl, Hmine, Z.eqb_refl, Hp in Hin.
      discriminate Hin.
    + split; [discriminate | auto].
Qed.

Lemma cancel_succeeds_iff_pending_witness :
  fst (delete_scheduled calm 7 1 scheduled_world)
    = Val (respond 200 (JMessage "Scheduled notification cancelled successfully"))
  /\ map sn_status (scheduled (snd (delete_scheduled calm 7 1 scheduled_world)))
     = ["cancelled"; "pending"; "pending"]
  /\ (forall steps now,
        ~ In 1 (due_ids now (run_steps steps
                               (snd (delete_scheduled calm 7 1 scheduled_world)))))
  /\ snd (delete_scheduled calm 7 1 swept_world) = swept_world
  /\ snd (delete_scheduled calm 8 1 scheduled_world) = scheduled_world.
Proof.
  assert (Hkeys : scheduled_keys_ok scheduled_world).
  { split.
    - cbn. repeat constructor; cbn; intuition discriminate.
    - cbn. intros n [H|[H|[H|[]]]]; subst n; cbn; lia. }
  assert (Hkeys' : scheduled_keys_ok swept_world).
  { split.
    - cbn. repeat constructor; cbn; intuition discriminate.
    - cbn. intros n [H|[H|[H|[]]]]; subst n; cbn; lia. }
  destruct (cancel_succeeds_iff_pending calm 7 1 scheduled_world eq_refl Hkeys)
    as (Hiff & Hdone & _).
  destruct (cancel_succeeds_iff_pending calm 7 1 swept_world eq_refl Hkeys')
    as (_ & _ & Hqueued).
  destruct (cancel_succeeds_iff_pending calm 8 1 scheduled_world eq_refl Hkeys)
    as (_ & _ & Hother).
  assert (Hok : fst (delete_scheduled calm 7 1 scheduled_world)
                = Val (respond 200 (JMessage "Scheduled notification cancelled successfully"))).
  { apply Hiff. exists due_record. repeat split. left. reflexivity. }
  destruct (Hdone Hok) as (Hw & _ & Hnever).
  split; [exact Hok|]. split; [rewrite Hw; reflexivity|]. split; [exact Hnever|].
  split; [apply Hqueued; discriminate | apply Hother; discriminate].
Defined.

(** ** Bulk submission *)

(** C10: the bulk endpoint lets a request past validation only when
    recipients is an array of 1 to 100 elements; a request whose recipients
    is missing, not an array, empty or longer than 100 is answered with the
    validation error (400) and changes nothing: no job is added to the queue
    and no scheduled notification is created. *)
Theorem bulk_accepts_only_1_to_100 (env : RouteEnv) (userId : Z) (b : BulkBody) (w : World) :
  (fst (post_notify_bulk env userId b w) <> Val (respond 400 JErrors) ->
     exists l, bb_recipients b = Some l /\ (1 <= List.length l <= 100)%nat)
  /\ ((forall l, bb_recipients b = Some l ->
                 (List.length l < 1 \/ 100 < List.length l)%nat) ->
      post_notify_bulk env userId b w = (Val (respond 400 JErrors), w)).
Proof.
  unfold post_notify_bulk. split.
  - intros Hresp. destruct (bulk_valid b) eqn:Hv; [|cbn in Hresp; congruence].
    unfold bulk_valid in Hv. repeat (apply andb_true_iff in Hv; destruct Hv as [Hv ?]).
    unfold isArray_1_100 in Hv. destruct (bb_recipients b) as [l|]; [|discriminate].
    exists l. split; [reflexivity|].
    apply andb_true_iff in Hv. destruct Hv as [Hlo Hhi].
    apply Z.leb_le in Hlo, Hhi. lia.
  - intros Hout. assert (Hv : bulk_valid b = false).
    { unfold bulk_valid, isArray_1_100. destruct (bb_recipients b) as [l|]; [|reflexivity].
      destruct (Hout l eq_refl) as [Hlen|Hlen].
      - replace (1 <=? Z.of_nat (List.length l)) with false by (symmetry; apply Z.leb_gt; lia).
        reflexivity.
      - replace (Z.of_nat (List.length l) <=? 100) with false
          by (symmetry; apply Z.leb_gt; lia).
        rewrite andb_false_r. reflexivity. }
    rewrite Hv. reflexivity.
Qed.

Lemma bulk_accepts_only_1_to_100_witness :
  post_notify_bulk calm 7 empty_bulk scheduled_world
    = (Val (respond 400 JErrors), scheduled_world)
  /\ post_notify_bulk calm 7 oversized_bulk scheduled_world
    = (Val (respond 400 JErrors), scheduled_world)
  /\ fst (post_notify_bulk calm 7 pair_bulk scheduled_world) <> Val (respond 400 JErrors)
  /\ exists l, bb_recipients pair_bulk = Some l /\ (1 <= List.length l <= 100)%nat.
Proof.
  assert (Hpast : fst (post_notify_bulk calm 7 pair_bulk scheduled_world)
                  <> Val (respond 400 JErrors))
    by (intro H; vm_compute in H; discriminate H).
  split; [|split; [|split]].
  - apply (bulk_accepts_only_1_to_100 calm 7 empty_bulk scheduled_world).
    intros l Hl. injection Hl as <-. left. cbn. lia.
  - apply (bulk_accepts_only_1_to_100 calm 7 oversized_bulk scheduled_world).
    intros l Hl. injection Hl as <-. right. cbn. lia.
  - exact Hpast.
  - apply (bulk_accepts_only_1_to_100 calm 7 pair_bulk scheduled_world). exact Hpast.
Defined.

(** ** Submission *)

Lemma check_template_reads env userId tid ch msg w :
  snd (check_template env userId tid ch msg w) = w.
Proof.
  unfold check_template, bind, may_reject, get, ret, throw.
  destruct tid as [id|]; [|reflexivity].
  destruct (truthyZ (Some id)); [|reflexivity].
  destruct (store_error env); [reflexivity|].
  destruct (find _ (templates w)) as [t|]; [|reflexivity].
  destruct (negb _); reflexivity.
Qed.

Lemma valid_sendAt_truthy s :
  optional_iso (Some s) = true ->
  truthy_sendAt (Some s) = Some s
  /\ ((exists raw t, s = IsoDate raw t) \/ (exists raw, s = IsoNoDate raw)).
Proof.
  destruct s as [raw t|raw|raw]; cbn; [| |discriminate];
    intros H; rewrite H; split; [reflexivity | eauto | reflexivity | eauto].
Qed.

Lemma dated_sendAt_truthy raw t :
  optional_iso (Some (IsoDate raw t)) = true ->
  truthy_sendAt (Some (IsoDate raw t)) = Some (IsoDate raw t).
Proof. intros H. apply (valid_sendAt_truthy _ H). Qed.

(** C5 (counterexample): a past [sendAt] is scheduled like any other: the
    response says "scheduled", a pending record is stored, nothing is
    enqueued. *)
Lemma past_sendAt_is_scheduled_not_queued :
  1577836800000 < req_now calm
  /\ fst (post_notify calm 7 past_submission empty_world)
     = Val (respond 202
              (JScheduled (IsoDate "2020-01-01T00:00:00.000Z" 1577836800000) (Some 1)))
  /\ queue (snd (post_notify calm 7 past_submission empty_world)) = []
  /\ map sn_status (scheduled (snd (post_notify calm 7 past_submission empty_world)))
     = ["pending"].
Proof. repeat split; reflexivity. Qed.

(** C5 (amended): for every submission with a valid body that passes the
    template check, store and queue answering: when sendAt is absent the job
    is enqueued at once (3 attempts, exponential backoff of 10 s) and the
    response says "queued"; when sendAt is present and [new Date(sendAt)] is
    a date, whether it lies in the past or in the future, and the templateId
    (if any) names a template, a pending scheduled notification is created
    for that instant, nothing is enqueued, and the response says "scheduled",
    with the id of the record from the authenticated route and without it
    from the first route. *)
Theorem submit_schedules_whenever_sendAt_present (env : RouteEnv) (userId : Z)
  (b : NotifyBody) (b0 : BasicRoute.NotifyBody) (w : World) :
  store_error env = None ->
  queue_error env = None ->
  notify_valid b = true ->
  fst (check_template env userId (b_templateId b) (b_channel b)
         "Invalid template or template not found" w) = Val None ->
  BasicRoute.notify_valid b0 = true ->
  (b_sendAt b = None ->
     post_notify env userId b w =
       (Val (respond 202 JQueued),
        with_queue (queue w ++
          [{| q_name := "send";
              q_data := {| jd_userId := Some userId; jd_to := b_to b;
                           jd_channel := b_channel b; jd_message := b_message b;
                           jd_subject := subject_for (b_channel b) (b_subject b);
                           jd_templateId := b_templateId b; jd_campaignId := None;
                           jd_metadata := b_metadata b |};
              q_opts := {| attempts := 3;
                           backoff := {| bo_type := "exponential";
                                         bo_delay := 10000 |} |} |}]) w))
  /\ (forall raw t, b_sendAt b = Some (IsoDate raw t) ->
        template_known w (b_templateId b) = true ->
        post_notify env userId b w =
          (Val (respond 202 (JScheduled (IsoDate raw t) (Some (nextScheduledId w)))),
           with_nextScheduledId (nextScheduledId w + 1)
             (with_scheduled (scheduled w ++
                [{| sn_id := nextScheduledId w; sn_userId := Some userId;
                    sn_to := b_to b; sn_channel := b_channel b;
                    sn_message := b_message b;
                    sn_subject := subject_for (b_channel b) (b_subject b);
                    sn_templateId := b_templateId b; sn_campaignId := None;
                    sn_sendAt := t; sn_status := "pending";
                    sn_metadata := b_metadata b;
                    sn_createdAt := req_now env |}]) w)))
  /\ (BasicRoute.b_sendAt b0 = None ->
        BasicRoute.post_notify env b0 w =
          (Val (respond 202 JQueued),
           with_queue (queue w ++
             [{| q_name := "send";
                 q_data := {| jd_userId := None; jd_to := BasicRoute.b_to b0;
                              jd_channel := BasicRoute.b_channel b0;
                              jd_message := BasicRoute.b_message b0;
                              jd_subject := None; jd_templateId := None;
                              jd_campaignId := None; jd_metadata := None |};
                 q_opts := {| attempts := 3;
                              backoff := {| bo_type := "exponential";
                                            bo_delay := 10000 |} |} |}]) w))
  /\ (forall raw t, BasicRoute.b_sendAt b0 = Some (IsoDate raw t) ->
        BasicRoute.post_notify env b0 w =
          (Val (respond 202 (JScheduled (IsoDate raw t) None)),
           with_nextScheduledId (nextScheduledId w + 1)
             (with_scheduled (scheduled w ++
                [{| sn_id := nextScheduledId w; sn_userId := None;
                    sn_to := BasicRoute.b_to b0; sn_channel := BasicRoute.b_channel b0;
                    sn_message := BasicRoute.b_message b0; sn_subject := None;
                    sn_templateId := None; sn_campaignId := None;
                    sn_sendAt := t; sn_status := "pending"; sn_metadata := None;
                    sn_createdAt := req_now env |}]) w))).
Proof.
  intros Hstore Hqueue Hvalid Htpl Hvalid0.
  assert (Hcheck : check_template env userId (b_templateId b) (b_channel b)
                     "Invalid template or template not found" w = (Val None, w)).
  { pose proof (check_template_reads env userId (b_templateId b) (b_channel b)
                  "Invalid template or template not found" w) as Hsnd.
    destruct (check_template _ _ _ _ _ w) as [r w1]. cbn in *. congruence. }
  assert (Hiso : optional_iso (b_sendAt b) = true).
  { unfold notify_valid in Hvalid. apply andb_true_iff in Hvalid. tauto. }
  assert (Hiso0 : optional_iso (BasicRoute.b_sendAt b0) = true).
  { unfold BasicRoute.notify_valid in Hvalid0. apply andb_true_iff in Hvalid0. tauto. }
  unfold post_notify, BasicRoute.post_notify. rewrite Hvalid, Hvalid0. cbn [negb].
  repeat split.
  - intros Hnone. rewrite Hnone. cbn [truthy_sendAt].
    unfold try_catch, bind, queue_add, bind, may_reject, modify, ret.
    rewrite Hcheck, Hqueue. reflexivity.
  - intros raw t Hs Hknown. rewrite Hs in *. rewrite (dated_sendAt_truthy raw t Hiso).
    unfold try_catch, bind, date_of, scheduled_create, bind, may_reject, get, modify, ret.
    rewrite Hcheck, Hstore. cbn. rewrite Hknown. reflexivity.
  - intros Hnone. rewrite Hnone. cbn [truthy_sendAt].
    unfold bind, queue_add, bind, may_reject, modify, ret. rewrite Hqueue. reflexivity.
  - intros raw t Hs. rewrite Hs in *. rewrite (dated_sendAt_truthy raw t Hiso0).
    unfold bind, date_of, scheduled_create, bind, may_reject, get, modify, ret.
    rewrite Hstore. reflexivity.
Qed.

Lemma submit_schedules_whenever_sendAt_present_witness :
  1577836800000 < req_now calm
  /\ fst (post_notify calm 7 past_submission empty_world)
     = Val (respond 202
              (JScheduled (IsoDate "2020-01-01T00:00:00.000Z" 1577836800000) (Some 1)))
  /\ fst (BasicRoute.post_notify calm past_submission_basic empty_world)
     = Val (respond 202
              (JScheduled (IsoDate "2020-01-01T00:00:00.000Z" 1577836800000) None))
  /\ fst (post_notify calm 7 plain_submission empty_world) = Val (respond 202 JQueued)
  /\ List.length (queue (snd (post_notify calm 7 plain_submission empty_world))) = 1%nat.
Proof.
  destruct (submit_schedules_whenever_sendAt_present calm 7 past_submission
              past_submission_basic empty_world eq_refl eq_refl eq_refl eq_refl eq_refl)
    as (_ & Hsched & _ & Hsched0).
  destruct (submit_schedules_whenever_sendAt_present calm 7 plain_submission
              past_submission_basic empty_world eq_refl eq_refl eq_refl eq_refl eq_refl)
    as (Hqueued & _).
  split; [reflexivity|].
  rewrite (Hsched _ _ eq_refl eq_refl), (Hsched0 _ _ eq_refl), (Hqueued eq_refl).
  repeat split.
Defined.

(** What the amended statement leaves out.  A sendAt that passes
    [isISO8601()] but is no date for [new Date] (a week date such as
    "2020-W01-1"), and a templateId that skips the template check ([0] is
    falsy) but names no template, both end in the [catch] block: 500, with no
    record stored and no job added; the first route, which has no
    [try]/[catch], gives no response at all. *)
Lemma unusable_sendAt_or_template_is_answered_500 (env : RouteEnv) (userId : Z)
  (b : NotifyBody) (b0 : BasicRoute.NotifyBody) (w : World) :
  store_error env = None ->
  notify_valid b = true ->
  fst (check_template env userId (b_templateId b) (b_channel b)
         "Invalid template or template not found" w) = Val None ->
  BasicRoute.notify_valid b0 = true ->
  (forall raw, b_sendAt b = Some (IsoNoDate raw) ->
     post_notify env userId b w = (Val internal_error, w))
  /\ (forall raw t, b_sendAt b = Some (IsoDate raw t) ->
        template_known w (b_templateId b) = false ->
        fst (post_notify env userId b w) = Val internal_error
        /\ scheduled (snd (post_notify env userId b w)) = scheduled w
        /\ queue (snd (post_notify env userId b w)) = queue w)
  /\ (forall raw, BasicRoute.b_sendAt b0 = Some (IsoNoDate raw) ->
        BasicRoute.post_notify env b0 w = (Exn "Invalid Date", w)).
Proof.
  intros Hstore Hvalid Htpl Hvalid0.
  assert (Hcheck : check_template env userId (b_templateId b) (b_channel b)
                     "Invalid template or template not found" w = (Val None, w)).
  { pose proof (check_template_reads env userId (b_templateId b) (b_channel b)
                  "Invalid template or template not found" w) as Hsnd.
    destruct (check_template _ _ _ _ _ w) as [r w1]. cbn in *. congruence. }
  assert (Hiso : optional_iso (b_sendAt b) = true).
  { unfold notify_valid in Hvalid. apply andb_true_iff in Hvalid. tauto. }
  assert (Hiso0 : optional_iso (BasicRoute.b_sendAt b0) = true).
  { unfold BasicRoute.notify_valid in Hvalid0. apply andb_true_iff in Hvalid0. tauto. }
  unfold post_notify, BasicRoute.post_notify. rewrite Hvalid, Hvalid0. cbn [negb].
  split; [|split].
  - intros raw Hs. rewrite Hs in *.
    destruct (valid_sendAt_truthy _ Hiso) as [Ht _]. rewrite Ht.
    unfold try_catch, bind, date_of, throw, ret. rewrite Hcheck. reflexivity.
  - intros raw t Hs Hknown. rewrite Hs in *. rewrite (dated_sendAt_truthy raw t Hiso).
    unfold try_catch, bind, date_of, scheduled_create, bind, may_reject, get, modify, ret,
      throw.
    rewrite Hcheck, Hstore. cbn. rewrite Hknown. cbn. repeat split.
  - intros raw Hs. rewrite Hs in *.
    destruct (valid_sendAt_truthy _ Hiso0) as [Ht _]. rewrite Ht.
    unfold bind, date_of, throw. reflexivity.
Qed.

(** ** Worker: one attempt *)

Lemma unknown_channel_eqb ch :
  known_channel ch = false ->
  String.eqb ch "email" = false /\ String.eqb ch "sms" = false
  /\ String.eqb ch "in-app" = false.
Proof.
  unfold known_channel, status_in. cbn [existsb]. rewrite !orb_false_iff. tauto.
Qed.

Lemma dispatch_unknown env d w :
  known_channel (jd_channel d) = false ->
  dispatch env d w = (Exn ("Unknown channel: " ++ jd_channel d)%string, w).
Proof.
  intros Hu. apply unknown_channel_eqb in Hu. destruct Hu as (He & Hs & Hi).
  unfold dispatch. rewrite He, Hs, Hi. reflexivity.
Qed.

Ltac js_cbn := cbn -[Z.add Z.eqb String.eqb String.append refs_known].

(** The foreign keys of a log entry are judged on templates and campaign
    ids, which an attempt does not change. *)
Lemma existsb_on_ids id : forall rows : list NotificationCampaign,
  existsb (fun c => c_id c =? id) rows = existsb (fun k => k =? id) (map c_id rows).
Proof.
  induction rows as [|x l IH]; [reflexivity|].
  cbn [existsb map]. rewrite IH. reflexivity.
Qed.

Lemma refs_known_same w1 w2 t c :
  templates w1 = templates w2 ->
  map c_id (campaigns w1) = map c_id (campaigns w2) ->
  refs_known w1 t c = refs_known w2 t c.
Proof.
  intros Ht Hc. unfold refs_known, template_known, campaign_known. rewrite Ht.
  f_equal. destruct c as [id|]; [|reflexivity].
  rewrite !existsb_on_ids, Hc. reflexivity.
Qed.

Ltac refs_side :=
  first [ reflexivity
        | cbn; apply update_campaign_row_ids; intros; reflexivity
        | cbn; rewrite map_map; apply map_ext; intros ?c;
          destruct (_ =? _); reflexivity ].

Ltac refs_to w :=
  repeat match goal with
         | |- context [refs_known ?W ?t ?c] =>
             tryif constr_eq W w then fail
             else rewrite (refs_known_same W w t c) by refs_side
         | H : context [refs_known ?W ?t ?c] |- _ =>
             tryif constr_eq W w then fail
             else rewrite (refs_known_same W w t c) in H by refs_side
         end.

Ltac run_attempt :=
  unfold run_processor, processor, Basic.run_processor, Basic.processor,
    try_finally, try_catch, bind, lift, when_campaign, campaign_update,
    log_create, call_sender, may_reject, get, modify, ret, throw, bind;
  js_cbn.

Ltac split_cases :=
  repeat match goal with
         | |- context [match ?x with _ => _ end] =>
             lazymatch x with
             | context [match _ with _ => _ end] => fail
             | _ => destruct x eqn:?; js_cbn
             end
         end.

Ltac split_cases_in w :=
  repeat first
    [ progress (refs_to w)
    | match goal with
      | H : refs_known w _ _ = _ |- _ => rewrite H; js_cbn
      end
    | match goal with
      | |- context [match ?x with _ => _ end] =>
          lazymatch x with
          | context [match _ with _ => _ end] => fail
          | _ => destruct x eqn:?; js_cbn
          end
      end ].

(** An attempt on an unknown channel: no sender is called, the attempt is
    logged as failed and the processor rejects. *)
Lemma unknown_channel_attempt env job w :
  known_channel (jd_channel (data job)) = false ->
  log_create_error env = None ->
  refs_known w (jd_templateId (data job)) (jd_campaignId (data job)) = true ->
  exists e w',
    run_processor env job w = (Exn e, w')
    /\ sent w' = sent w
    /\ logs w' = (logs w
         ++ [log_entry env job
               (failed_frame w ("Unknown channel: " ++ jd_channel (data job))%string)])%list
    /\ refs_known w' (jd_templateId (data job)) (jd_campaignId (data job)) = true.
Proof.
  intros Hu Hlog Hrefs. run_attempt.
  rewrite (dispatch_unknown env (data job) w Hu), Hlog. js_cbn.
  split_cases; refs_to w; try congruence;
    eexists; eexists; (split; [reflexivity|]); (split; [reflexivity|]);
    (split; [reflexivity|]); js_cbn; refs_to w; congruence.
Qed.

(** The same in the first worker, whose log entry names no template and no
    campaign. *)
Lemma unknown_channel_attempt_basic env job w :
  known_channel (jd_channel (data job)) = false ->
  log_create_error env = None ->
  Basic.run_processor env job w
  = (Exn "Unknown channel",
     with_logs (logs w ++ [Basic.log_entry env job (failed_frame w "Unknown channel")]) w).
Proof.
  intros Hu Hlog. apply unknown_channel_eqb in Hu. destruct Hu as (He & Hs & Hi).
  run_attempt. unfold Basic.dispatch. rewrite He, Hs, Hi, Hlog. reflexivity.
Qed.

(** ** Worker: a job through its retries *)

Lemma unknown_channel_loop : forall r envs job w,
  known_channel (jd_channel (data job)) = false ->
  (forall k, log_create_error (envs k) = None) ->
  refs_known w (jd_templateId (data job)) (jd_campaignId (data job)) = true ->
  exists reason w' entries,
    attempt_loop run_processor r envs job w = (Failed reason, w')
    /\ sent w' = sent w
    /\ logs w' = (logs w ++ entries)%list
    /\ map log_attempt entries
       = map (fun i => attemptsMade job + 1 + Z.of_nat i) (seq 0 (S r))
    /\ Forall (fun e => log_status e = "failed"
                        /\ log_error e
                           = Some ("Unknown channel: " ++ jd_channel (data job))%string
                        /\ log_deliveredAt e = None) entries.
Proof.
  induction r as [|r IH]; intros envs job w Hu Hlog Hrefs;
    destruct (unknown_channel_attempt (envs (attemptsMade job)) job w Hu (Hlog _) Hrefs)
      as (e & w1 & Hrun & Hsent & Hlogs & Hrefs1);
    cbn [attempt_loop]; rewrite Hrun.
  - exists e, w1, [log_entry (envs (attemptsMade job)) job
                     (failed_frame w ("Unknown channel: " ++ jd_channel (data job))%string)].
    repeat split; auto. cbn. f_equal. lia.
  - destruct (IH envs (next_attempt job) w1 Hu Hlog Hrefs1)
      as (reason & w' & entries & Hloop & Hsent' & Hlogs' & Hatt & Hall).
    exists reason, w',
      (log_entry (envs (attemptsMade job)) job
         (failed_frame w ("Unknown channel: " ++ jd_channel (data job))%string) :: entries).
    repeat split.
    + exact Hloop.
    + congruence.
    + rewrite Hlogs', Hlogs, <- app_assoc. reflexivity.
    + change (seq 0 (S (S r))) with (0%nat :: seq 1 (S r)).
      rewrite <- seq_shift. cbn [map log_entry log_attempt].
      f_equal; [lia|]. rewrite Hatt, map_map. apply map_ext.
      intros i. cbn [next_attempt attemptsMade]. lia.
    + constructor; [cbn; auto | exact Hall].
Qed.

Lemma unknown_channel_loop_basic : forall r envs job w,
  known_channel (jd_channel (data job)) = false ->
  (forall k, log_create_error (envs k) = None) ->
  exists w' entries,
    attempt_loop Basic.run_processor r envs job w = (Failed "Unknown channel", w')
    /\ sent w' = sent w
    /\ logs w' = (logs w ++ entries)%list
    /\ List.length entries = S r
    /\ Forall (fun e => log_status e = "failed" /\ log_error e = Some "Unknown channel"
                        /\ log_attempt e = 1 /\ log_deliveredAt e = None) entries.
Proof.
  induction r as [|r IH]; intros envs job w Hu Hlog; cbn [attempt_loop];
    rewrite (unknown_channel_attempt_basic _ _ _ Hu (Hlog _)).
  - eexists. eexists. split; [reflexivity|]. split; [reflexivity|].
    split; [reflexivity|]. split; [reflexivity|]. repeat constructor.
  - destruct (IH envs (next_attempt job)
                (with_logs (logs w ++ [Basic.log_entry (envs (attemptsMade job)) job
                                         (failed_frame w "Unknown channel")]) w) Hu Hlog)
      as (w' & entries & Hloop & Hsent & Hlogs & Hlen & Hall).
    exists w', (Basic.log_entry (envs (attemptsMade job)) job
                  (failed_frame w "Unknown channel") :: entries).
    split; [exact Hloop|]. split; [exact Hsent|].
    split; [rewrite Hlogs; cbn [logs with_logs]; rewrite <- app_assoc; reflexivity|].
    split; [cbn; rewrite Hlen; reflexivity|].
    constructor; [repeat split | exact Hall].
Qed.

(** C2 (counterexample): the unsupported channel "fax" is retried like any
    failing delivery: three failed log entries, attempts 1, 2 and 3. *)
Lemma unknown_channel_is_retried :
  known_channel "fax" = false
  /\ map log_attempt (logs (snd (run_job run_processor all_up fax_job empty_world)))
     = [1; 2; 3]
  /\ map log_status (logs (snd (run_job run_processor all_up fax_job empty_world)))
     = ["failed"; "failed"; "failed"].
Proof. repeat split; reflexivity. Qed.

(** C2 (amended): for a job whose channel is outside {email, sms, in-app},
    no channel sender is ever called and every attempt is logged as failed,
    with the error "Unknown channel: <channel>" by the campaign-aware worker
    and "Unknown channel" by the first worker; the failure is retried like
    any other, so a job with an N-attempt policy ends failed after N attempts
    with exactly N log entries, which the campaign-aware worker numbers 1 to
    N.  (Log inserts accepted by the store: it answers, and the template and
    campaign the job names exist.) *)
Theorem unknown_channel_fails_every_attempt (envs : Z -> AttemptEnv) (q : QueuedJob)
  (w : World) :
  known_channel (jd_channel (q_data q)) = false ->
  1 <= attempts (q_opts q) ->
  (forall k, log_create_error (envs k) = None) ->
  (refs_known w (jd_templateId (q_data q)) (jd_campaignId (q_data q)) = true ->
   exists reason w' entries,
     run_job run_processor envs q w = (Failed reason, w')
     /\ sent w' = sent w
     /\ logs w' = (logs w ++ entries)%list
     /\ map log_attempt entries = map Z.of_nat (seq 1 (Z.to_nat (attempts (q_opts q))))
     /\ Forall (fun e => log_status e = "failed"
                         /\ log_error e
                            = Some ("Unknown channel: " ++ jd_channel (q_data q))%string
                         /\ log_deliveredAt e = None) entries)
  /\ (exists w' entries,
        run_job Basic.run_processor envs q w = (Failed "Unknown channel", w')
        /\ sent w' = sent w
        /\ logs w' = (logs w ++ entries)%list
        /\ List.length entries = Z.to_nat (attempts (q_opts q))
        /\ Forall (fun e => log_status e = "failed"
                            /\ log_error e = Some "Unknown channel"
                            /\ log_deliveredAt e = None) entries).
Proof.
  intros Hu Hn Hlog. unfold run_job.
  assert (HN : Z.to_nat (attempts (q_opts q)) = S (Z.to_nat (attempts (q_opts q) - 1)))
    by lia.
  split.
  - intros Hrefs.
    destruct (unknown_channel_loop (Z.to_nat (attempts (q_opts q) - 1)) envs
                {| data := q_data q; opts := q_opts q; attemptsMade := 0 |} w Hu Hlog Hrefs)
      as (reason & w' & entries & Hloop & Hsent & Hlogs & Hatt & Hall).
    exists reason, w', entries. repeat split; auto.
    rewrite Hatt, HN. cbn [attemptsMade].
    rewrite <- seq_shift, map_map. apply map_ext. intros i. lia.
  - destruct (unknown_channel_loop_basic (Z.to_nat (attempts (q_opts q) - 1)) envs
                {| data := q_data q; opts := q_opts q; attemptsMade := 0 |} w Hu Hlog)
      as (w' & entries & Hloop & Hsent & Hlogs & Hlen & Hall).
    exists w', entries. repeat split; auto; [congruence|].
    eapply Forall_impl; [|exact Hall]. cbn. tauto.
Qed.

Lemma unknown_channel_fails_every_attempt_witness :
  (exists reason w' entries,
     run_job run_processor all_up fax_job empty_world = (Failed reason, w')
     /\ sent w' = []
     /\ logs w' = entries
     /\ map log_attempt entries = [1; 2; 3])
  /\ (exists w' entries,
        run_job Basic.run_processor all_up fax_job empty_world
        = (Failed "Unknown channel", w')
        /\ sent w' = []
        /\ logs w' = entries
        /\ List.length entries = 3%nat).
Proof.
  destruct (unknown_channel_fails_every_attempt all_up fax_job empty_world
              eq_refl ltac:(cbn; lia) (fun _ => eq_refl))
    as [Hnew (w0 & entries0 & Hrun0 & Hsent0 & Hlogs0 & Hlen0 & _)].
  destruct (Hnew eq_refl) as (reason & w' & entries & Hrun & Hsent & Hlogs & Hatt & _).
  split.
  - exists reason, w', entries. repeat split; assumption.
  - exists w0, entries0. repeat split; assumption.
Defined.

(** ** Campaign counters under retries *)

(** C1 (failing input): a campaign with one recipient whose delivery fails on
    all three attempts ends with failureCount 3 against totalRecipients 1;
    when the first attempt fails and the second succeeds it ends with
    failureCount 1 and successCount 1.  The worker adds to failureCount on
    every failed attempt, not once per recipient. *)
Theorem counters_exceed_total_after_retries :
  queue solo_started
    = [{| q_name := "send";
          q_data := {| jd_userId := Some 7; jd_to := "a@x.com"; jd_channel := "email";
                       jd_message := "hi"; jd_subject := Some "Welcome";
                       jd_templateId := Some 5; jd_campaignId := Some 1;
                       jd_metadata := None |};
          q_opts := retry_opts |}]
  /\ (exists c,
        find_campaign 1
          (campaigns (run_jobs run_processor (fun _ => sender_down) 0
                        (queue solo_started) solo_started)) = Some c
        /\ c_totalRecipients c = 1 /\ c_successCount c = 0 /\ c_failureCount c = 3
        /\ c_successCount c + c_failureCount c > c_totalRecipients c)
  /\ (exists c,
        find_campaign 1
          (campaigns (run_jobs run_processor (fun _ => flaky) 0
                        (queue solo_started) solo_started)) = Some c
        /\ c_totalRecipients c = 1 /\ c_successCount c = 1 /\ c_failureCount c = 1
        /\ c_successCount c + c_failureCount c > c_totalRecipients c).
Proof.
  split; [reflexivity|]. split; eexists; (split; [reflexivity|]); cbn; repeat split; lia.
Qed.

(** The completion sweep reads the inflated sum as "all recipients
    processed": with two recipients, three failed attempts on the first one
    are enough for the campaign to be completed while nothing was ever sent
    to the second. *)
Lemma completed_before_second_recipient_is_tried :
  map (fun c => (c_status c, c_successCount c, c_failureCount c, c_totalRecipients c))
      (campaigns (snd (completion_sweep noon_completion duo_half_done)))
  = [("completed", 0, 3, 2)]
  /\ sent duo_half_done
     = [SendEmail "a@x.com" "hi" (Some "Welcome");
        SendEmail "a@x.com" "hi" (Some "Welcome");
        SendEmail "a@x.com" "hi" (Some "Welcome")]
  /\ map (fun q => jd_to (q_data q)) (queue duo_half_done) = ["a@x.com"; "b@x.com"].
Proof. repeat split; reflexivity. Qed.

(** ** Log entries *)

(** Whatever happens during an attempt, the campaign-aware processor issues
    one log insert, numbered [attemptsMade + 1]; the entry is stored when the
    store accepts the insert and dropped otherwise. *)
Lemma processor_logs_each_attempt env job w :
  exists e,
    log_attempt e = attemptsMade job + 1
    /\ logs (snd (run_processor env job w))
       = (logs w ++ if log_accepted env job w then [e] else [])%list.
Proof.
  assert (H : exists f,
             logs (snd (run_processor env job w))
             = (logs w ++ if log_accepted env job w
                          then [log_entry env job f] else [])%list).
  { unfold log_accepted. run_attempt.
    unfold dispatch, call_sender, bind, modify, may_reject, ret, throw. js_cbn.
    split_cases_in w;
      try (exists (init_frame w); js_cbn; rewrite ?app_nil_r; reflexivity);
      eexists; reflexivity. }
  destruct H as (f & Hlogs). exists (log_entry env job f). split; [reflexivity|].
  exact Hlogs.
Qed.

(** C3 (failing input): the first worker never passes [attempt] to the log
    insert, so every entry takes the column default 1: a job whose delivery
    fails three times leaves entries numbered 1, 1, 1 where the attempts are
    the first, second and third. *)
Theorem basic_worker_numbers_every_attempt_1 :
  map log_attempt
    (logs (snd (run_job Basic.run_processor sender_down email_job empty_world)))
  = [1; 1; 1]
  /\ map log_attempt
       (logs (snd (run_job run_processor sender_down email_job empty_world)))
     = [1; 2; 3].
Proof. split; reflexivity. Qed.

(** ** A failing log insert *)

(** In the campaign-aware processor the answer to the log insert changes
    neither the outcome of the attempt nor anything but the log table. *)
Lemma log_failure_is_swallowed e env job w :
  fst (run_processor (with_log_error e env) job w) = fst (run_processor env job w)
  /\ sent (snd (run_processor (with_log_error e env) job w))
     = sent (snd (run_processor env job w))
  /\ campaigns (snd (run_processor (with_log_error e env) job w))
     = campaigns (snd (run_processor env job w)).
Proof.
  run_attempt. unfold dispatch, call_sender, bind, modify, may_reject, ret, throw.
  js_cbn. split_cases_in w; repeat split; reflexivity.
Qed.

(** C4 (failing input): in the first worker the log insert sits bare in the
    [finally] block.  When the store rejects it after a successful delivery,
    the processor rejects, the queue retries the job and the message is sent
    a second time. *)
Theorem basic_worker_resends_after_log_failure :
  fst (Basic.run_processor (log_down_once 0)
         {| data := email_data; opts := retry_opts; attemptsMade := 0 |} empty_world)
  = Exn "Connection terminated"
  /\ fst (run_job Basic.run_processor log_down_once email_job empty_world) = Completed
  /\ sent (snd (run_job Basic.run_processor log_down_once email_job empty_world))
     = [SendEmail "a@x.com" "hi" None; SendEmail "a@x.com" "hi" None]
  /\ sent (snd (run_job run_processor log_down_once email_job empty_world))
     = [SendEmail "a@x.com" "hi" None].
Proof. repeat split; reflexivity. Qed.

(** ** deliveredAt *)

(** When the counter update cannot fail - the job has no campaign, or the
    store answers and the campaign row exists - the logged entry has a
    deliveredAt exactly when its status is "success". *)
Lemma deliveredAt_iff_success_when_counter_up env job w e :
  (forall id, jd_campaignId (data job) = Some id -> id <> 0 ->
              success_update_error env = None
              /\ find_campaign id (campaigns w) <> None) ->
  logs (snd (run_processor env job w)) = (logs w ++ [e])%list ->
  (log_deliveredAt e <> None <-> log_status e = "success").
Proof.
  intros Hup. run_attempt.
  unfold dispatch, call_sender, bind, modify, may_reject, ret, throw. js_cbn.
  split_cases_in w; intros Hlogs;
    try (apply app_inv_head in Hlogs; injection Hlogs as <-; cbn;
         split; intros; congruence);
    try (exfalso; rewrite <- app_nil_r in Hlogs at 1;
         apply app_inv_head in Hlogs; discriminate);
    exfalso;
    match goal with
    | Hz : negb (?z =? 0) = true |- _ =>
        apply negb_true_iff, Z.eqb_neq in Hz;
        destruct (Hup z eq_refl Hz) as [Hs Hf]; unfold find_campaign in Hf; congruence
    end.
Qed.

(** C9 (failing input): the sender accepts the message, then the store
    rejects the successCount update.  The [catch] block marks the attempt
    failed while deliveredAt already holds the delivery time, and the
    processor rejects, so the job is retried. *)
Theorem failed_entry_with_deliveredAt :
  map (fun e => (log_status e, log_deliveredAt e))
      (logs (snd (run_processor counter_down campaign42_job campaign42_world)))
  = [("failed", Some 1767225700000)]
  /\ sent (snd (run_processor counter_down campaign42_job campaign42_world))
     = [SendEmail "a@x.com" "hi" (Some "Welcome")]
  /\ fst (run_processor counter_down campaign42_job campaign42_world)
     = Exn "Connection terminated".
Proof. repeat split; reflexivity. Qed.

(** * Further properties *)

(** ** Relations every handler respects

    A preorder on worlds that the store, queue and sender calls respect is
    respected by every handler, whatever the environment answers. *)

Section KeepsCombinators.
Context {S : Type} (R : World -> World -> Prop) (proj : S -> World).
Hypothesis R_refl : forall w, R w w.
Hypothesis R_trans : forall w1 w2 w3, R w1 w2 -> R w2 w3 -> R w1 w3.

Lemma keeps_ret {A} (a : A) : Keeps R proj (ret a).
Proof. intros s. apply R_refl. Qed.

Lemma keeps_throw {A} e : Keeps R proj (@throw S A e).
Proof. intros s. apply R_refl. Qed.

Lemma keeps_get : Keeps R proj (@get S).
Proof. intros s. apply R_refl. Qed.

Lemma keeps_may_reject e : Keeps R proj (@may_reject S e).
Proof. intros s. destruct e; apply R_refl. Qed.

Lemma keeps_modify (f : S -> S) :
  (forall s, R (proj s) (proj (f s))) -> Keeps R proj (modify f).
Proof. intros H s. apply H. Qed.

Lemma keeps_bind {A B} (m : M S A) (k : A -> M S B) :
  Keeps R proj m -> (forall a, Keeps R proj (k a)) -> Keeps R proj (bind m k).
Proof.
  intros Hm Hk s. unfold bind. specialize (Hm s).
  destruct (m s) as [[a|e] s']; cbn in *; auto.
  eapply R_trans; [exact Hm | apply Hk].
Qed.

Lemma keeps_both {A B} (m : M S A) (k : M S B) :
  Keeps R proj m -> Keeps R proj k -> Keeps R proj (both m k).
Proof.
  intros Hm Hk s. unfold both. specialize (Hm s).
  destruct (m s) as [r1 s']. specialize (Hk s'). destruct (k s') as [r2 s''].
  cbn in *. eapply R_trans; [exact Hm | exact Hk].
Qed.

Lemma keeps_try_catch {A} (m : M S A) (h : string -> M S A) :
  Keeps R proj m -> (forall e, Keeps R proj (h e)) -> Keeps R proj (try_catch m h).
Proof.
  intros Hm Hh s. unfold try_catch. specialize (Hm s).
  destruct (m s) as [[a|e] s']; cbn in *; auto.
  eapply R_trans; [exact Hm | apply Hh].
Qed.

Lemma keeps_try_finally {A} (m : M S A) (fin : M S unit) :
  Keeps R proj m -> Keeps R proj fin -> Keeps R proj (try_finally m fin).
Proof.
  intros Hm Hf s. unfold try_finally. specialize (Hm s).
  destruct (m s) as [r s']. specialize (Hf s').
  destruct (fin s') as [[u|e] s'']; cbn in *; eapply R_trans; eauto.
Qed.
End KeepsCombinators.

Lemma keeps_lift (R : World -> World -> Prop) {A} (m : M World A) :
  Keeps R (fun w => w) m -> Keeps R fw (lift m).
Proof.
  intros Hm f. unfold lift. specialize (Hm (fw f)).
  destruct (m (fw f)) as [r w']. exact Hm.
Qed.

Section KeepsHandlers.
Variable R : World -> World -> Prop.
Hypothesis R_refl : forall w, R w w.
Hypothesis R_trans : forall w1 w2 w3, R w1 w2 -> R w2 w3 -> R w1 w3.
Hypothesis K_inc_success :
  forall err id, Keeps R (fun w => w) (campaign_update err id inc_success).
Hypothesis K_inc_failure :
  forall err id, Keeps R (fun w => w) (campaign_update err id inc_failure).
Hypothesis K_set_running :
  forall err id t, Keeps R (fun w => w) (campaign_update err id (set_running t)).
Hypothesis K_set_completed :
  forall err id t, Keeps R (fun w => w) (campaign_update err id (set_completed t)).
Hypothesis K_set_paused :
  forall err id, Keeps R (fun w => w) (campaign_update err id set_paused).
Hypothesis K_campaign_delete :
  forall err id, Keeps R (fun w => w) (campaign_delete err id).
Hypothesis K_log_create :
  forall err entry, Keeps R (fun w => w) (log_create err entry).
Hypothesis K_call_sender :
  forall err c, Keeps R (fun w => w) (call_sender err c).
Hypothesis K_queue_add :
  forall err name d o, Keeps R (fun w => w) (queue_add err name d o).
Hypothesis K_scheduled_update :
  forall err id st, In st ["queued"; "failed"; "cancelled"] ->
    Keeps R (fun w => w) (scheduled_update err id st).
Hypothesis K_scheduled_create :
  forall env u to ch msg subj tid t md,
    Keeps R (fun w => w) (scheduled_create env u to ch msg subj tid t md).
Hypothesis K_clean_logs :
  forall cutoff w,
    R w (with_logs
           (filter (fun l => negb ((log_createdAt l <? cutoff)
                                   && status_in (log_status l) ["success"; "failed"]))
                   (logs w)) w).
Hypothesis K_clean_scheduled :
  forall cutoff w,
    R w (with_scheduled
           (filter (fun n => negb ((sn_createdAt n <? cutoff)
                                   && status_in (sn_status n)
                                        ["sent"; "failed"; "cancelled"]))
                   (scheduled w)) w).

Ltac keeps_step :=
  first
    [ apply keeps_ret; assumption | apply keeps_throw; assumption
    | apply keeps_get; assumption | apply keeps_may_reject; assumption
    | apply K_inc_success | apply K_inc_failure | apply K_set_running
    | apply K_set_completed | apply K_set_paused | apply K_campaign_delete
    | apply K_log_create | apply K_call_sender | apply K_queue_add
    | apply K_scheduled_create
    | apply K_scheduled_update; cbn; tauto
    | apply keeps_lift
    | apply keeps_bind; [assumption | | intro]
    | apply keeps_both; [assumption | | ]
    | apply keeps_try_catch; [assumption | | intro]
    | apply keeps_try_finally; [assumption | | ]
    | match goal with
      | |- Keeps _ _ (match ?x with _ => _ end) => destruct x
      | |- Keeps _ _ (if ?b then _ else _) => destruct b
      end ].

Ltac keeps := repeat keeps_step.

Lemma keeps_check_template env u tid ch msg :
  Keeps R (fun w => w) (check_template env u tid ch msg).
Proof. unfold check_template. keeps. Qed.

Lemma keeps_date_of s : Keeps R (fun w => w) (date_of s).
Proof. unfold date_of. keeps. Qed.

Lemma keeps_create_each env u b t l :
  Keeps R (fun w => w) (create_each env u b t l).
Proof. induction l; cbn [create_each]; keeps. exact IHl. Qed.

Lemma keeps_add_each env u b l : Keeps R (fun w => w) (add_each env u b l).
Proof. induction l; cbn [add_each]; keeps. exact IHl. Qed.

Lemma keeps_queue_recipients env u c tpl l :
  Keeps R (fun w => w) (queue_recipients env u c tpl l).
Proof. induction l; cbn [queue_recipients]; keeps; exact IHl. Qed.

Lemma keeps_promote_each env l : Keeps R (fun w => w) (promote_each env l).
Proof.
  induction l; cbn [promote_each]; [keeps|]. unfold promote_one. keeps. exact IHl.
Qed.

Lemma keeps_complete_each env l : Keeps R (fun w => w) (complete_each env l).
Proof.
  induction l as [|[c p] l IH]; cbn [complete_each]; [keeps|].
  unfold campaign_update_completed. keeps; exact IH.
Qed.

Lemma keeps_post_notify env u b : Keeps R (fun w => w) (post_notify env u b).
Proof.
  unfold post_notify. keeps; try apply keeps_check_template; try apply keeps_date_of.
Qed.

Lemma keeps_post_notify_bulk env u b : Keeps R (fun w => w) (post_notify_bulk env u b).
Proof.
  unfold post_notify_bulk.
  keeps; try apply keeps_check_template; try apply keeps_date_of;
    try apply keeps_create_each; try apply keeps_add_each.
Qed.

Lemma keeps_post_notify_basic env b : Keeps R (fun w => w) (BasicRoute.post_notify env b).
Proof. unfold BasicRoute.post_notify. keeps; apply keeps_date_of. Qed.

Lemma keeps_delete_scheduled env u id : Keeps R (fun w => w) (delete_scheduled env u id).
Proof. unfold delete_scheduled. keeps. Qed.

Lemma keeps_post_campaign_start env u id :
  Keeps R (fun w => w) (post_campaign_start env u id).
Proof. unfold post_campaign_start. keeps; apply keeps_queue_recipients. Qed.

Lemma keeps_post_campaign_pause env u id :
  Keeps R (fun w => w) (post_campaign_pause env u id).
Proof. unfold post_campaign_pause. keeps. Qed.

Lemma keeps_delete_campaign env u id : Keeps R (fun w => w) (delete_campaign env u id).
Proof. unfold delete_campaign. keeps. Qed.

Lemma keeps_post_template_send env u tid to sendAt render :
  Keeps R (fun w => w) (post_template_send env u tid to sendAt render).
Proof. unfold post_template_send. keeps; apply keeps_date_of. Qed.

Lemma keeps_promotion_sweep env : Keeps R (fun w => w) (promotion_sweep env).
Proof. unfold promotion_sweep. keeps. apply keeps_promote_each. Qed.

Lemma keeps_completion_sweep env : Keeps R (fun w => w) (completion_sweep env).
Proof. unfold completion_sweep. keeps. apply keeps_complete_each. Qed.

Lemma keeps_cleanup_sweep env : Keeps R (fun w => w) (cleanup_sweep env).
Proof.
  unfold cleanup_sweep. keeps.
  - apply keeps_modify. intros w. apply K_clean_logs.
  - apply keeps_modify. intros w. apply K_clean_scheduled.
Qed.

Lemma keeps_when_campaign {S} (proj : S -> World) o (k : Z -> M S unit) :
  (forall id, Keeps R proj (k id)) -> Keeps R proj (when_campaign o k).
Proof. intros Hk. unfold when_campaign. keeps. apply Hk. Qed.

Lemma keeps_frame_modify (g : Frame -> Frame) :
  (forall f, fw (g f) = fw f) -> Keeps R fw (modify g).
Proof. intros Hg. apply keeps_modify. intros f. rewrite Hg. apply R_refl. Qed.

Lemma keeps_dispatch env d : Keeps R (fun w => w) (dispatch env d).
Proof. unfold dispatch. keeps. Qed.

Lemma keeps_dispatch_basic env d : Keeps R (fun w => w) (Basic.dispatch env d).
Proof. unfold Basic.dispatch. keeps. Qed.

Lemma keeps_processor env job : Keeps R fw (processor env job).
Proof.
  unfold processor.
  repeat first
    [ apply keeps_frame_modify; reflexivity
    | apply keeps_when_campaign; intro
    | apply keeps_dispatch
    | keeps_step ].
Qed.

Lemma keeps_processor_basic env job : Keeps R fw (Basic.processor env job).
Proof.
  unfold Basic.processor.
  repeat first
    [ apply keeps_frame_modify; reflexivity
    | apply keeps_dispatch_basic
    | keeps_step ].
Qed.

Lemma keeps_run_processor env job w : R w (snd (run_processor env job w)).
Proof.
  unfold run_processor. pose proof (keeps_processor env job (init_frame w)) as H.
  destruct (processor env job (init_frame w)). exact H.
Qed.

Lemma keeps_run_processor_basic env job w : R w (snd (Basic.run_processor env job w)).
Proof.
  unfold Basic.run_processor. pose proof (keeps_processor_basic env job (init_frame w)) as H.
  destruct (Basic.processor env job (init_frame w)). exact H.
Qed.

Lemma keeps_step_all e w : R w (step e w).
Proof.
  destruct e; cbn [step].
  - apply (keeps_post_notify env userId b w).
  - apply (keeps_post_notify_bulk env userId b w).
  - apply (keeps_post_notify_basic env b w).
  - apply (keeps_delete_scheduled env userId notificationId w).
  - apply (keeps_post_campaign_start env userId campaignId w).
  - apply (keeps_post_template_send env userId templateId to sendAt render w).
  - apply (keeps_promotion_sweep env w).
  - apply (keeps_completion_sweep env w).
  - apply (keeps_cleanup_sweep env w).
  - apply keeps_run_processor.
  - apply keeps_run_processor_basic.
Qed.

Lemma keeps_act a w : R w (act a w).
Proof.
  destruct a; cbn [act].
  - apply keeps_step_all.
  - apply (keeps_post_campaign_pause env userId campaignId w).
  - apply (keeps_delete_campaign env userId campaignId w).
Qed.

Lemma keeps_run_actions acts : forall w, R w (run_actions acts w).
Proof.
  induction acts as [|a acts IH]; intros w; cbn.
  - apply R_refl.
  - eapply R_trans; [apply keeps_act | apply IH].
Qed.

Lemma keeps_attempt_loop proc r envs :
  (forall env job w, R w (snd (proc env job w))) ->
  forall job w, R w (snd (attempt_loop proc r envs job w)).
Proof.
  intros Hproc. induction r as [|r IH]; intros job w; cbn [attempt_loop];
    pose proof (Hproc (envs (attemptsMade job)) job w) as H;
    destruct (proc (envs (attemptsMade job)) job w) as [[u|e] w1]; cbn in *; auto.
  eapply R_trans; [exact H | apply IH].
Qed.
End KeepsHandlers.

(** ** Primary keys *)

Lemma filter_keeps_keys_distinct {Row Key : Type} (key : Row -> Key) (keep : Row -> bool) :
  forall rows : list Row, NoDup (map key rows) -> NoDup (map key (filter keep rows)).
Proof.
  intros rows. induction rows as [|row rest IHrest]; intros Hdistinct; cbn in *.
  - constructor.
  - apply NoDup_cons_iff in Hdistinct. destruct Hdistinct as [Hfresh Hrest].
    destruct (keep row); cbn; [|now apply IHrest].
    apply NoDup_cons_iff. split; [|now apply IHrest].
    intros Hin. apply Hfresh. apply in_map_iff in Hin.
    destruct Hin as (other & Hkey & Hother).
    apply filter_In in Hother. rewrite <- Hkey. apply in_map. tauto.
Qed.

Ltac run_primitive :=
  let s := fresh "s" in
  intros s; unfold campaign_update, campaign_delete, log_create, call_sender, queue_add,
    scheduled_update, scheduled_create, bind, may_reject, get, modify, ret, throw;
  repeat match goal with
         | |- context [match ?x with _ => _ end] =>
             lazymatch x with
             | context [match _ with _ => _ end] => fail
             | _ => destruct x eqn:?
             end
         end;
  cbn [fst snd].

Lemma keys_kept_refl w : keys_kept w w.
Proof. split; auto. Qed.

Lemma keys_kept_trans w1 w2 w3 : keys_kept w1 w2 -> keys_kept w2 w3 -> keys_kept w1 w3.
Proof. intros [A B] [C D]. split; auto. Qed.

Lemma keys_kept_campaign_edit err id f :
  (forall c, c_id (f c) = c_id c) ->
  Keeps keys_kept (fun w => w) (campaign_update err id f).
Proof.
  intros Hf. run_primitive; try apply keys_kept_refl.
  split; [auto|]. unfold campaign_keys_ok. cbn.
  rewrite update_campaign_row_ids by exact Hf. auto.
Qed.

Lemma keys_kept_scheduled_edit id f w :
  (forall n, sn_id (f n) = sn_id n) ->
  scheduled_keys_ok w ->
  scheduled_keys_ok (with_scheduled (update_scheduled_row id f (scheduled w)) w).
Proof.
  intros Hf [Hnd Hb]. split; cbn.
  - rewrite update_scheduled_row_ids by exact Hf. exact Hnd.
  - intros n Hn. unfold update_scheduled_row in Hn. apply in_map_iff in Hn.
    destruct Hn as (m & Hm & Hin). specialize (Hb m Hin).
    destruct (sn_id m =? id); subst n; rewrite ?Hf; exact Hb.
Qed.

(** Whatever the handlers do and whatever fails on the way, the ids of the
    ScheduledNotification and NotificationCampaign rows stay unique, and
    every scheduled id stays below the table's counter. *)
Theorem keys_stay_unique (acts : list Action) (w : World) :
  scheduled_keys_ok w ->
  campaign_keys_ok w ->
  scheduled_keys_ok (run_actions acts w) /\ campaign_keys_ok (run_actions acts w).
Proof.
  intros Hs Hc.
  assert (H : keys_kept w (run_actions acts w)).
  { apply keeps_run_actions.
    - apply keys_kept_refl.
    - apply keys_kept_trans.
    - intros. apply keys_kept_campaign_edit. reflexivity.
    - intros. apply keys_kept_campaign_edit. reflexivity.
    - intros. apply keys_kept_campaign_edit. reflexivity.
    - intros. apply keys_kept_campaign_edit. reflexivity.
    - intros. apply keys_kept_campaign_edit. reflexivity.
    - intros err id. run_primitive; try apply keys_kept_refl. split.
      + intros [Hnd Hb]. split; cbn.
        * rewrite map_map. exact Hnd.
        * intros row Hrow. apply in_map_iff in Hrow. destruct Hrow as (m & <- & Hin).
          cbn. auto.
      + unfold campaign_keys_ok. cbn. apply filter_keeps_keys_distinct.
    - intros err entry. run_primitive; apply keys_kept_refl || (split; auto).
    - intros err c. run_primitive; split; auto.
    - intros err name d o. run_primitive; apply keys_kept_refl || (split; auto).
    - intros err id st _. run_primitive; try apply keys_kept_refl.
      split; [|auto]. apply keys_kept_scheduled_edit. reflexivity.
    - intros env u to ch msg subj tid t md. run_primitive; try apply keys_kept_refl.
      + split; [|auto]. intros [Hnd Hb]. split; cbn.
        * rewrite map_app. cbn. apply NoDup_app; [exact Hnd | repeat constructor; auto |].
          intros x Hx [Hx'|[]]. subst x. apply in_map_iff in Hx.
          destruct Hx as (m & Hm & Hin). specialize (Hb m Hin). lia.
        * intros row Hrow. apply in_app_iff in Hrow. destruct Hrow as [Hrow|[Hrow|[]]].
          -- specialize (Hb row Hrow). lia.
          -- subst row. cbn. lia.
      + split; [|auto]. intros [Hnd Hb]. split; cbn; [exact Hnd|].
        intros row Hrow. specialize (Hb row Hrow). lia.
    - intros cutoff w0. split; auto.
    - intros cutoff w0. split; [|auto]. intros [Hnd Hb]. split; cbn.
      + apply filter_keeps_keys_distinct. exact Hnd.
      + intros row Hrow. apply filter_In in Hrow. apply Hb. tauto. }
  destruct H as [H1 H2]. auto.
Qed.

Lemma keys_stay_unique_witness :
  scheduled_keys_ok mixed_world /\ campaign_keys_ok mixed_world /\
  scheduled_keys_ok (run_actions busy_day mixed_world) /\
  campaign_keys_ok (run_actions busy_day mixed_world).
Proof.
  assert (Hs : scheduled_keys_ok mixed_world).
  { split.
    - cbn. repeat constructor; cbn; intuition discriminate.
    - cbn. intros n [H|[H|[H|[]]]]; subst n; cbn; lia. }
  assert (Hc : campaign_keys_ok mixed_world).
  { unfold campaign_keys_ok. cbn. repeat constructor; cbn; intuition. }
  split; [exact Hs|]. split; [exact Hc|].
  apply (keys_stay_unique busy_day mixed_world Hs Hc).
Defined.

(** ** What scheduled notifications never become *)

Lemma plain_kept_same w w' : scheduled w' = scheduled w -> plain_kept w w'.
Proof. intros H Hp m Hm. rewrite H in Hm. auto. Qed.

Lemma plain_kept_trans w1 w2 w3 :
  plain_kept w1 w2 -> plain_kept w2 w3 -> plain_kept w1 w3.
Proof. unfold plain_kept. auto. Qed.

Lemma plain_kept_campaign_edit err id f :
  Keeps plain_kept (fun w => w) (campaign_update err id f).
Proof. run_primitive; apply plain_kept_same; reflexivity. Qed.

Lemma pendingCount_plain c rows :
  (forall m, In m rows -> plain_record m) -> pendingCount c rows = 0.
Proof.
  intros Hp. unfold pendingCount.
  replace (filter _ rows) with (@nil ScheduledNotification); [reflexivity|].
  symmetry. induction rows as [|r rows IH]; [reflexivity|]. cbn [filter].
  destruct (Hp r (or_introl eq_refl)) as [Hc _]. rewrite Hc.
  apply IH. intros m Hm. apply Hp. right. exact Hm.
Qed.

(** No handler ever ties a scheduled notification to a campaign or gives it
    a status other than pending, queued, failed or cancelled (in particular
    never "sent"): if the table starts that way it stays that way, and then
    the completion sweep's count of outstanding scheduled notifications is 0
    for every campaign, always. *)
Theorem scheduled_never_sent_never_linked (acts : list Action) (w : World) :
  (forall m, In m (scheduled w) -> plain_record m) ->
  (forall m, In m (scheduled (run_actions acts w)) ->
     sn_campaignId m = None /\
     (sn_status m = "pending" \/ sn_status m = "queued"
      \/ sn_status m = "failed" \/ sn_status m = "cancelled"))
  /\ (forall c, pendingCount c (scheduled (run_actions acts w)) = 0).
Proof.
  intros Hp.
  assert (H : plain_kept w (run_actions acts w)).
  { apply keeps_run_actions.
    - intros w0. apply plain_kept_same. reflexivity.
    - apply plain_kept_trans.
    - intros. apply plain_kept_campaign_edit.
    - intros. apply plain_kept_campaign_edit.
    - intros. apply plain_kept_campaign_edit.
    - intros. apply plain_kept_campaign_edit.
    - intros. apply plain_kept_campaign_edit.
    - intros err id. run_primitive; try (apply plain_kept_same; reflexivity).
      intros Hall row Hrow. cbn in Hrow. apply in_map_iff in Hrow.
      destruct Hrow as (m & <- & Hin). destruct (Hall m Hin) as [Hc Hst].
      split; cbn; [rewrite Hc; reflexivity | exact Hst].
    - intros err entry. run_primitive; apply plain_kept_same; reflexivity.
    - intros err c. run_primitive; apply plain_kept_same; reflexivity.
    - intros err name d o. run_primitive; apply plain_kept_same; reflexivity.
    - intros err id st Hst. run_primitive; try (apply plain_kept_same; reflexivity).
      intros Hall row Hrow. cbn in Hrow. unfold update_scheduled_row in Hrow.
      apply in_map_iff in Hrow. destruct Hrow as (m & <- & Hin).
      destruct (Hall m Hin) as [Hc Hw]. destruct (sn_id m =? id); [|split; auto].
      split; [exact Hc|]. cbn in Hst |- *.
      destruct Hst as [<-|[<-|[<-|[]]]]; reflexivity.
    - intros env u to ch msg subj tid t md. run_primitive;
        try (apply plain_kept_same; reflexivity).
      intros Hall row Hrow. cbn in Hrow. apply in_app_iff in Hrow.
      destruct Hrow as [Hrow|[<-|[]]]; [auto|]. split; reflexivity.
    - intros cutoff w0. apply plain_kept_same. reflexivity.
    - intros cutoff w0 Hall row Hrow. cbn in Hrow. apply filter_In in Hrow.
      apply Hall. tauto. }
  specialize (H Hp). split.
  - intros m Hm. destruct (H m Hm) as [Hc Hst]. split; [exact Hc|].
    unfold written_status, status_in in Hst. cbn [existsb] in Hst.
    repeat (apply orb_true_iff in Hst; destruct Hst as [Hst|Hst]);
      try discriminate; apply String.eqb_eq in Hst; auto.
  - intros c. apply pendingCount_plain. exact H.
Qed.

Lemma scheduled_never_sent_never_linked_witness :
  (forall m, In m (scheduled mixed_world) -> plain_record m)
  /\ (forall c, pendingCount c (scheduled (run_actions busy_day mixed_world)) = 0).
Proof.
  assert (Hp : forall m, In m (scheduled mixed_world) -> plain_record m).
  { cbn. intros m [H|[H|[H|[]]]]; subst m; split; reflexivity. }
  split; [exact Hp|].
  apply (scheduled_never_sent_never_linked busy_day mixed_world Hp).
Defined.

(** ** Retention cleanup *)

(** The cleanup only ever removes rows, and never a row that is younger
    than the cutoff or not in a terminal status: logs that are neither
    "success" nor "failed" and scheduled notifications that are neither
    "sent", "failed" nor "cancelled" (so pending and queued ones) survive
    every run, whatever the store answers. *)
Theorem cleanup_spares_recent_and_live_rows (env : CleanupEnv) (w : World) :
  let w' := snd (cleanup_sweep env w) in
  (forall l, In l (logs w') -> In l (logs w))
  /\ (forall n, In n (scheduled w') -> In n (scheduled w))
  /\ (forall l, In l (logs w) ->
        thirtyDaysAgo env <= log_createdAt l
        \/ (log_status l <> "success" /\ log_status l <> "failed") ->
        In l (logs w'))
  /\ (forall n, In n (scheduled w) ->
        thirtyDaysAgo env <= sn_createdAt n
        \/ (sn_status n <> "sent" /\ sn_status n <> "failed"
            /\ sn_status n <> "cancelled") ->
        In n (scheduled w'))
  /\ campaigns w' = campaigns w /\ queue w' = queue w.
Proof.
  assert (Hlog : forall l, In l (logs w) ->
            thirtyDaysAgo env <= log_createdAt l
            \/ (log_status l <> "success" /\ log_status l <> "failed") ->
            In l (filter (fun l => negb ((log_createdAt l <? thirtyDaysAgo env)
                                         && status_in (log_status l) ["success"; "failed"]))
                         (logs w))).
  { intros l Hl Hkeep. apply filter_In. split; [exact Hl|].
    apply negb_true_iff, andb_false_iff. destruct Hkeep as [Hy|[H1 H2]].
    - left. apply Z.ltb_ge. exact Hy.
    - right. unfold status_in. cbn [existsb].
      apply String.eqb_neq in H1, H2. rewrite H1, H2. reflexivity. }
  assert (Hsn : forall n, In n (scheduled w) ->
            thirtyDaysAgo env <= sn_createdAt n
            \/ (sn_status n <> "sent" /\ sn_status n <> "failed"
                /\ sn_status n <> "cancelled") ->
            In n (filter (fun n => negb ((sn_createdAt n <? thirtyDaysAgo env)
                                         && status_in (sn_status n)
                                              ["sent"; "failed"; "cancelled"]))
                         (scheduled w))).
  { intros n Hn Hkeep. apply filter_In. split; [exact Hn|].
    apply negb_true_iff, andb_false_iff. destruct Hkeep as [Hy|(H1 & H2 & H3)].
    - left. apply Z.ltb_ge. exact Hy.
    - right. unfold status_in. cbn [existsb].
      apply String.eqb_neq in H1, H2, H3. rewrite H1, H2, H3. reflexivity. }
  unfold cleanup_sweep, try_catch, bind, may_reject, modify, ret, throw.
  destruct (logs_delete_error env), (scheduled_delete_error env); cbn;
    repeat split; auto; intros x Hx; apply filter_In in Hx; tauto.
Qed.

Lemma cleanup_spares_recent_and_live_rows_witness :
  map sn_id (scheduled (snd (cleanup_sweep spring_cleaning attic_world))) = [1; 2; 5]
  /\ In (old_record 2 "queued" 1000)
        (scheduled (snd (cleanup_sweep spring_cleaning attic_world)))
  /\ In (old_log "pending" 1000) (logs (snd (cleanup_sweep spring_cleaning attic_world))).
Proof.
  destruct (cleanup_spares_recent_and_live_rows spring_cleaning attic_world)
    as (_ & _ & Hlogs & Hsn & _).
  split; [reflexivity|]. split.
  - apply Hsn; [cbn; tauto|]. right. cbn. repeat split; discriminate.
  - apply Hlogs; [cbn; tauto|]. right. cbn. split; discriminate.
Defined.

(** With the store answering, the cleanup deletes exactly the logs older
    than the cutoff with status success or failed and exactly the scheduled
    notifications older than the cutoff with status sent, failed or
    cancelled.  The two deletions are separate: when the first is refused
    nothing is deleted; when only the second is refused the logs are gone
    and the scheduled table is untouched. *)
Theorem cleanup_deletes_exactly_old_terminal_rows (env : CleanupEnv) (w : World) :
  let w' := snd (cleanup_sweep env w) in
  (logs_delete_error env = None -> scheduled_delete_error env = None ->
     (forall l, In l (logs w') <->
        In l (logs w) /\ ~ (log_createdAt l < thirtyDaysAgo env /\
                            (log_status l = "success" \/ log_status l = "failed")))
     /\ (forall n, In n (scheduled w') <->
           In n (scheduled w) /\
           ~ (sn_createdAt n < thirtyDaysAgo env /\
              (sn_status n = "sent" \/ sn_status n = "failed"
               \/ sn_status n = "cancelled"))))
  /\ (logs_delete_error env <> None -> w' = w)
  /\ (logs_delete_error env = None -> scheduled_delete_error env <> None ->
        scheduled w' = scheduled w
        /\ forall l, In l (logs w') <->
             In l (logs w) /\ ~ (log_createdAt l < thirtyDaysAgo env /\
                                 (log_status l = "success" \/ log_status l = "failed"))).
Proof.
  assert (Hlog : forall l,
            negb ((log_createdAt l <? thirtyDaysAgo env)
                  && status_in (log_status l) ["success"; "failed"]) = true
            <-> ~ (log_createdAt l < thirtyDaysAgo env /\
                   (log_status l = "success" \/ log_status l = "failed"))).
  { intros l. rewrite negb_true_iff. unfold status_in. cbn [existsb].
    rewrite orb_false_r. rewrite <- not_true_iff_false.
    rewrite andb_true_iff, orb_true_iff, Z.ltb_lt, !String.eqb_eq. tauto. }
  assert (Hsn : forall n,
            negb ((sn_createdAt n <? thirtyDaysAgo env)
                  && status_in (sn_status n) ["sent"; "failed"; "cancelled"]) = true
            <-> ~ (sn_createdAt n < thirtyDaysAgo env /\
                   (sn_status n = "sent" \/ sn_status n = "failed"
                    \/ sn_status n = "cancelled"))).
  { intros n. rewrite negb_true_iff. unfold status_in. cbn [existsb].
    rewrite orb_false_r. rewrite <- not_true_iff_false.
    rewrite andb_true_iff, !orb_true_iff, Z.ltb_lt, !String.eqb_eq. tauto. }
  unfold cleanup_sweep, try_catch, bind, may_reject, modify, ret, throw.
  destruct (logs_delete_error env) as [e1|], (scheduled_delete_error env) as [e2|];
    cbn [fst snd logs scheduled with_logs with_scheduled];
    repeat match goal with
           | |- _ /\ _ => split
           | |- _ <-> _ => split
           | |- _ -> _ => intro
           | |- forall _, _ => intro
           end;
    try congruence; try reflexivity;
    repeat match goal with
           | H : In _ (filter _ _) |- _ => apply filter_In in H; destruct H
           | H : _ /\ _ |- _ => destruct H
           | |- In _ (filter _ _) => apply filter_In; split
           end;
    try assumption;
    first [ apply Hlog; assumption | apply Hsn; assumption
          | eapply Hlog; eassumption | eapply Hsn; eassumption ].
Qed.

Lemma cleanup_deletes_exactly_old_terminal_rows_witness :
  map log_status (logs (snd (cleanup_sweep spring_cleaning attic_world)))
    = ["pending"; "failed"]
  /\ ~ In (old_record 3 "cancelled" 1000)
         (scheduled (snd (cleanup_sweep spring_cleaning attic_world))).
Proof.
  destruct (cleanup_deletes_exactly_old_terminal_rows spring_cleaning attic_world)
    as (Hexact & _).
  destruct (Hexact eq_refl eq_refl) as [_ Hsn].
  split; [reflexivity|].
  intros Hin. apply Hsn in Hin. destruct Hin as [_ Hkeep]. apply Hkeep.
  cbn. split; [lia | tauto].
Defined.

(** ** Promotion sweep when calls fail *)

Lemma Forall2_compose {A} (P Q T : A -> A -> Prop) :
  (forall a b c, P a b -> Q b c -> T a c) ->
  forall l1 l2 l3, Forall2 P l1 l2 -> Forall2 Q l2 l3 -> Forall2 T l1 l3.
Proof.
  intros H l1 l2 l3 H12. revert l3. induction H12; intros l3 H23; inversion H23; subst.
  - constructor.
  - constructor; eauto.
Qed.

Lemma Forall2_same {A} (P : A -> A -> Prop) :
  (forall a, P a a) -> forall l, Forall2 P l l.
Proof. intros H l. induction l; constructor; auto. Qed.

Lemma Forall2_map_r {A} (P : A -> A -> Prop) (f : A -> A) :
  (forall a, P a (f a)) -> forall l, Forall2 P l (map f l).
Proof. intros H l. induction l; cbn; constructor; auto. Qed.

Lemma touched_after_update id st rows :
  st = "queued" \/ st = "failed" ->
  Forall2 (touched_by_sweep [id]) rows (update_scheduled_row id (set_sn_status st) rows).
Proof.
  intros Hst. apply Forall2_map_r. intros m. unfold touched_by_sweep.
  destruct (Z.eqb_spec (sn_id m) id) as [Heq|Hne]; [|auto].
  right. split; [left; auto|]. destruct Hst; subst st; auto.
Qed.

Lemma touched_compose ids1 ids2 a b c :
  touched_by_sweep ids1 a b -> touched_by_sweep ids2 b c ->
  touched_by_sweep (ids1 ++ ids2) a c.
Proof.
  unfold touched_by_sweep. intros [->|[Hin1 Hb]] [->|[Hin2 Hc]].
  - auto.
  - right. split; [apply in_or_app; auto|]. exact Hc.
  - right. split; [apply in_or_app; auto|]. exact Hb.
  - right. split; [apply in_or_app; auto|].
    destruct Hb as [->| ->], Hc as [->| ->]; auto.
Qed.

Lemma promote_one_any env n w :
  let w' := snd (promote_one env n w) in
  Forall2 (touched_by_sweep [sn_id n]) (scheduled w) (scheduled w')
  /\ (queue w' = queue w \/ queue w' = (queue w ++ [promoted_job n])%list)
  /\ same_outside_sweep w w'.
Proof.
  unfold promote_one, try_catch, bind, queue_add, scheduled_update, bind, may_reject,
    get, modify, ret, throw, same_outside_sweep.
  destruct (add_error env (sn_id n)), (mark_queued_error env (sn_id n)),
    (mark_failed_error env (sn_id n)); cbn;
    repeat (match goal with
            | |- context [match find ?f ?l with _ => _ end] => destruct (find f l)
            end; cbn);
    repeat split; auto;
    first [ apply Forall2_same; left; reflexivity
          | apply touched_after_update; auto ].
Qed.

Lemma promote_each_any env : forall l w,
  let w' := snd (promote_each env l w) in
  Forall2 (touched_by_sweep (map sn_id l)) (scheduled w) (scheduled w')
  /\ (exists js, queue w' = (queue w ++ js)%list
                 /\ forall j, In j js -> exists n, In n l /\ j = promoted_job n)
  /\ same_outside_sweep w w'.
Proof.
  induction l as [|n l IH]; intros w.
  - cbn. split; [apply Forall2_same; left; reflexivity|].
    split; [exists []; rewrite app_nil_r; split; [reflexivity | contradiction]|].
    repeat split.
  - cbn [promote_each]. unfold bind.
    pose proof (promote_one_any env n w) as (H1 & H2 & H3).
    destruct (promote_one env n w) as [[u|e] w1]; cbn [snd] in *.
    + pose proof (IH w1) as (H1' & (js & Hq & Hjs) & H3').
      split; [|split].
      * apply (Forall2_compose _ _ _ (touched_compose [sn_id n] (map sn_id l)) _ _ _ H1 H1').
      * destruct H2 as [H2|H2]; rewrite Hq, H2.
        -- exists js. split; [reflexivity|]. intros j Hj.
           destruct (Hjs j Hj) as (m & Hm & ->). exists m. split; [right|]; auto.
        -- exists (promoted_job n :: js). rewrite <- app_assoc. split; [reflexivity|].
           intros j [<-|Hj]; [exists n; split; [left|]; auto|].
           destruct (Hjs j Hj) as (m & Hm & ->). exists m. split; [right|]; auto.
      * unfold same_outside_sweep in *. intuition congruence.
    + split; [|split].
      * eapply Forall2_impl; [|exact H1]. intros a b [->|[Hin Hb]]; [left; auto|].
        right. split; [|exact Hb]. destruct Hin as [<-|[]]. left. reflexivity.
      * destruct H2 as [H2|H2]; rewrite H2.
        -- exists []. rewrite app_nil_r. split; [reflexivity | contradiction].
        -- exists [promoted_job n]. split; [reflexivity|].
           intros j [<-|[]]. exists n. split; [left|]; auto.
      * exact H3.
Qed.

Lemma Forall2_impl_In {A} (P Q : A -> A -> Prop) (l l' : list A) :
  (forall a b, In a l -> P a b -> Q a b) -> Forall2 P l l' -> Forall2 Q l l'.
Proof.
  intros H H12. induction H12 as [|a b l l' Hab H12 IH]; constructor.
  - apply H; [left; reflexivity | exact Hab].
  - apply IH. intros x y Hx. apply H. right. exact Hx.
Qed.

Lemma promotion_sweep_after env w :
  snd (promotion_sweep env w) =
  match find_error env with
  | Some _ => w
  | None => snd (promote_each env (dueNotifications (sweep_now env) (scheduled w)) w)
  end.
Proof.
  unfold promotion_sweep, try_catch, bind, may_reject, get, ret, throw.
  destruct (find_error env); [reflexivity|].
  destruct (promote_each env _ w) as [[u|e] w1]; reflexivity.
Qed.

(** Whatever the store and the queue answer during a promotion sweep, the
    sweep only touches due records - each row is left as it was or is a due
    record moved to queued or failed - no row appears or disappears, every
    job added to the queue is the job of a due record, and nothing else in
    the store changes. *)
Theorem promotion_touches_only_due (env : SweepEnv) (w : World) :
  NoDup (map sn_id (scheduled w)) ->
  let w' := snd (promotion_sweep env w) in
  Forall2 (fun m m' =>
             m' = m \/
             (sn_status m = "pending" /\ sn_sendAt m <= sweep_now env /\
              (m' = set_sn_status "queued" m \/ m' = set_sn_status "failed" m)))
          (scheduled w) (scheduled w')
  /\ (exists js, queue w' = (queue w ++ js)%list
                 /\ forall j, In j js ->
                      exists n, In n (scheduled w) /\ sn_status n = "pending"
                                /\ sn_sendAt n <= sweep_now env /\ j = promoted_job n)
  /\ same_outside_sweep w w'.
Proof.
  intros Hnd w'. subst w'. rewrite promotion_sweep_after.
  destruct (find_error env) as [e|].
  - split; [apply Forall2_same; auto|].
    split; [exists []; rewrite app_nil_r; split; [reflexivity | contradiction]|].
    repeat split.
  - pose proof (promote_each_any env (dueNotifications (sweep_now env) (scheduled w)) w)
      as (H1 & (js & Hq & Hjs) & H3).
    set (w1 := snd (promote_each env (dueNotifications (sweep_now env) (scheduled w)) w))
      in *.
    split; [|split; [|exact H3]].
    all: try (exists js; split; [exact Hq|]; intros j Hj;
              destruct (Hjs j Hj) as (n & Hn & ->); exists n;
              apply filter_In in Hn; destruct Hn as [Hn Hd];
              apply is_due_iff in Hd; tauto).
    eapply Forall2_impl_In; [|exact H1]. cbv beta. intros m m' Hin Hm.
    destruct Hm as [->|[Hid Hm]]; [left; reflexivity|]. right.
    apply in_map_iff in Hid. destruct Hid as (n & Hid & Hn).
    apply filter_In in Hn. destruct Hn as [Hn Hd].
    assert (n = m) by (apply (same_key_same_row sn_id (scheduled w)); auto).
    subst n. apply is_due_iff in Hd. tauto.
Qed.

Lemma promotion_touches_only_due_witness :
  NoDup (map sn_id (scheduled scheduled_world))
  /\ Forall2 (fun m m' =>
                m' = m \/
                (sn_status m = "pending" /\ sn_sendAt m <= 1767225600000 /\
                 (m' = set_sn_status "queued" m \/ m' = set_sn_status "failed" m)))
             (scheduled scheduled_world)
             (scheduled (snd (promotion_sweep (queued_write_down 1767225600000)
                                scheduled_world))).
Proof.
  assert (Hnd : NoDup (map sn_id (scheduled scheduled_world)))
    by (cbn; repeat constructor; cbn; intuition discriminate).
  split; [exact Hnd|].
  apply (promotion_touches_only_due (queued_write_down 1767225600000) scheduled_world Hnd).
Defined.

Lemma promote_one_marked_failed env n w :
  add_error env (sn_id n) = None ->
  mark_queued_error env (sn_id n) <> None ->
  mark_failed_error env (sn_id n) = None ->
  In (sn_id n) (map sn_id (scheduled w)) ->
  promote_one env n w =
    (Val tt,
     with_scheduled
       (update_scheduled_row (sn_id n) (set_sn_status "failed") (scheduled w))
       (with_queue (queue w ++ [promoted_job n]) w)).
Proof.
  intros Ha Hq Hf Hin. apply find_by_id_some in Hin.
  unfold promote_one, try_catch, bind, queue_add, scheduled_update, bind, may_reject,
    get, modify, ret, throw.
  rewrite Ha, Hf. destruct (mark_queued_error env (sn_id n)); [|congruence]. cbn.
  destruct (find (fun n0 => sn_id n0 =? sn_id n) (scheduled w)); [reflexivity|congruence].
Qed.

Lemma promote_each_marked_failed env : forall l w,
  (forall id, add_error env id = None) ->
  (forall id, mark_queued_error env id <> None) ->
  (forall id, mark_failed_error env id = None) ->
  incl (map sn_id l) (map sn_id (scheduled w)) ->
  promote_each env l w =
    (Val tt,
     with_scheduled (rows_after (refusing env) (map sn_id l) (scheduled w))
       (with_queue (queue w ++ map promoted_job l) w)).
Proof.
  induction l as [|n l IH]; intros w Ha Hq Hf Hincl.
  - cbn. unfold ret, rows_after. cbn. rewrite app_nil_r, map_id. destruct w; reflexivity.
  - cbn [promote_each]. unfold bind at 1.
    rewrite promote_one_marked_failed; auto; [|apply Hincl; left; reflexivity].
    rewrite IH; auto.
    + f_equal. cbn [scheduled with_scheduled queue with_queue map].
      rewrite (rows_after_cons (refusing env) n). rewrite <- app_assoc. reflexivity.
    + cbn [scheduled with_scheduled].
      rewrite update_scheduled_row_ids by reflexivity.
      intros id Hid. apply Hincl. right. exact Hid.
Qed.

(** When the queue takes the jobs but the store refuses the update to
    "queued", the [catch] block marks each due record "failed" although its
    job is in the queue and will be delivered. *)
Theorem failed_though_enqueued (env : SweepEnv) (w : World) :
  find_error env = None ->
  (forall id, add_error env id = None) ->
  (forall id, mark_queued_error env id <> None) ->
  (forall id, mark_failed_error env id = None) ->
  NoDup (map sn_id (scheduled w)) ->
  promotion_sweep env w =
    (Val tt,
     with_scheduled
       (map (fun n => if is_due (sweep_now env) n then set_sn_status "failed" n else n)
            (scheduled w))
       (with_queue
          (queue w ++ map promoted_job (dueNotifications (sweep_now env) (scheduled w)))
          w)).
Proof.
  intros Hfind Ha Hq Hf Hnd.
  unfold promotion_sweep, try_catch, bind at 1, may_reject. rewrite Hfind.
  unfold ret at 1, bind at 1, get.
  rewrite promote_each_marked_failed; auto.
  - rewrite (rows_after_due (refusing env)) by exact Hnd. reflexivity.
  - intros id Hid. apply in_map_iff in Hid. destruct Hid as (n & Hid & Hn).
    apply filter_In in Hn. subst id. apply in_map. tauto.
Qed.

Lemma failed_though_enqueued_witness :
  map sn_status
      (scheduled (snd (promotion_sweep (queued_write_down 1767225600000) scheduled_world)))
    = ["failed"; "pending"; "failed"]
  /\ map (fun q => jd_to (q_data q))
         (queue (snd (promotion_sweep (queued_write_down 1767225600000) scheduled_world)))
     = ["a@x.com"; "c@x.com"].
Proof.
  rewrite (failed_though_enqueued (queued_write_down 1767225600000) scheduled_world
             eq_refl (fun _ => eq_refl)
             (fun _ H => ltac:(discriminate H)) (fun _ => eq_refl)
             ltac:(cbn; repeat constructor; cbn; intuition discriminate)).
  split; reflexivity.
Defined.

(** When the store refuses both status updates of the first due record,
    the sweep stops there: that record's job is in the queue, every record
    is still pending, and a later sweep that finds the store healthy adds the
    same record's job a second time. *)
Theorem job_enqueued_twice_after_refused_writes (env env2 : SweepEnv) (w : World)
  (n : ScheduledNotification) (rest : list ScheduledNotification) :
  dueNotifications (sweep_now env) (scheduled w) = n :: rest ->
  find_error env = None ->
  add_error env (sn_id n) = None ->
  mark_queued_error env (sn_id n) <> None ->
  mark_failed_error env (sn_id n) <> None ->
  NoDup (map sn_id (scheduled w)) ->
  sweep_store_up env2 ->
  add_error env2 (sn_id n) = None ->
  sn_sendAt n <= sweep_now env2 ->
  promotion_sweep env w = (Val tt, with_queue (queue w ++ [promoted_job n]) w)
  /\ exists q1 q2,
       queue (snd (promotion_sweep env2 (snd (promotion_sweep env w))))
       = (queue w ++ [promoted_job n] ++ q1 ++ [promoted_job n] ++ q2)%list.
Proof.
  intros Hdue Hfind Ha Hq Hf Hnd Hup2 Ha2 Hlate.
  assert (Hin : In n (dueNotifications (sweep_now env) (scheduled w)))
    by (rewrite Hdue; left; reflexivity).
  apply filter_In in Hin. destruct Hin as [Hin Hd]. apply is_due_iff in Hd.
  assert (Hfirst : promotion_sweep env w
                   = (Val tt, with_queue (queue w ++ [promoted_job n]) w)).
  { unfold promotion_sweep, try_catch, bind at 1, may_reject. rewrite Hfind.
    unfold ret at 1, bind at 1, get. rewrite Hdue. cbn [promote_each].
    unfold bind at 1, promote_one, try_catch, bind, queue_add, scheduled_update, bind,
      may_reject, get, modify, ret, throw.
    rewrite Ha.
    destruct (mark_queued_error env (sn_id n)); [|congruence].
    destruct (mark_failed_error env (sn_id n)); [|congruence].
    reflexivity. }
  split; [exact Hfirst|]. rewrite Hfirst. cbn [snd].
  rewrite promotion_sweep_up; [|exact Hup2|exact Hnd]. cbn [snd queue with_queue with_scheduled scheduled].
  assert (Hn2 : In n (filter (add_accepted env2)
                        (dueNotifications (sweep_now env2) (scheduled w)))).
  { apply filter_In. split.
    - apply filter_In. split; [exact Hin|]. apply is_due_iff. tauto.
    - unfold add_accepted. rewrite Ha2. reflexivity. }
  apply in_split in Hn2. destruct Hn2 as (l1 & l2 & Hsplit). rewrite Hsplit.
  exists (map promoted_job l1), (map promoted_job l2).
  rewrite map_app. cbn [map]. rewrite <- !app_assoc. reflexivity.
Qed.

Lemma job_enqueued_twice_after_refused_writes_witness :
  promotion_sweep (writes_down 1767225600000) scheduled_world
    = (Val tt, with_queue [promoted_job due_record] scheduled_world)
  /\ map (fun q => jd_to (q_data q))
         (queue (snd (promotion_sweep (healthy_sweep 1767225660000)
                        (snd (promotion_sweep (writes_down 1767225600000)
                                scheduled_world)))))
     = ["a@x.com"; "a@x.com"; "c@x.com"].
Proof.
  destruct (job_enqueued_twice_after_refused_writes (writes_down 1767225600000)
              (healthy_sweep 1767225660000) scheduled_world due_record [unlucky_record]
              eq_refl eq_refl eq_refl ltac:(discriminate) ltac:(discriminate)
              ltac:(cbn; repeat constructor; cbn; intuition discriminate)
              ltac:(repeat split; reflexivity) eq_refl ltac:(cbn; lia))
    as (Hfirst & _).
  split; [exact Hfirst | reflexivity].
Defined.

(** ** Completion sweep when calls fail *)

Lemma completed_after_update now id rows :
  Forall2 (touched_by_completion now [id]) rows
          (update_campaign_row id (set_completed now) rows).
Proof.
  apply Forall2_map_r. intros c. unfold touched_by_completion.
  destruct (Z.eqb_spec (c_id c) id) as [Heq|Hne]; [|auto].
  right. split; [left; auto | reflexivity].
Qed.

Lemma completion_compose now ids1 ids2 a b c :
  touched_by_completion now ids1 a b -> touched_by_completion now ids2 b c ->
  touched_by_completion now (ids1 ++ ids2) a c.
Proof.
  unfold touched_by_completion. intros [->|[Hin1 ->]] [->|[Hin2 ->]].
  - auto.
  - right. split; [apply in_or_app; auto | reflexivity].
  - right. split; [apply in_or_app; auto | reflexivity].
  - right. split; [apply in_or_app; auto | reflexivity].
Qed.

Lemma snd_bind {S A B} (m : M S A) (k : A -> M S B) (s : S) :
  snd (bind m k s) =
  match m s with
  | (Val a, s') => snd (k a s')
  | (Exn _, s') => s'
  end.
Proof. unfold bind. destruct (m s) as [[a|e] s']; reflexivity. Qed.

Lemma complete_each_any env : forall l w,
  let w' := snd (complete_each env l w) in
  Forall2 (touched_by_completion (completion_now env)
             (map (fun row => c_id (fst row)) (filter ready l)))
          (campaigns w) (campaigns w')
  /\ same_outside_completion w w'.
Proof.
  induction l as [|[c p] l IH]; intros w.
  - cbn. split; [apply Forall2_same; left; reflexivity | repeat split].
  - cbn [complete_each filter]. unfold ready at 1. cbn [fst snd].
    destruct ((p =? 0) && (c_successCount c + c_failureCount c >=? c_totalRecipients c)).
    + rewrite snd_bind.
      assert (H1 : Forall2 (touched_by_completion (completion_now env) [c_id c])
                     (campaigns w)
                     (campaigns (snd (campaign_update_completed
                                        (complete_error env (c_id c)) (c_id c)
                                        (completion_now env) w)))
                   /\ same_outside_completion w
                        (snd (campaign_update_completed (complete_error env (c_id c))
                                (c_id c) (completion_now env) w))).
      { unfold campaign_update_completed, campaign_update, bind, may_reject, get, modify,
          ret, throw, same_outside_completion.
        destruct (complete_error env (c_id c)); cbn;
          [|destruct (find_campaign (c_id c) (campaigns w)); cbn];
          repeat split; auto;
          first [ apply Forall2_same; left; reflexivity | apply completed_after_update ]. }
      destruct H1 as [H1 H1'].
      destruct (campaign_update_completed _ _ _ w) as [[u|e] w1]; cbn [snd map fst] in *.
      * pose proof (IH w1) as [H2 H2']. split.
        -- apply (Forall2_compose _ _ _
                    (completion_compose (completion_now env) [c_id c] _) _ _ _ H1 H2).
        -- unfold same_outside_completion in *. intuition congruence.
      * split; [|exact H1'].
        eapply Forall2_impl; [|exact H1]. intros a b [->|[Hin ->]]; [left; auto|].
        right. split; [|reflexivity]. destruct Hin as [<-|[]]. left. reflexivity.
    + rewrite snd_bind. unfold ret. apply IH.
Qed.

(** Whatever the store answers during a completion sweep, each campaign row
    is either left exactly as it was or was running, with no outstanding
    scheduled notification and its counters at totalRecipients, and is now
    completed with completedAt = now; no row appears or disappears, and no
    other table changes.  So a campaign that is draft, scheduled, paused or
    already completed is never rewritten, and completedAt is stamped once. *)
Theorem completion_touches_only_ready (env : CompletionEnv) (w : World) :
  campaign_keys_ok w ->
  let w' := snd (completion_sweep env w) in
  Forall2 (fun c c' =>
             c' = c \/
             (c_status c = "running" /\ pendingCount c (scheduled w) = 0
              /\ c_successCount c + c_failureCount c >= c_totalRecipients c
              /\ c' = set_completed (completion_now env) c))
          (campaigns w) (campaigns w')
  /\ same_outside_completion w w'.
Proof.
  intros Hnd w'.
  assert (Hafter : w' = match running_find_error env with
                        | Some _ => w
                        | None => snd (complete_each env (runningCampaigns w) w)
                        end).
  { subst w'. unfold completion_sweep, try_catch, bind, may_reject, get, ret, throw.
    destruct (running_find_error env); [reflexivity|].
    destruct (complete_each env _ w) as [[u|e] w1]; reflexivity. }
  rewrite Hafter. destruct (running_find_error env).
  - split; [apply Forall2_same; auto | repeat split].
  - pose proof (complete_each_any env (runningCampaigns w) w) as [H1 H2].
    split; [|exact H2].
    eapply Forall2_impl_In; [|exact H1]. cbv beta. intros c c' Hin Hc.
    destruct Hc as [->|[Hid ->]]; [left; reflexivity|]. right.
    apply in_map_iff in Hid. destruct Hid as ([c0 p0] & Hid & Hrow).
    apply filter_In in Hrow. destruct Hrow as [Hrow Hready].
    unfold runningCampaigns in Hrow. apply in_map_iff in Hrow.
    destruct Hrow as (c1 & Hc1 & Hin1). inversion Hc1; subst c0 p0. clear Hc1.
    apply filter_In in Hin1. destruct Hin1 as [Hin1 Hrun]. cbn [fst] in Hid.
    assert (c1 = c) by (apply (same_key_same_row c_id (campaigns w)); auto).
    subst c1. unfold ready in Hready. cbn [fst snd] in Hready.
    apply andb_true_iff in Hready. destruct Hready as [Hp Hr].
    apply Z.eqb_eq in Hp. apply Z.geb_le in Hr. apply String.eqb_eq in Hrun.
    repeat split; auto. lia.
Qed.

Lemma completion_touches_only_ready_witness :
  campaign_keys_ok campaigns_world
  /\ map c_status (campaigns (snd (completion_sweep first_only campaigns_world)))
     = ["completed"; "running"; "running"]
  /\ Forall2 (fun c c' =>
                c' = c \/
                (c_status c = "running" /\ pendingCount c (scheduled campaigns_world) = 0
                 /\ c_successCount c + c_failureCount c >= c_totalRecipients c
                 /\ c' = set_completed 1767225600000 c))
             (campaigns campaigns_world)
             (campaigns (snd (completion_sweep first_only campaigns_world))).
Proof.
  assert (Hkeys : campaign_keys_ok campaigns_world).
  { unfold campaign_keys_ok. cbn. repeat constructor; cbn; intuition discriminate. }
  split; [exact Hkeys|]. split; [reflexivity|].
  apply (completion_touches_only_ready first_only campaigns_world Hkeys).
Defined.

(** ** Starting a campaign *)

Lemma queue_recipients_up env u c tpl : forall recipients w,
  queue_error env = None ->
  queue_recipients env u c (Some tpl) recipients w =
    (Val tt, with_queue (queue w ++ map (campaign_job u c tpl) recipients) w).
Proof.
  induction recipients as [|r rest IH]; intros w Hq.
  - cbn. unfold ret. rewrite app_nil_r. destruct w; reflexivity.
  - cbn [queue_recipients]. unfold bind at 1, queue_add, bind, may_reject, modify, ret.
    rewrite Hq. cbn [fst snd]. rewrite IH by exact Hq.
    cbn [queue with_queue map]. rewrite <- app_assoc. reflexivity.
Qed.

Lemma owned_row_has_id (id u : Z) rows c :
  find (fun c => (c_id c =? id) && (c_userId c =? u)) rows = Some c ->
  In c rows /\ c_id c = id /\ c_userId c = u.
Proof.
  intros Hf. apply find_some in Hf. destruct Hf as [Hin Hb].
  apply andb_true_iff in Hb. destruct Hb as [Hi Hu].
  apply Z.eqb_eq in Hi. apply Z.eqb_eq in Hu. auto.
Qed.

Lemma find_campaign_of_row id rows c :
  In c rows -> c_id c = id -> find_campaign id rows <> None.
Proof.
  intros Hin Hid Hnone. unfold find_campaign in Hnone.
  apply (find_none _ _ Hnone) in Hin. cbn in Hin. apply Z.eqb_neq in Hin. auto.
Qed.

(** The start handler once its guards are passed: the row is set to running,
    then the recipients are queued. *)
Lemma start_after_guards env userId campaignId tid campaign w :
  store_error env = None ->
  find (fun c => (c_id c =? campaignId) && (c_userId c =? userId)) (campaigns w)
    = Some campaign ->
  startable campaign = true ->
  c_templateId campaign = Some tid ->
  tid <> 0 ->
  post_campaign_start env userId campaignId w =
    match queue_recipients env userId campaign
            (find (fun t => t_id t =? tid) (templates w)) (c_recipients campaign)
            (with_campaigns
               (update_campaign_row campaignId (set_running (req_now env)) (campaigns w)) w)
    with
    | (Val _, w') =>
        (Val (respond 200 (JStarted (Z.of_nat (List.length (c_recipients campaign))))), w')
    | (Exn _, w') => (Val internal_error, w')
    end.
Proof.
  intros Hstore Hfind Hstart Htid Hnz.
  destruct (owned_row_has_id _ _ _ _ Hfind) as (Hin & Hid & _).
  pose proof (find_campaign_of_row campaignId _ _ Hin Hid) as Hsome.
  unfold startable in Hstart.
  unfold post_campaign_start, try_catch, bind at 1, may_reject.
  rewrite Hstore. unfold ret at 1, bind at 1, get. rewrite Hfind.
  replace (negb (c_status campaign =? "draft")%string
           && negb (c_status campaign =? "scheduled")%string) with false
    by (destruct (String.eqb (c_status campaign) "draft"),
                 (String.eqb (c_status campaign) "scheduled"); cbn in *; congruence).
  rewrite Htid. unfold truthyZ.
  replace (tid =? 0) with false by lia. cbn [negb].
  unfold bind at 1.
  unfold campaign_update, bind at 1, may_reject, ret at 1, bind at 1, get.
  destruct (find_campaign campaignId (campaigns w)); [|congruence].
  unfold modify at 1. unfold bind at 1. cbn [templates with_campaigns].
  destruct (queue_recipients _ _ _ _ _ _) as [[u|e] w']; reflexivity.
Qed.

(** Starting a draft or scheduled campaign whose template exists, with store
    and queue answering: the campaign row becomes running with startedAt =
    now, one job per recipient is added to the queue in the order of the
    recipient list, each carrying the template's content and subject and the
    campaign's id, and the response counts them.  Nothing else changes. *)
Theorem start_queues_one_job_per_recipient (env : RouteEnv) (userId campaignId tid : Z)
  (campaign : NotificationCampaign) (tpl : NotificationTemplate) (w : World) :
  store_error env = None ->
  queue_error env = None ->
  find (fun c => (c_id c =? campaignId) && (c_userId c =? userId)) (campaigns w)
    = Some campaign ->
  startable campaign = true ->
  c_templateId campaign = Some tid ->
  tid <> 0 ->
  find (fun t => t_id t =? tid) (templates w) = Some tpl ->
  post_campaign_start env userId campaignId w =
    (Val (respond 200 (JStarted (Z.of_nat (List.length (c_recipients campaign))))),
     with_queue (queue w ++ map (campaign_job userId campaign tpl) (c_recipients campaign))
       (with_campaigns
          (update_campaign_row campaignId (set_running (req_now env)) (campaigns w)) w)).
Proof.
  intros Hstore Hqueue Hfind Hstart Htid Hnz Htpl.
  rewrite (start_after_guards env userId campaignId tid campaign w) by assumption.
  rewrite Htpl, queue_recipients_up by exact Hqueue. reflexivity.
Qed.

Lemma start_refused_unless_startable env u id w :
  (forall c, In c (campaigns w) -> c_id c = id -> startable c = false) ->
  exists r, post_campaign_start env u id w = (Val r, w) /\ code r <> 200.
Proof.
  intros Hno.
  unfold post_campaign_start, try_catch, bind at 1, may_reject.
  destruct (store_error env) as [e|].
  - cbn. exists internal_error. split; [reflexivity | discriminate].
  - unfold ret at 1, bind at 1, get.
    destruct (find _ (campaigns w)) as [c|] eqn:Hfind.
    + destruct (owned_row_has_id _ _ _ _ Hfind) as (Hin & Hid & _).
      specialize (Hno c Hin Hid). unfold startable in Hno.
      apply orb_false_iff in Hno. destruct Hno as [Hd Hs]. rewrite Hd, Hs. cbn.
      eexists. split; [reflexivity | discriminate].
    + cbn. eexists. split; [reflexivity | discriminate].
Qed.

Lemma running_rows_not_startable id t rows c :
  In c (update_campaign_row id (set_running t) rows) -> c_id c = id -> startable c = false.
Proof.
  intros Hin Hid. unfold update_campaign_row in Hin. apply in_map_iff in Hin.
  destruct Hin as (c0 & Hc & _). destruct (Z.eqb_spec (c_id c0) id) as [_|Hne].
  - subst c. reflexivity.
  - subst c. contradiction.
Qed.

(** When the queue refuses the jobs, the start request answers 500 after the
    campaign row was already set to running: no job was added, and no later
    start request for that campaign, by anyone and in any circumstances, is
    accepted or changes anything. *)
Theorem queue_outage_leaves_campaign_running (env : RouteEnv) (userId campaignId tid : Z)
  (campaign : NotificationCampaign) (reason : string) (w : World) :
  store_error env = None ->
  queue_error env = Some reason ->
  find (fun c => (c_id c =? campaignId) && (c_userId c =? userId)) (campaigns w)
    = Some campaign ->
  startable campaign = true ->
  c_templateId campaign = Some tid ->
  tid <> 0 ->
  c_recipients campaign <> [] ->
  let stuck :=
    with_campaigns
      (update_campaign_row campaignId (set_running (req_now env)) (campaigns w)) w in
  post_campaign_start env userId campaignId w = (Val internal_error, stuck)
  /\ queue stuck = queue w
  /\ (forall c, In c (campaigns stuck) -> c_id c = campaignId -> c_status c = "running")
  /\ (forall env' userId',
        exists r, post_campaign_start env' userId' campaignId stuck = (Val r, stuck)
                  /\ code r <> 200).
Proof.
  intros Hstore Hqueue Hfind Hstart Htid Hnz Hrec stuck.
  destruct (owned_row_has_id _ _ _ _ Hfind) as (Hin & Hid & _).
  pose proof (find_campaign_of_row campaignId _ _ Hin Hid) as Hsome.
  split; [|split; [reflexivity|split]].
  - unfold startable in Hstart.
    unfold post_campaign_start, try_catch, bind at 1, may_reject.
    rewrite Hstore. unfold ret at 1, bind at 1, get. rewrite Hfind.
    replace (negb (c_status campaign =? "draft")%string
             && negb (c_status campaign =? "scheduled")%string) with false
      by (destruct (String.eqb (c_status campaign) "draft"),
                   (String.eqb (c_status campaign) "scheduled"); cbn in *; congruence).
    rewrite Htid. unfold truthyZ.
    replace (tid =? 0) with false by lia. cbn [negb].
    unfold bind at 1.
    unfold campaign_update, bind at 1, may_reject, ret at 1, bind at 1, get.
    destruct (find_campaign campaignId (campaigns w)); [|congruence].
    unfold modify at 1. unfold bind at 1.
    destruct (c_recipients campaign) as [|r rest]; [congruence|].
    cbn [queue_recipients]. unfold bind at 1.
    destruct (find _ (templates _)) as [tpl|].
    + unfold queue_add, bind, may_reject, throw. rewrite Hqueue. reflexivity.
    + reflexivity.
  - intros c Hc Hidc. cbn in Hc. unfold update_campaign_row in Hc.
    apply in_map_iff in Hc. destruct Hc as (c0 & Hc & _).
    destruct (Z.eqb_spec (c_id c0) campaignId) as [_|Hne]; subst c;
      [reflexivity | contradiction].
  - intros env' userId'. apply start_refused_unless_startable.
    intros c Hc Hidc.
    exact (running_rows_not_startable campaignId (req_now env) (campaigns w) c Hc Hidc).
Qed.

Lemma queue_outage_leaves_campaign_running_witness :
  fst (post_campaign_start queue_down 7 1 solo_world) = Val internal_error
  /\ map c_status (campaigns (snd (post_campaign_start queue_down 7 1 solo_world)))
     = ["running"]
  /\ queue (snd (post_campaign_start queue_down 7 1 solo_world)) = [].
Proof.
  destruct (queue_outage_leaves_campaign_running queue_down 7 1 5 solo_campaign
              "Connection is closed." solo_world eq_refl eq_refl eq_refl eq_refl eq_refl)
    as (Hrun & Hq & _).
  - discriminate.
  - discriminate.
  - rewrite Hrun. repeat split.
Defined.

Lemma start_queues_one_job_per_recipient_witness :
  fst (post_campaign_start calm 7 1 solo_world) = Val (respond 200 (JStarted 1))
  /\ map (fun j => jd_to (q_data j)) (queue (snd (post_campaign_start calm 7 1 solo_world)))
     = ["a@x.com"].
Proof.
  rewrite (start_queues_one_job_per_recipient calm 7 1 5 solo_campaign welcome_template
             solo_world eq_refl eq_refl eq_refl eq_refl eq_refl).
  - split; reflexivity.
  - discriminate.
  - reflexivity.
Defined.







(** ** One attempt of the worker, seen from outside *)

(** An attempt of the campaign-aware worker calls at most one channel sender,
    once, and only for a known channel: the e-mail sender with the job's
    subject, the SMS sender, or the in-app sender, whose target is
    "user_<userId>" when the job has a non-zero userId and the [to] field
    otherwise.  Whatever fails, the attempt adds no job and touches neither
    the scheduled notifications nor the templates. *)
Theorem attempt_calls_one_sender_once (env : AttemptEnv) (job : Job) (w : World) :
  let w' := snd (run_processor env job w) in
  sent w' = (sent w ++ match sender_call (data job) with
                       | Some call => [call]
                       | None => []
                       end)%list
  /\ (sender_call (data job) = None <-> known_channel (jd_channel (data job)) = false)
  /\ queue w' = queue w
  /\ scheduled w' = scheduled w
  /\ templates w' = templates w
  /\ nextScheduledId w' = nextScheduledId w.
Proof.
  cbv zeta. split; [|split].
  - run_attempt. unfold dispatch, sender_call, call_sender, bind, modify, may_reject, ret, throw.
    js_cbn. split_cases_in w; rewrite ?app_nil_r; reflexivity.
  - unfold sender_call, known_channel, status_in. cbn [existsb].
    destruct (String.eqb (jd_channel (data job)) "email"),
             (String.eqb (jd_channel (data job)) "sms"),
             (String.eqb (jd_channel (data job)) "in-app"); cbn; split; congruence.
  - run_attempt. unfold dispatch, call_sender, bind, modify, may_reject, ret, throw.
    js_cbn. split_cases_in w; repeat split; reflexivity.
Qed.


(** ** Bulk submission *)

Lemma add_each_up env u b : forall recipients w,
  queue_error env = None ->
  add_each env u b recipients w =
    (Val tt, with_queue (queue w ++ map (bulk_job u b) recipients) w).
Proof.
  induction recipients as [|to rest IH]; intros w Hq.
  - cbn. unfold ret. rewrite app_nil_r. destruct w; reflexivity.
  - cbn [add_each]. unfold bind at 1, queue_add, bind, may_reject, modify, ret.
    rewrite Hq. cbn [fst snd]. rewrite IH by exact Hq.
    cbn [queue with_queue map]. rewrite <- app_assoc. reflexivity.
Qed.

Lemma create_each_up env u b t :
  store_error env = None ->
  forall recipients w,
    template_known w (bb_templateId b) = true ->
    exists rows,
      create_each env u b t recipients w =
        (Val rows,
         with_nextScheduledId (nextScheduledId w + Z.of_nat (List.length recipients))
           (with_scheduled (scheduled w ++ rows) w))
      /\ Forall2 (fun row to => bulk_record_for u b t [row] (sn_id row) to) rows recipients
      /\ (forall row, In row rows -> nextScheduledId w <= sn_id row)
      /\ NoDup (map sn_id rows).
Proof.
  intros Hstore. induction recipients as [|to rest IH]; intros w Hknown.
  - exists []. cbn. unfold ret. rewrite app_nil_r, Z.add_0_r.
    split; [destruct w; reflexivity|]. split; [constructor|]. split; [tauto | constructor].
  - cbn [create_each]. unfold bind at 1, both, scheduled_create, bind at 1, may_reject.
    rewrite Hstore. unfold ret at 1, bind at 1, get. rewrite Hknown.
    unfold bind at 1, modify, ret at 1.
    match goal with
    | |- context [create_each env u b t rest ?w1] =>
        destruct (IH w1 Hknown) as (rows & Hrun & Hrows & Hlow & Hnd);
        rewrite Hrun
    end.
    eexists. split; [|split; [|split]].
    + unfold ret. cbn [fst snd]. f_equal.
      unfold with_nextScheduledId, with_scheduled. cbn.
      rewrite <- app_assoc. cbn. f_equal. lia.
    + constructor; [|exact Hrows]. eexists. split; [left; reflexivity|].
      cbn. repeat split; reflexivity.
    + cbn [nextScheduledId with_nextScheduledId] in Hlow.
      intros row [<-|Hin]; cbn; [lia|]. specialize (Hlow row Hin). lia.
    + cbn [nextScheduledId with_nextScheduledId] in Hlow.
      cbn. constructor; [|exact Hnd]. intros Hin. apply in_map_iff in Hin.
      destruct Hin as (row & Hid & Hin). specialize (Hlow row Hin). lia.
Qed.

(** With a templateId that names no template every insert is refused: no
    row is written. *)
Lemma scheduled_create_refused env u to ch msg subj tid t md w :
  template_known w tid = false ->
  exists e w',
    scheduled_create env u to ch msg subj tid t md w = (Exn e, w')
    /\ scheduled w' = scheduled w /\ queue w' = queue w /\ templates w' = templates w.
Proof.
  intros Hknown. unfold scheduled_create, bind, may_reject, get, modify, throw, ret.
  destruct (store_error env); rewrite ?Hknown; eexists; eexists; repeat split; reflexivity.
Qed.

Lemma create_each_refused env u b t :
  forall recipients w,
    template_known w (bb_templateId b) = false ->
    exists r w',
      create_each env u b t recipients w = (r, w')
      /\ scheduled w' = scheduled w /\ queue w' = queue w
      /\ (recipients <> [] -> exists e, r = Exn e).
Proof.
  induction recipients as [|to rest IH]; intros w Hknown.
  - eexists. eexists. split; [reflexivity|]. repeat split. intros H. contradiction.
  - cbn [create_each]. unfold bind, both.
    destruct (scheduled_create_refused env (Some u) to (bb_channel b) (bb_message b)
                (subject_for (bb_channel b) (bb_subject b)) (bb_templateId b) t None w
                Hknown) as (e & w1 & Hrun & Hs & Hq & Ht).
    rewrite Hrun.
    assert (Hknown1 : template_known w1 (bb_templateId b) = false)
      by (unfold template_known in *; rewrite Ht; exact Hknown).
    destruct (IH w1 Hknown1) as (r & w' & Hrest & Hs' & Hq' & _). rewrite Hrest.
    exists (Exn e), w'. split; [reflexivity|].
    split; [congruence|]. split; [congruence|]. intros _. exists e. reflexivity.
Qed.

Lemma bulk_record_for_more u b t rows rows' id to :
  incl rows rows' -> bulk_record_for u b t rows id to -> bulk_record_for u b t rows' id to.
Proof.
  intros Hincl (row & Hin & H). exists row. split; [apply Hincl; exact Hin | exact H].
Qed.

Lemma bulk_records_found u b t rows tos :
  Forall2 (fun row to => bulk_record_for u b t [row] (sn_id row) to) rows tos ->
  forall table, incl rows table ->
    Forall2 (bulk_record_for u b t table) (map sn_id rows) tos.
Proof.
  induction 1 as [|row to rows tos Hrow Hrest IH]; intros table Hincl; cbn.
  - constructor.
  - constructor.
    + eapply bulk_record_for_more; [|exact Hrow].
      intros x [<-|[]]. apply Hincl. left. reflexivity.
    + apply IH. intros x Hx. apply Hincl. right. exact Hx.
Qed.

(** An accepted bulk request makes one item per recipient.  Without sendAt:
    one job per recipient joins the queue, in recipient order, each with 3
    attempts and exponential backoff.  With a sendAt that [new Date] reads
    as a date, and a templateId (if any) that names a template: one pending
    record per recipient is stored for that instant; the response lists as
    many ids as there are recipients, all different and all new, the i-th id
    being that of the record for the i-th recipient; the earlier records are
    kept and nothing is enqueued.  With any other sendAt or templateId the
    inserts are refused: the answer is 500, no record is stored and nothing
    is enqueued. *)
Theorem bulk_makes_one_item_per_recipient (env : RouteEnv) (userId : Z) (b : BulkBody)
  (w : World) :
  store_error env = None ->
  queue_error env = None ->
  bulk_valid b = true ->
  fst (check_template env userId (bb_templateId b) (bb_channel b)
         "Invalid template or template not found" w) = Val None ->
  scheduled_keys_ok w ->
  let n := Z.of_nat (List.length (recipients_of b)) in
  let w' := snd (post_notify_bulk env userId b w) in
  (bb_sendAt b = None ->
     post_notify_bulk env userId b w =
       (Val (respond 202 (JBulkQueued n)),
        with_queue (queue w ++ map (bulk_job userId b) (recipients_of b)) w))
  /\ (forall raw t, bb_sendAt b = Some (IsoDate raw t) ->
        template_known w (bb_templateId b) = true ->
        exists ids,
          fst (post_notify_bulk env userId b w)
          = Val (respond 202 (JBulkScheduled (IsoDate raw t) n ids))
          /\ Forall2 (bulk_record_for userId b t (scheduled w')) ids (recipients_of b)
          /\ NoDup ids
          /\ (forall id, In id ids -> ~ In id (map sn_id (scheduled w)))
          /\ incl (scheduled w) (scheduled w')
          /\ List.length (scheduled w') = (List.length (scheduled w) + List.length ids)%nat
          /\ queue w' = queue w)
  /\ (forall s, bb_sendAt b = Some s ->
        (forall raw t, s = IsoDate raw t -> template_known w (bb_templateId b) = false) ->
        fst (post_notify_bulk env userId b w) = Val internal_error
        /\ scheduled w' = scheduled w
        /\ queue w' = queue w).
Proof.
  intros Hstore Hqueue Hvalid Htpl [Hnd Hbelow] n w'.
  assert (Hcheck : check_template env userId (bb_templateId b) (bb_channel b)
                     "Invalid template or template not found" w = (Val None, w)).
  { pose proof (check_template_reads env userId (bb_templateId b) (bb_channel b)
                  "Invalid template or template not found" w) as Hsnd.
    destruct (check_template _ _ _ _ _ w) as [r w1]. cbn in *. congruence. }
  assert (Hiso : optional_iso (bb_sendAt b) = true).
  { unfold bulk_valid in Hvalid. apply andb_true_iff in Hvalid. tauto. }
  assert (Hsome : recipients_of b <> []).
  { unfold bulk_valid in Hvalid. rewrite !andb_true_iff in Hvalid.
    destruct Hvalid as [[[Harr _] _] _]. unfold isArray_1_100, recipients_of in *.
    destruct (bb_recipients b) as [[|x l]|]; cbn in Harr; discriminate. }
  subst w'. split; [|split].
  - intros Hnone. unfold post_notify_bulk. rewrite Hvalid, Hnone. cbn [negb truthy_sendAt].
    unfold try_catch, bind at 1. rewrite Hcheck. unfold bind at 1.
    rewrite add_each_up by exact Hqueue. reflexivity.
  - intros raw t Hs Hknown. rewrite Hs in Hiso.
    pose proof (dated_sendAt_truthy raw t Hiso) as Ht.
    destruct (create_each_up env userId b t Hstore (recipients_of b) w Hknown)
      as (rows & Hrun & Hrows & Hlow & Hndrows).
    assert (Hlen : List.length rows = List.length (recipients_of b))
      by (eapply Forall2_length; exact Hrows).
    assert (Hpost : post_notify_bulk env userId b w =
              (Val (respond 202 (JBulkScheduled (IsoDate raw t) n (map sn_id rows))),
               with_nextScheduledId (nextScheduledId w + n)
                 (with_scheduled (scheduled w ++ rows) w))).
    { unfold post_notify_bulk. rewrite Hvalid, Hs, Ht. cbn [negb].
      unfold try_catch, bind at 1. rewrite Hcheck. unfold bind at 1, date_of, ret at 1.
      unfold bind at 1. rewrite Hrun. unfold ret. subst n. rewrite Hlen. reflexivity. }
    exists (map sn_id rows). rewrite Hpost.
    cbn [fst snd scheduled queue with_nextScheduledId with_scheduled].
    split; [reflexivity|].
    split; [|split; [exact Hndrows|split; [|split; [|split]]]].
    + apply (bulk_records_found _ _ _ _ _ Hrows). intros x Hx. apply in_or_app. auto.
    + intros id Hid Hold. apply in_map_iff in Hid. destruct Hid as (row & <- & Hin).
      apply in_map_iff in Hold. destruct Hold as (old & Hsame & Hinold).
      specialize (Hlow row Hin). specialize (Hbelow old Hinold). lia.
    + intros x Hx. apply in_or_app. left. exact Hx.
    + rewrite length_app, length_map. reflexivity.
    + reflexivity.
  - intros s Hs Hother. rewrite Hs in Hiso.
    destruct (valid_sendAt_truthy s Hiso) as [Ht [(raw & t & ->)|(raw & ->)]].
    + destruct (create_each_refused env userId b t (recipients_of b) w
                  (Hother raw t eq_refl)) as (r & w1 & Hrun & Hsched & Hq & Hexn).
      destruct (Hexn Hsome) as (e & ->).
      assert (Hpost : post_notify_bulk env userId b w = (Val internal_error, w1)).
      { unfold post_notify_bulk. rewrite Hvalid, Hs, Ht. cbn [negb].
        unfold try_catch, bind at 1. rewrite Hcheck. unfold bind at 1, date_of, ret at 1.
        unfold bind at 1. rewrite Hrun. reflexivity. }
      rewrite Hpost. cbn [fst snd]. auto.
    + assert (Hpost : post_notify_bulk env userId b w = (Val internal_error, w)).
      { unfold post_notify_bulk. rewrite Hvalid, Hs, Ht. cbn [negb].
        unfold try_catch, bind at 1. rewrite Hcheck. reflexivity. }
      rewrite Hpost. cbn [fst snd]. auto.
Qed.

Lemma bulk_makes_one_item_per_recipient_witness :
  List.length (queue (snd (post_notify_bulk calm 7 pair_bulk empty_world))) = 2%nat
  /\ exists ids,
       fst (post_notify_bulk calm 7 pair_bulk_later empty_world)
       = Val (respond 202
                (JBulkScheduled (IsoDate "2027-01-01T00:00:00.000Z" 1798761600000) 2 ids))
       /\ NoDup ids.
Proof.
  assert (Hkeys : scheduled_keys_ok empty_world) by (split; [constructor | intros n []]).
  destruct (bulk_makes_one_item_per_recipient calm 7 pair_bulk empty_world
              eq_refl eq_refl eq_refl eq_refl Hkeys) as (Hq & _).
  destruct (bulk_makes_one_item_per_recipient calm 7 pair_bulk_later empty_world
              eq_refl eq_refl eq_refl eq_refl Hkeys) as (_ & Hs & _).
  split.
  - rewrite (Hq eq_refl). reflexivity.
  - destruct (Hs _ _ eq_refl eq_refl) as (ids & Hrun & _ & Hnd & _).
    exists ids. split; [exact Hrun | exact Hnd].
Defined.

(** ** A scheduled submission and its promotion *)

Lemma check_template_same_templates env u tid ch msg w1 w2 :
  templates w1 = templates w2 ->
  fst (check_template env u tid ch msg w1) = fst (check_template env u tid ch msg w2).
Proof.
  intros Ht. unfold check_template, bind, may_reject, get, ret, throw.
  destruct tid as [id|]; [|reflexivity].
  destruct (truthyZ (Some id)); [|reflexivity].
  destruct (store_error env); [reflexivity|]. rewrite Ht.
  destruct (find _ (templates w2)) as [t|]; [|reflexivity].
  destruct (negb _); reflexivity.
Qed.

Lemma check_template_passed env u tid ch msg w :
  fst (check_template env u tid ch msg w) = Val None ->
  check_template env u tid ch msg w = (Val None, w).
Proof.
  intros H. pose proof (check_template_reads env u tid ch msg w) as Hsnd.
  destruct (check_template env u tid ch msg w) as [r w1]. cbn in *. congruence.
Qed.

(** Scheduling a submission and promoting it later puts into the queue the
    very job that sending it at once after the sweep would have put there:
    for a request that passes validation and the template check, with a
    templateId (if any) that names a template and a sendAt that is a date at
    or before the sweep's clock, "submit with sendAt, then sweep" and
    "sweep, then submit without sendAt" leave the same queue; the scheduled
    table differs only by the new record, now queued. *)
Theorem scheduled_then_promoted_is_sent_as_if_immediate (env : RouteEnv) (senv : SweepEnv)
  (userId : Z) (b : NotifyBody) (raw : string) (t : Time) (w : World) :
  store_error env = None ->
  queue_error env = None ->
  notify_valid b = true ->
  fst (check_template env userId (b_templateId b) (b_channel b)
         "Invalid template or template not found" w) = Val None ->
  b_sendAt b = Some (IsoDate raw t) ->
  template_known w (b_templateId b) = true ->
  scheduled_keys_ok w ->
  sweep_store_up senv ->
  add_error senv (nextScheduledId w) = None ->
  t <= sweep_now senv ->
  let later := snd (promotion_sweep senv (snd (post_notify env userId b w))) in
  let sooner := snd (post_notify env userId (send_now b) (snd (promotion_sweep senv w))) in
  queue later = queue sooner
  /\ exists row,
       scheduled later = (scheduled sooner ++ [row])%list
       /\ sn_id row = nextScheduledId w /\ sn_status row = "queued"
       /\ job_of_scheduled row
          = {| jd_userId := Some userId; jd_to := b_to b; jd_channel := b_channel b;
               jd_message := b_message b;
               jd_subject := subject_for (b_channel b) (b_subject b);
               jd_templateId := b_templateId b; jd_campaignId := None;
               jd_metadata := b_metadata b |}.
Proof.
  intros Hstore Hqueue Hvalid Htpl Hs Hknown [Hnd Hbelow] Hup Hadd Hle later sooner.
  pose proof (check_template_passed _ _ _ _ _ _ Htpl) as Hcheck.
  assert (Hraw : notEmpty raw = true).
  { unfold notify_valid in Hvalid. rewrite Hs in Hvalid. cbn in Hvalid.
    apply andb_true_iff in Hvalid. tauto. }
  assert (Hvalid0 : notify_valid (send_now b) = true).
  { unfold notify_valid in *. cbn. rewrite Hs in Hvalid. cbn in Hvalid.
    rewrite Hraw in Hvalid. exact Hvalid. }
  set (row0 := {| sn_id := nextScheduledId w; sn_userId := Some userId;
                  sn_to := b_to b; sn_channel := b_channel b;
                  sn_message := b_message b;
                  sn_subject := subject_for (b_channel b) (b_subject b);
                  sn_templateId := b_templateId b; sn_campaignId := None;
                  sn_sendAt := t; sn_status := "pending";
                  sn_metadata := b_metadata b;
                  sn_createdAt := req_now env |}).
  assert (Hpost : post_notify env userId b w =
            (Val (respond 202 (JScheduled (IsoDate raw t) (Some (nextScheduledId w)))),
             with_nextScheduledId (nextScheduledId w + 1)
               (with_scheduled (scheduled w ++ [row0]) w))).
  { unfold post_notify. rewrite Hvalid, Hs. cbn [negb truthy_sendAt raw_of]. rewrite Hraw.
    unfold try_catch, bind, date_of, scheduled_create, bind, may_reject, get, modify, ret.
    rewrite Hcheck, Hstore. cbn. rewrite Hknown. reflexivity. }
  assert (Hnd1 : NoDup (map sn_id (scheduled w ++ [row0]))).
  { rewrite map_app. cbn. apply NoDup_app; [exact Hnd | repeat constructor; auto |].
    intros x Hx [Hx'|[]]. subst x. apply in_map_iff in Hx.
    destruct Hx as (m & Hm & Hin). specialize (Hbelow m Hin). lia. }
  assert (Hdue0 : is_due (sweep_now senv) row0 = true).
  { apply is_due_iff. split; [reflexivity | exact Hle]. }
  assert (Hacc0 : add_accepted senv row0 = true).
  { unfold add_accepted. cbn. rewrite Hadd. reflexivity. }
  subst later sooner.
  rewrite Hpost. cbn [snd].
  rewrite (promotion_sweep_up senv _ Hup) by exact Hnd1.
  rewrite (promotion_sweep_up senv w Hup Hnd).
  cbn [snd scheduled queue with_scheduled with_queue with_nextScheduledId].
  match goal with
  | |- context [post_notify env userId (send_now b) ?w2] =>
      assert (Hpost0 : post_notify env userId (send_now b) w2 =
                (Val (respond 202 JQueued),
                 with_queue (queue w2 ++
                   [{| q_name := "send"; q_data := job_of_scheduled row0;
                       q_opts := retry_opts |}]) w2))
  end.
  { unfold post_notify. rewrite Hvalid0. cbn [negb send_now b_sendAt truthy_sendAt
      b_templateId b_channel b_to b_message b_subject b_metadata].
    unfold try_catch, bind at 1.
    rewrite (check_template_passed env userId (b_templateId b) (b_channel b)).
    - unfold queue_add, bind, may_reject, modify, ret. rewrite Hqueue. reflexivity.
    - rewrite <- Htpl. apply check_template_same_templates. reflexivity. }
  rewrite Hpost0.
  cbn [snd scheduled queue with_scheduled with_queue with_nextScheduledId].
  unfold dueNotifications. rewrite filter_app, map_app. cbn [filter map].
  rewrite Hdue0. cbn [filter]. rewrite filter_app. cbn [filter]. rewrite Hacc0.
  rewrite map_app, app_assoc. cbn [map].
  split; [reflexivity|].
  exists (set_sn_status "queued" row0). repeat split; reflexivity.
Qed.

Lemma scheduled_then_promoted_is_sent_as_if_immediate_witness :
  map (fun j => jd_to (q_data j))
    (queue (snd (promotion_sweep noon_sweep (snd (post_notify calm 7 past_submission
                                                    scheduled_world)))))
  = ["a@x.com"; "a@x.com"]
  /\ queue (snd (promotion_sweep noon_sweep (snd (post_notify calm 7 past_submission
                                                    scheduled_world))))
     = queue (snd (post_notify calm 7 (send_now past_submission)
                     (snd (promotion_sweep noon_sweep scheduled_world)))).
Proof.
  assert (Hkeys : scheduled_keys_ok scheduled_world).
  { split.
    - cbn. repeat constructor; cbn; intuition discriminate.
    - cbn. intros n [H|[H|[H|[]]]]; subst n; cbn; lia. }
  assert (Hup : sweep_store_up noon_sweep) by (repeat split; reflexivity).
  destruct (scheduled_then_promoted_is_sent_as_if_immediate calm noon_sweep 7
              past_submission "2020-01-01T00:00:00.000Z" 1577836800000 scheduled_world
              eq_refl eq_refl eq_refl eq_refl eq_refl eq_refl Hkeys Hup eq_refl)
    as (Hq & _).
  - cbn. lia.
  - split; [reflexivity | exact Hq].
Defined.

(** ** The life cycle of a campaign *)
























(** ** Deleting a campaign *)

Lemma find_owned_row id u rows c :
  NoDup (map c_id rows) -> In c rows -> c_id c = id -> c_userId c = u ->
  find (fun c => (c_id c =? id) && (c_userId c =? u)) rows = Some c.
Proof.
  intros Hnd Hin Hid Hu.
  destruct (find _ rows) as [c0|] eqn:Hfind.
  - destruct (owned_row_has_id _ _ _ _ Hfind) as (Hin0 & Hid0 & _).
    f_equal. apply (same_key_same_row c_id rows); auto. congruence.
  - apply (find_none _ _ Hfind) in Hin. cbn in Hin.
    rewrite Hid, Hu, !Z.eqb_refl in Hin. discriminate.
Qed.

(** A delete request is answered 200 exactly when the store answers and the
    caller owns a draft campaign with that id.  It then removes that row and
    no other, and leaves no log entry and no scheduled notification pointing
    at the deleted id (the foreign keys are ON DELETE SET NULL): rows are
    unlinked, not removed, and the queue is not touched.  Any other answer
    leaves the world as it was. *)
Theorem delete_removes_only_an_own_draft (env : RouteEnv) (userId campaignId : Z)
  (w : World) :
  campaign_keys_ok w ->
  let r := fst (delete_campaign env userId campaignId w) in
  let w' := snd (delete_campaign env userId campaignId w) in
  (code_of r = Some 200 <->
     store_error env = None
     /\ exists c, In c (campaigns w) /\ c_id c = campaignId /\ c_userId c = userId
                  /\ c_status c = "draft")
  /\ (code_of r = Some 200 ->
        (forall c, In c (campaigns w') <-> In c (campaigns w) /\ c_id c <> campaignId)
        /\ (forall l, In l (logs w') -> log_campaignId l <> Some campaignId)
        /\ (forall n, In n (scheduled w') -> sn_campaignId n <> Some campaignId)
        /\ List.length (logs w') = List.length (logs w)
        /\ map sn_id (scheduled w') = map sn_id (scheduled w)
        /\ map sn_status (scheduled w') = map sn_status (scheduled w)
        /\ queue w' = queue w /\ sent w' = sent w /\ templates w' = templates w)
  /\ (code_of r <> Some 200 -> w' = w).
Proof.
  intros Hk r w'.
  assert (H : (r = Val (respond 200 (JMessage "Campaign deleted successfully"))
               /\ store_error env = None
               /\ (exists c, In c (campaigns w) /\ c_id c = campaignId /\ c_userId c = userId
                             /\ c_status c = "draft")
               /\ w' = with_logs (map (unlink_log campaignId) (logs w))
                         (with_scheduled (map (unlink_scheduled campaignId) (scheduled w))
                            (with_campaigns
                               (filter (fun c => negb (c_id c =? campaignId)) (campaigns w)) w)))
              \/ (code_of r <> Some 200 /\ w' = w
                  /\ ~ (store_error env = None
                        /\ exists c, In c (campaigns w) /\ c_id c = campaignId
                                     /\ c_userId c = userId /\ c_status c = "draft"))).
  { subst r w'. destruct (delete_campaign env userId campaignId w) as [r w'] eqn:Hrun.
    cbn [fst snd]. unfold delete_campaign, try_catch, bind at 1, may_reject in Hrun.
    destruct (store_error env) as [e|].
    { cbn in Hrun. injection Hrun as <- <-. right. cbn.
      split; [discriminate|]. split; [reflexivity|]. intros [? _]. discriminate. }
    unfold ret at 1, bind at 1, get in Hrun.
    destruct (find _ (campaigns w)) as [c|] eqn:Hfind.
    - destruct (owned_row_has_id _ _ _ _ Hfind) as (Hin & Hid & Hu).
      destruct (String.eqb_spec (c_status c) "draft") as [Hd|Hd]; cbn [negb] in Hrun.
      + left. pose proof (find_campaign_of_row campaignId _ _ Hin Hid) as Hsome.
        unfold campaign_delete, bind, may_reject, get, modify, ret in Hrun.
        destruct (find_campaign campaignId (campaigns w)); [|congruence].
        injection Hrun as <- <-.
        split; [reflexivity|]. split; [reflexivity|]. split; [|reflexivity].
        exists c. auto.
      + cbn in Hrun. injection Hrun as <- <-. right. cbn.
        split; [discriminate|]. split; [reflexivity|].
        intros (_ & c0 & Hin0 & Hid0 & Hu0 & Hd0).
        rewrite (find_owned_row _ _ _ c0 Hk Hin0 Hid0 Hu0) in Hfind. congruence.
    - cbn in Hrun. injection Hrun as <- <-. right. cbn.
      split; [discriminate|]. split; [reflexivity|].
      intros (_ & c0 & Hin0 & Hid0 & Hu0 & Hd0).
      rewrite (find_owned_row _ _ _ c0 Hk Hin0 Hid0 Hu0) in Hfind. discriminate. }
  destruct H as [(Hr & Hstore & Hex & Hw)|(Hr & Hw & Hno)].
  - split; [|split].
    + rewrite Hr. cbn. split; auto.
    + intros _. rewrite Hw. cbn [campaigns logs scheduled queue sent templates
        with_logs with_scheduled with_campaigns].
      split; [|split; [|split; [|split; [|split; [|split]]]]].
      * intros c. rewrite filter_In. rewrite negb_true_iff, Z.eqb_neq. tauto.
      * intros l Hl. apply in_map_iff in Hl. destruct Hl as (l0 & <- & _). cbn.
        destruct (log_campaignId l0) as [z|]; [|discriminate].
        destruct (Z.eqb_spec z campaignId); congruence.
      * intros n Hn. apply in_map_iff in Hn. destruct Hn as (n0 & <- & _). cbn.
        destruct (sn_campaignId n0) as [z|]; [|discriminate].
        destruct (Z.eqb_spec z campaignId); congruence.
      * apply length_map.
      * rewrite map_map. reflexivity.
      * rewrite map_map. reflexivity.
      * auto.
    + intros Hc. rewrite Hr in Hc. cbn in Hc. congruence.
  - split; [|split].
    + split; [intros Hc; contradiction | intros Hc; contradiction].
    + intros Hc. contradiction.
    + intros _. exact Hw.
Qed.

Lemma delete_removes_only_an_own_draft_witness :
  campaign_keys_ok shelf_world
  /\ code_of (fst (delete_campaign calm 7 1 shelf_world)) = Some 200
  /\ map c_id (campaigns (snd (delete_campaign calm 7 1 shelf_world))) = [4]
  /\ snd (delete_campaign calm 7 4 shelf_world) = shelf_world.
Proof.
  assert (Hk : campaign_keys_ok shelf_world).
  { unfold campaign_keys_ok. cbn. repeat constructor; cbn; intuition discriminate. }
  split; [exact Hk|].
  destruct (delete_removes_only_an_own_draft calm 7 1 shelf_world Hk) as (Hiff & _ & _).
  destruct (delete_removes_only_an_own_draft calm 7 4 shelf_world Hk) as (_ & _ & Hsame).
  split; [|split].
  - apply Hiff. split; [reflexivity|]. exists solo_campaign. cbn. auto.
  - reflexivity.
  - apply Hsame. cbn. discriminate.
Defined.

(** ** Templates named by a submission *)

Lemma own_template_found w u tid tpl :
  find (fun t => (t_id t =? tid) && (t_userId t =? u) && t_isActive t) (templates w)
    = Some tpl ->
  own_active_template w u tid tpl.
Proof.
  intros Hf. apply find_some in Hf. destruct Hf as [Hin Hb].
  apply andb_true_iff in Hb. destruct Hb as [Hb Hact].
  apply andb_true_iff in Hb. destruct Hb as [Hid Hu].
  apply Z.eqb_eq in Hid. apply Z.eqb_eq in Hu. repeat split; auto.
Qed.

Lemma own_template_known w u tid tpl :
  own_active_template w u tid tpl -> template_known w (Some tid) = true.
Proof.
  intros (Hin & Hid & _). unfold template_known. apply existsb_exists.
  exists tpl. split; [exact Hin | apply Z.eqb_eq; exact Hid].
Qed.

Lemma check_template_outcome env u tid ch msg w :
  tid <> 0 ->
  match fst (check_template env u (Some tid) ch msg w) with
  | Val None => exists tpl, own_active_template w u tid tpl /\ t_channel tpl = ch
  | Val (Some r) => code r = 400
  | Exn _ => True
  end.
Proof.
  intros Hnz. unfold check_template, truthyZ.
  replace (tid =? 0) with false by lia. cbn [negb].
  unfold bind, may_reject, get, ret, throw.
  destruct (store_error env); [exact I|].
  destruct (find _ (templates w)) as [tpl|] eqn:Hf; [|reflexivity].
  destruct (String.eqb_spec (t_channel tpl) ch) as [Hch|Hch]; cbn; [|reflexivity].
  exists tpl. split; [apply own_template_found; exact Hf | exact Hch].
Qed.

(** A submission that names a template is accepted (202) only if the caller
    owns an active template with that id whose channel is the submission's
    channel (single and bulk submission), or, for the template send route,
    an active template with that id whatever its channel: somebody else's
    template, or an inactive one, is never used.  A single submission or a
    template send that is not accepted changes nothing. *)
Theorem accepted_submission_uses_own_active_template (env : RouteEnv) (userId tid : Z)
  (b : NotifyBody) (bb : BulkBody) (to : string) (sendAt : option SendAt)
  (render : string -> string) (w : World) :
  tid <> 0 ->
  b_templateId b = Some tid ->
  bb_templateId bb = Some tid ->
  (code_of (fst (post_notify env userId b w)) = Some 202 ->
     exists tpl, own_active_template w userId tid tpl /\ t_channel tpl = b_channel b)
  /\ (code_of (fst (post_notify_bulk env userId bb w)) = Some 202 ->
        exists tpl, own_active_template w userId tid tpl /\ t_channel tpl = bb_channel bb)
  /\ (code_of (fst (post_template_send env userId tid to sendAt render w)) = Some 202 ->
        exists tpl, own_active_template w userId tid tpl)
  /\ (code_of (fst (post_notify env userId b w)) <> Some 202 ->
        snd (post_notify env userId b w) = w)
  /\ (code_of (fst (post_template_send env userId tid to sendAt render w)) <> Some 202 ->
        snd (post_template_send env userId tid to sendAt render w) = w).
Proof.
  intros Hnz Hb Hbb.
  pose proof (check_template_outcome env userId tid (b_channel b)
                "Invalid template or template not found" w Hnz) as Hc.
  pose proof (check_template_reads env userId (Some tid) (b_channel b)
                "Invalid template or template not found" w) as Hr.
  pose proof (check_template_outcome env userId tid (bb_channel bb)
                "Invalid template or template not found" w Hnz) as Hcb.
  split; [|split; [|split; [|split]]].
  - destruct (post_notify env userId b w) as [r w'] eqn:Hrun. cbn [fst].
    unfold post_notify in Hrun. rewrite Hb in Hrun.
    destruct (negb (notify_valid b)); [injection Hrun as <- <-; discriminate|].
    unfold try_catch, bind at 1 in Hrun.
    destruct (check_template env userId (Some tid) (b_channel b) _ w) as [[[early|]|e] w1];
      cbn [fst] in Hc; cbn in Hrun.
    + injection Hrun as <- <-. cbn. intros H. congruence.
    + intros _. exact Hc.
    + injection Hrun as <- <-. discriminate.
  - destruct (post_notify_bulk env userId bb w) as [r w'] eqn:Hrun. cbn [fst].
    unfold post_notify_bulk in Hrun. rewrite Hbb in Hrun.
    destruct (negb (bulk_valid bb)); [injection Hrun as <- <-; discriminate|].
    unfold try_catch, bind at 1 in Hrun.
    destruct (check_template env userId (Some tid) (bb_channel bb) _ w) as [[[early|]|e] w1];
      cbn [fst] in Hcb.
    + injection Hrun as <- <-. cbn. intros H. congruence.
    + intros _. exact Hcb.
    + injection Hrun as <- <-. discriminate.
  - destruct (post_template_send env userId tid to sendAt render w) as [r w'] eqn:Hrun.
    cbn [fst]. unfold post_template_send in Hrun.
    destruct (negb (notEmpty to && optional_iso sendAt));
      [injection Hrun as <- <-; discriminate|].
    unfold try_catch, bind at 1, may_reject in Hrun.
    destruct (store_error env); [injection Hrun as <- <-; discriminate|].
    unfold ret at 1, bind at 1, get in Hrun.
    destruct (find _ (templates w)) as [tpl|] eqn:Hf.
    + intros _. exists tpl. apply own_template_found. exact Hf.
    + injection Hrun as <- <-. discriminate.
  - destruct (post_notify env userId b w) as [r w'] eqn:Hrun. cbn [fst snd].
    unfold post_notify in Hrun.
    destruct (negb (notify_valid b)); [injection Hrun as <- <-; reflexivity|].
    unfold try_catch, bind at 1 in Hrun. rewrite Hb in Hrun.
    destruct (check_template env userId (Some tid) (b_channel b) _ w) as [[[early|]|e] w1];
      cbn [snd] in Hr; cbn [fst] in Hc; subst w1.
    + injection Hrun as <- <-. reflexivity.
    + destruct Hc as (tpl & Hown & _). apply own_template_known in Hown.
      destruct (truthy_sendAt (b_sendAt b)) as [s|].
      * unfold bind, date_of, scheduled_create, bind, may_reject, get, modify, ret, throw in Hrun.
        destruct s as [raw t|raw|raw]; try (injection Hrun as <- <-; reflexivity).
        destruct (store_error env); [injection Hrun as <- <-; reflexivity|].
        rewrite Hown in Hrun. injection Hrun as <- <-. cbn. congruence.
      * unfold bind, queue_add, bind, may_reject, modify, ret, throw in Hrun.
        destruct (queue_error env); injection Hrun as <- <-; [reflexivity|].
        cbn. congruence.
    + injection Hrun as <- <-. reflexivity.
  - destruct (post_template_send env userId tid to sendAt render w) as [r w'] eqn:Hrun.
    cbn [fst snd]. unfold post_template_send in Hrun.
    destruct (negb (notEmpty to && optional_iso sendAt));
      [injection Hrun as <- <-; reflexivity|].
    unfold try_catch, bind at 1, may_reject in Hrun.
    destruct (store_error env) eqn:Hstore; [injection Hrun as <- <-; reflexivity|].
    unfold ret at 1, bind at 1, get in Hrun.
    destruct (find _ (templates w)) as [tpl|] eqn:Hf;
      [|injection Hrun as <- <-; reflexivity].
    apply own_template_found, own_template_known in Hf.
    destruct (truthy_sendAt sendAt) as [s|].
    + unfold bind, date_of, scheduled_create, bind, may_reject, get, modify, ret, throw in Hrun.
      destruct s as [raw t|raw|raw]; try (injection Hrun as <- <-; reflexivity).
      rewrite Hstore, Hf in Hrun. injection Hrun as <- <-. cbn. congruence.
    + unfold bind, queue_add, bind, may_reject, modify, ret, throw in Hrun.
      destruct (queue_error env); injection Hrun as <- <-; [reflexivity|].
      cbn. congruence.
Qed.

Lemma accepted_submission_uses_own_active_template_witness :
  code_of (fst (post_notify calm 7 templated_submission solo_world)) = Some 202
  /\ (exists tpl, own_active_template solo_world 7 5 tpl /\ t_channel tpl = "email")
  /\ code_of (fst (post_notify calm 8 templated_submission solo_world)) = Some 400
  /\ snd (post_notify calm 8 templated_submission solo_world) = solo_world.
Proof.
  destruct (accepted_submission_uses_own_active_template calm 7 5 templated_submission
              templated_bulk "a@x.com" None (fun s => s) solo_world)
    as (Hmine & _); [discriminate | reflexivity | reflexivity |].
  destruct (accepted_submission_uses_own_active_template calm 8 5 templated_submission
              templated_bulk "a@x.com" None (fun s => s) solo_world)
    as (_ & _ & _ & Hkept & _); [discriminate | reflexivity | reflexivity |].
  split; [reflexivity|]. split; [apply Hmine; reflexivity|].
  split; [reflexivity|]. apply Hkept. cbn. discriminate.
Defined.

(** ** Authentication middleware *)

Lemma truthy_header_some h s : truthy_header h = Some s -> h = Some s /\ s <> "".
Proof.
  unfold truthy_header, notEmpty. destruct h as [x|]; [|discriminate].
  destruct (String.eqb_spec x ""); cbn; [discriminate|]. intros [= ->]. auto.
Qed.

(** Whoever [authenticate] lets through is an active user of the table,
    identified by the verified token when an Authorization header is
    present, and by the API key only when there is none: a present
    Authorization header is always the one that decides. *)
Theorem authenticate_admits_only_active_users (env : AuthEnv) (users : list User)
  (req : Headers) (who : option AuthUser) :
  authenticate env users req = Next who ->
  exists user,
    who = Some (select_user user) /\ In user users /\ u_isActive user = true
    /\ users_error env = None
    /\ ((exists token, token_of (h_authorization req) = Some token
                       /\ jwt_verify env token = Some (u_id user))
        \/ (truthy_header (h_authorization req) = None
            /\ exists key, h_x_api_key req = Some key /\ u_apiKey user = Some key)).
Proof.
  unfold authenticate, authenticateToken, authenticateApiKey.
  destruct (truthy_header (h_authorization req)) as [h|] eqn:Hh.
  - destruct (token_of (h_authorization req)) as [token|]; [|discriminate].
    destruct (jwt_verify env token) as [userId|] eqn:Hv; [|discriminate].
    destruct (users_error env); [discriminate|].
    destruct (user_by_id userId users) as [user|] eqn:Hf; [|discriminate].
    destruct (u_isActive user) eqn:Ha; [|discriminate].
    intros [= <-]. exists user. apply find_some in Hf. destruct Hf as [Hin Hid].
    apply Z.eqb_eq in Hid. split; [reflexivity|]. split; [exact Hin|].
    split; [exact Ha|]. split; [reflexivity|]. left. exists token. split; congruence.
  - destruct (truthy_header (h_x_api_key req)) as [key|] eqn:Hk; [|discriminate].
    destruct (users_error env); [discriminate|].
    destruct (user_by_apiKey key users) as [user|] eqn:Hf; [|discriminate].
    destruct (u_isActive user) eqn:Ha; [|discriminate].
    intros [= <-]. exists user. apply find_some in Hf. destruct Hf as [Hin Hkey].
    destruct (u_apiKey user) as [k|] eqn:Hku; [|discriminate].
    apply String.eqb_eq in Hkey. subst k.
    apply truthy_header_some in Hk. destruct Hk as [Hk _].
    split; [reflexivity|]. split; [exact Hin|]. split; [exact Ha|].
    split; [reflexivity|]. right. split; [reflexivity|]. exists key. auto.
Qed.

Lemma authenticate_admits_only_active_users_witness :
  authenticate one_good_token [ada; bob]
    {| h_authorization := Some "Bearer good"; h_x_api_key := None |}
  = Next (Some (select_user ada))
  /\ exists user, In user [ada; bob] /\ u_isActive user = true /\ u_id user = 7.
Proof.
  split; [reflexivity|].
  destruct (authenticate_admits_only_active_users one_good_token [ada; bob]
              {| h_authorization := Some "Bearer good"; h_x_api_key := None |}
              (Some (select_user ada)) eq_refl)
    as (user & Hwho & Hin & Hact & _ & _).
  exists user. split; [exact Hin|]. split; [exact Hact|].
  injection Hwho as Hid _ _ _ _. symmetry. exact Hid.
Defined.

(** How [authenticate] refuses.  With an Authorization header present the
    API key is not looked at, so a valid key does not help a request whose
    token is missing or bad; the answers are 401 or 403, and a store outage
    reads as 403 "Invalid token".  Without it, the answers are 401, or 500
    when the store is down.  A deactivated user is answered 401 either way. *)
Theorem authenticate_refusals (env : AuthEnv) (users : list User) (req : Headers) :
  (forall h, truthy_header (h_authorization req) = Some h ->
     forall key,
       authenticate env users req
       = authenticate env users {| h_authorization := h_authorization req;
                                   h_x_api_key := key |})
  /\ (forall c msg, authenticate env users req = Reply c msg ->
        match truthy_header (h_authorization req) with
        | Some _ =>
            (c = 401 /\ msg = "Access token required"
             /\ token_of (h_authorization req) = None)
            \/ (c = 403 /\ msg = "Invalid token"
                /\ exists token, token_of (h_authorization req) = Some token
                     /\ (jwt_verify env token = None \/ users_error env <> None))
            \/ (c = 401 /\ msg = "Invalid or inactive user")
        | None => c = 401 \/ (c = 500 /\ users_error env <> None)
        end).
Proof.
  split.
  - intros h Hh key. unfold authenticate. cbn [h_authorization]. rewrite Hh. reflexivity.
  - intros c msg. unfold authenticate, authenticateToken, authenticateApiKey.
    destruct (truthy_header (h_authorization req)) as [h|].
    + destruct (token_of (h_authorization req)) as [token|].
      * destruct (jwt_verify env token) as [userId|] eqn:Hv.
        -- destruct (users_error env) eqn:He.
           ++ intros [= <- <-]. right. left. split; [reflexivity|]. split; [reflexivity|].
              exists token. split; [reflexivity|]. right. discriminate.
           ++ destruct (user_by_id userId users) as [user|].
              ** destruct (u_isActive user); [discriminate|].
                 intros [= <- <-]. right. right. auto.
              ** intros [= <- <-]. right. right. auto.
        -- intros [= <- <-]. right. left. split; [reflexivity|]. split; [reflexivity|].
           exists token. split; [reflexivity|]. left. exact Hv.
      * intros [= <- <-]. left. auto.
    + destruct (truthy_header (h_x_api_key req)) as [key|].
      * destruct (users_error env) eqn:He.
        -- intros [= <- <-]. right. split; [reflexivity | discriminate].
        -- destruct (user_by_apiKey key users) as [user|].
           ++ destruct (u_isActive user); [discriminate|]. intros [= <- <-]. left. reflexivity.
           ++ intros [= <- <-]. left. reflexivity.
      * intros [= <- <-]. left. reflexivity.
Qed.

Lemma authenticate_refusals_witness :
  authenticate one_good_token [ada; bob]
    {| h_authorization := Some "Bearer stale"; h_x_api_key := Some "key-7" |}
  = Reply 403 "Invalid token"
  /\ authenticate one_good_token [ada; bob]
       {| h_authorization := None; h_x_api_key := Some "key-7" |}
     = Next (Some (select_user ada)).
Proof.
  destruct (authenticate_refusals one_good_token [ada; bob]
              {| h_authorization := Some "Bearer stale"; h_x_api_key := None |})
    as (Hshadow & _).
  split; [|reflexivity].
  transitivity (authenticate one_good_token [ada; bob]
                  {| h_authorization := Some "Bearer stale"; h_x_api_key := None |}).
  - symmetry. exact (Hshadow "Bearer stale" eq_refl (Some "key-7")).
  - reflexivity.
Defined.



(** ** The token is the second space-separated piece, whatever the first *)

Lemma split_space_word s :
  (forall c, In c (list_ascii_of_string s) -> c <> " "%char) ->
  split_space s = [s].
Proof.
  induction s as [|c s IH]; intros Hs; [reflexivity|]. cbn [split_space].
  destruct (Ascii.eqb_spec c " "%char) as [Heq|Hne].
  - exfalso. apply (Hs c); [left; reflexivity | exact Heq].
  - rewrite IH; [reflexivity|]. intros x Hx. apply Hs. right. exact Hx.
Qed.

Lemma split_space_after_word s rest :
  (forall c, In c (list_ascii_of_string s) -> c <> " "%char) ->
  split_space (s ++ String " " rest) = s :: split_space rest.
Proof.
  induction s as [|c s IH]; intros Hs; [reflexivity|].
  cbn [String.append split_space].
  destruct (Ascii.eqb_spec c " "%char) as [Heq|Hne].
  - exfalso. apply (Hs c); [left; reflexivity | exact Heq].
  - rewrite IH; [reflexivity|]. intros x Hx. apply Hs. right. exact Hx.
Qed.

(** [authenticateToken] never looks at the scheme word: for a header made of
    any word, one space and a token without spaces, the token is what is
    verified, so "Bearer t", "Basic t" and "x t" are treated alike; and a
    header that is a single word carries no token. *)
Theorem token_is_second_word_of_header (scheme token : string) :
  (forall c, In c (list_ascii_of_string scheme) -> c <> " "%char) ->
  (forall c, In c (list_ascii_of_string token) -> c <> " "%char) ->
  token <> "" ->
  token_of (Some (scheme ++ String " " token)) = Some token
  /\ token_of (Some scheme) = None
  /\ forall env users key,
       authenticateToken env users
         {| h_authorization := Some (scheme ++ String " " token); h_x_api_key := key |}
       = authenticateToken env users
           {| h_authorization := Some ("Bearer " ++ token); h_x_api_key := key |}.
Proof.
  intros Hscheme Htoken Hne.
  assert (Hnot : notEmpty token = true).
  { unfold notEmpty. destruct (String.eqb_spec token ""); [contradiction | reflexivity]. }
  assert (Hany : forall word,
            (forall c, In c (list_ascii_of_string word) -> c <> " "%char) ->
            token_of (Some (word ++ String " " token)) = Some token).
  { intros word Hword. unfold token_of, truthy_header.
    assert (Hw : notEmpty (word ++ String " " token) = true)
      by (destruct word; reflexivity).
    rewrite Hw, (split_space_after_word _ _ Hword), (split_space_word _ Htoken).
    cbn [nth_error]. rewrite Hnot. reflexivity. }
  split; [apply Hany; exact Hscheme|]. split.
  - unfold token_of, truthy_header. destruct (notEmpty scheme); [|reflexivity].
    rewrite (split_space_word _ Hscheme). reflexivity.
  - intros env users key. unfold authenticateToken. cbn [h_authorization].
    rewrite (Hany scheme Hscheme).
    change ("Bearer " ++ token) with ("Bearer" ++ String " " token).
    rewrite (Hany "Bearer"); [reflexivity|].
    cbn. intros c Hc. repeat (destruct Hc as [<-|Hc]; [discriminate|]). contradiction.
Qed.

Lemma token_is_second_word_of_header_witness :
  token_of (Some "Basic good") = Some "good"
  /\ authenticateToken one_good_token [ada; bob]
       {| h_authorization := Some "Basic good"; h_x_api_key := None |}
     = Next (Some (select_user ada)).
Proof.
  destruct (token_is_second_word_of_header "Basic" "good") as (Htok & _ & Hsame).
  - cbn. intros c Hc. repeat (destruct Hc as [<-|Hc]; [discriminate|]). contradiction.
  - cbn. intros c Hc. repeat (destruct Hc as [<-|Hc]; [discriminate|]). contradiction.
  - discriminate.
  - split; [exact Htok|]. exact (eq_trans (Hsame one_good_token [ada; bob] None) eq_refl).
Defined.

(** ** The two workers on the jobs of the first route *)

(** On a job enqueued by the first notify route (no user, no subject, no
    campaign, a validated channel) the campaign-aware worker behaves as the
    first worker does: the same sender call, the same outcome of the attempt,
    the same tables untouched, and the same log entry except for the attempt
    number and deliveredAt, which the first worker leaves at their defaults
    (the store taking the log entry). *)
Theorem workers_agree_on_first_route_jobs (env : AttemptEnv) (b : BasicRoute.NotifyBody)
  (made : Z) (w : World) :
  BasicRoute.notify_valid b = true ->
  log_create_error env = None ->
  let job := {| data := basic_job_data b; opts := retry_opts; attemptsMade := made |} in
  fst (run_processor env job w) = fst (Basic.run_processor env job w)
  /\ sent (snd (run_processor env job w)) = sent (snd (Basic.run_processor env job w))
  /\ campaigns (snd (run_processor env job w)) = campaigns w
  /\ campaigns (snd (Basic.run_processor env job w)) = campaigns w
  /\ exists entry,
       logs (snd (run_processor env job w)) = (logs w ++ [entry])%list
       /\ log_attempt entry = made + 1
       /\ logs (snd (Basic.run_processor env job w))
          = (logs w ++ [without_attempt_and_delivery entry])%list.
Proof.
  intros Hvalid Hlog job.
  assert (Hknown : known_channel (BasicRoute.b_channel b) = true).
  { unfold BasicRoute.notify_valid in Hvalid. rewrite !andb_true_iff in Hvalid. tauto. }
  unfold known_channel, status_in in Hknown. cbn [existsb] in Hknown.
  subst job. run_attempt.
  unfold dispatch, Basic.dispatch, call_sender, bind, modify, may_reject, ret, throw.
  js_cbn. rewrite Hlog.
  destruct (String.eqb (BasicRoute.b_channel b) "email") eqn:He; js_cbn;
    [|destruct (String.eqb (BasicRoute.b_channel b) "sms") eqn:Hs; js_cbn;
      [|destruct (String.eqb (BasicRoute.b_channel b) "in-app") eqn:Hi; js_cbn;
        [|discriminate Hknown]]];
    destruct (sender_error env); js_cbn;
    repeat split; eexists; repeat split; reflexivity.
Qed.

Lemma workers_agree_on_first_route_jobs_witness :
  sent (snd (run_processor (all_up 0)
               {| data := basic_job_data plain_submission_basic; opts := retry_opts;
                  attemptsMade := 0 |} empty_world))
  = [SendInApp "a@x.com" "hi"]
  /\ sent (snd (Basic.run_processor (all_up 0)
                  {| data := basic_job_data plain_submission_basic; opts := retry_opts;
                     attemptsMade := 0 |} empty_world))
     = [SendInApp "a@x.com" "hi"].
Proof.
  destruct (workers_agree_on_first_route_jobs (all_up 0) plain_submission_basic 0
              empty_world eq_refl eq_refl) as (_ & Hsent & _).
  split; [reflexivity|]. rewrite <- Hsent. reflexivity.
Defined.

(** ** A campaign from start to completion *)






(** ** Failures inside a request *)

Lemma try_catch_answers {S A} (body : M S A) (fallback : A) (s : S) :
  exists r, fst (try_catch body (fun _ => ret fallback) s) = Val r.
Proof.
  unfold try_catch, ret. destruct (body s) as [[a|e] s']; eexists; reflexivity.
Qed.

(** Every handler of the authenticated routes answers every request: each
    wraps its work in try/catch, so a rejection of the store or of the queue
    becomes a response (500) and never an unhandled rejection.  The first
    notify route has no try/catch: there a rejected insert or a rejected
    queue add leaves a valid request without any response (the rejection
    being the store's, when sendAt is a date). *)
Theorem authenticated_routes_always_answer (env : RouteEnv) (userId id : Z)
  (b : NotifyBody) (bb : BulkBody) (to : string) (sendAt : option SendAt)
  (render : string -> string) (b0 : BasicRoute.NotifyBody) (w : World) :
  (exists r, fst (post_notify env userId b w) = Val r)
  /\ (exists r, fst (post_notify_bulk env userId bb w) = Val r)
  /\ (exists r, fst (delete_scheduled env userId id w) = Val r)
  /\ (exists r, fst (post_campaign_start env userId id w) = Val r)
  /\ (exists r, fst (post_campaign_pause env userId id w) = Val r)
  /\ (exists r, fst (delete_campaign env userId id w) = Val r)
  /\ (exists r, fst (post_template_send env userId id to sendAt render w) = Val r)
  /\ (BasicRoute.notify_valid b0 = true ->
      forall reason,
        (BasicRoute.b_sendAt b0 <> None -> store_error env = Some reason ->
           exists e,
             BasicRoute.post_notify env b0 w = (Exn e, w)
             /\ (forall raw t, BasicRoute.b_sendAt b0 = Some (IsoDate raw t) -> e = reason))
        /\ (BasicRoute.b_sendAt b0 = None -> queue_error env = Some reason ->
              BasicRoute.post_notify env b0 w = (Exn reason, w))).
Proof.
  repeat match goal with |- _ /\ _ => split end.
  - unfold post_notify. destruct (negb (notify_valid b));
      [eexists; reflexivity | apply try_catch_answers].
  - unfold post_notify_bulk. destruct (negb (bulk_valid bb));
      [eexists; reflexivity | apply try_catch_answers].
  - apply try_catch_answers.
  - apply try_catch_answers.
  - apply try_catch_answers.
  - apply try_catch_answers.
  - unfold post_template_send. destruct (negb (notEmpty to && optional_iso sendAt));
      [eexists; reflexivity | apply try_catch_answers].
  - intros Hvalid reason.
    assert (Hiso : optional_iso (BasicRoute.b_sendAt b0) = true).
    { unfold BasicRoute.notify_valid in Hvalid. apply andb_true_iff in Hvalid. tauto. }
    unfold BasicRoute.post_notify. rewrite Hvalid. cbn [negb]. split.
    + intros Hs Hstore. destruct (BasicRoute.b_sendAt b0) as [s|]; [|congruence].
      destruct (valid_sendAt_truthy s Hiso) as [Ht [(raw & t & ->)|(raw & ->)]]; rewrite Ht;
        unfold bind, date_of, scheduled_create, bind, may_reject, get, modify, ret, throw;
        rewrite ?Hstore; eexists; (split; [reflexivity|]).
      * intros raw0 t0 _. reflexivity.
      * intros raw0 t0 H. discriminate H.
    + intros Hs Hq. rewrite Hs. cbn [truthy_sendAt].
      unfold bind, queue_add, bind, may_reject, modify, ret, throw. rewrite Hq. reflexivity.
Qed.

Lemma authenticated_routes_always_answer_witness :
  fst (post_notify queue_down 7 plain_submission empty_world) = Val internal_error
  /\ BasicRoute.post_notify queue_down plain_submission_basic empty_world
     = (Exn "Connection is closed.", empty_world).
Proof.
  destruct (authenticated_routes_always_answer queue_down 7 1 plain_submission pair_bulk
              "a@x.com" None (fun s => s) plain_submission_basic empty_world)
    as (_ & _ & _ & _ & _ & _ & _ & Hbasic).
  split; [reflexivity|].
  destruct (Hbasic eq_refl "Connection is closed.") as (_ & Hq).
  apply Hq; reflexivity.
Defined.

(** ** The first worker and its log *)

(** In the first worker the log insert is part of the attempt: an attempt
    resolves only if the sender accepted the message and the store took the
    entry, which then says "success"; and every attempt whose entry is
    refused rejects with the store's error, whatever the sender did. *)
Theorem first_worker_resolves_only_when_logged (env : AttemptEnv) (job : Job) (w : World) :
  let r := fst (Basic.run_processor env job w) in
  let w' := snd (Basic.run_processor env job w) in
  (r = Val tt ->
     sender_error env = None /\ log_create_error env = None
     /\ known_channel (jd_channel (data job)) = true
     /\ exists entry, logs w' = (logs w ++ [entry])%list /\ log_status entry = "success"
                      /\ log_attempt entry = 1)
  /\ (forall reason, log_create_error env = Some reason ->
        r = Exn reason /\ logs w' = logs w).
Proof.
  cbv zeta. split.
  - unfold known_channel, status_in. cbn [existsb].
    run_attempt. unfold Basic.dispatch, call_sender, bind, modify, may_reject, ret, throw.
    js_cbn. split_cases; intros Hr; try discriminate Hr;
      (split; [reflexivity|]); (split; [reflexivity|]); (split; [reflexivity|]);
      eexists; repeat split; reflexivity.
  - intros reason Hlog.
    run_attempt. unfold Basic.dispatch, call_sender, bind, modify, may_reject, ret, throw.
    js_cbn. rewrite Hlog. split_cases; split; reflexivity.
Qed.

Lemma first_worker_resolves_only_when_logged_witness :
  fst (Basic.run_processor (log_down_once 0)
         {| data := email_data; opts := retry_opts; attemptsMade := 0 |} empty_world)
  = Exn "Connection terminated"
  /\ sent (snd (Basic.run_processor (log_down_once 0)
                  {| data := email_data; opts := retry_opts; attemptsMade := 0 |}
                  empty_world))
     = [SendEmail "a@x.com" "hi" None].
Proof.
  destruct (first_worker_resolves_only_when_logged (log_down_once 0)
              {| data := email_data; opts := retry_opts; attemptsMade := 0 |} empty_world)
    as (_ & Hrej).
  destruct (Hrej "Connection terminated" eq_refl) as (Hr & _).
  split; [exact Hr | reflexivity].
Defined.
